(** * go-paypal: a shallow embedding of [paypal.go] and its properties

    The Go package wraps three calls of the PayPal REST API ([Auth],
    [CreateOrder], [Capture]) and a JSON configuration loader ([Load],
    [Create]).  This development embeds the package together with the parts
    of the Go runtime it calls:

    - Go strings are byte sequences: [string] with 8-bit [ascii] characters;
    - [float64] is IEEE 754 binary64: [spec_float] with [prec = 53] and
      [emax = 1024];
    - the file system is a finite map from paths to files, threaded through
      [os.ReadFile] and [os.WriteFile];
    - the network is a function from requests to responses, and every
      operation returns the list of requests it handed to the HTTP client;
    - [encoding/json] is embedded for the struct types of the package. *)

From Stdlib Require Import ZArith String Ascii List Bool Lia.
From Stdlib Require Import Floats.SpecFloat.
From stdpp Require Import base option gmap strings.

Local Open Scope string_scope.
Local Open Scope Z_scope.

(** [simpl] may unfold an append whose first argument starts with a
    constructor. *)
#[local] Arguments String.append !s1 s2 : simpl nomatch.

(** ** Bytes *)

Module byte.

Definition val (c : ascii) : Z := Z.of_N (N_of_ascii c).

Definition of_Z (z : Z) : ascii := ascii_of_N (Z.to_N (z mod 256)).

Definition in_range (lo hi : Z) (c : ascii) : bool :=
  (lo <=? val c) && (val c <=? hi).

(** The double quote, [0x22]. *)
Definition quote : ascii := Ascii false true false false false true false false.

End byte.

(** ** Package [strings] *)

Module strings.

(** [s[n:]] for [n <= len(s)]. *)
Fixpoint drop (n : nat) (s : string) : string :=
  match n, s with
  | O, _ => s
  | S n', String _ t => drop n' t
  | S _, EmptyString => EmptyString
  end.

(** [func HasSuffix(s, suffix string) bool {
       return len(s) >= len(suffix) && s[len(s)-len(suffix):] == suffix }] *)
Definition HasSuffix (s suffix : string) : bool :=
  (String.length suffix <=? String.length s)%nat
  && String.eqb (drop (String.length s - String.length suffix) s) suffix.

End strings.

(** ** Package [unicode/utf8] *)

Module utf8.

Definition RuneError : Z := 0xFFFD.
Definition MaxRune : Z := 0x10FFFF.
Definition RuneSelf : Z := 0x80.

(** Classification of a leading byte: the [first] table together with
    [acceptRanges].  [Lead n lo hi] is a leading byte of an [n]-byte
    sequence whose second byte must lie in [lo..hi]. *)
Inductive lead :=
| ASCII
| Invalid
| Lead (size : nat) (lo hi : Z).

Definition first (b0 : Z) : lead :=
  if b0 <? 0x80 then ASCII
  else if b0 <? 0xC2 then Invalid
  else if b0 <? 0xE0 then Lead 2 0x80 0xBF
  else if b0 =? 0xE0 then Lead 3 0xA0 0xBF
  else if b0 <? 0xED then Lead 3 0x80 0xBF
  else if b0 =? 0xED then Lead 3 0x80 0x9F
  else if b0 <? 0xF0 then Lead 3 0x80 0xBF
  else if b0 =? 0xF0 then Lead 4 0x90 0xBF
  else if b0 <? 0xF4 then Lead 4 0x80 0xBF
  else if b0 =? 0xF4 then Lead 4 0x80 0x8F
  else Invalid.

Definition cont (c : ascii) : bool := byte.in_range 0x80 0xBF c.

Definition maskx : Z := 0x3F.

(** [func DecodeRuneInString(s string) (rune, int)] *)
Definition DecodeRuneInString (s : string) : Z * nat :=
  match s with
  | EmptyString => (RuneError, 0%nat)
  | String c0 t0 =>
    let s0 := byte.val c0 in
    match first s0 with
    | ASCII => (s0, 1%nat)
    | Invalid => (RuneError, 1%nat)
    | Lead sz lo hi =>
      match t0 with
      | EmptyString => (RuneError, 1%nat)
      | String c1 t1 =>
        let s1 := byte.val c1 in
        if negb (byte.in_range lo hi c1) then (RuneError, 1%nat)
        else if (sz <=? 2)%nat then
          (Z.lor (Z.shiftl (Z.land s0 0x1F) 6) (Z.land s1 maskx), 2%nat)
        else
          match t1 with
          | EmptyString => (RuneError, 1%nat)
          | String c2 t2 =>
            let s2 := byte.val c2 in
            if negb (cont c2) then (RuneError, 1%nat)
            else if (sz <=? 3)%nat then
              (Z.lor (Z.lor (Z.shiftl (Z.land s0 0x0F) 12)
                            (Z.shiftl (Z.land s1 maskx) 6))
                     (Z.land s2 maskx), 3%nat)
            else
              match t2 with
              | EmptyString => (RuneError, 1%nat)
              | String c3 _ =>
                let s3 := byte.val c3 in
                if negb (cont c3) then (RuneError, 1%nat)
                else
                  (Z.lor (Z.lor (Z.lor (Z.shiftl (Z.land s0 0x07) 18)
                                       (Z.shiftl (Z.land s1 maskx) 12))
                                (Z.shiftl (Z.land s2 maskx) 6))
                         (Z.land s3 maskx), 4%nat)
              end
          end
      end
    end
  end.

Definition is_surrogate (r : Z) : bool := (0xD800 <=? r) && (r <=? 0xDFFF).

Definition encode3 (r : Z) : string :=
  String (byte.of_Z (Z.lor 0xE0 (Z.shiftr r 12)))
 (String (byte.of_Z (Z.lor 0x80 (Z.land (Z.shiftr r 6) maskx)))
 (String (byte.of_Z (Z.lor 0x80 (Z.land r maskx))) EmptyString)).

(** [func EncodeRune(p []byte, r rune) int], returning the bytes written.
    The switch is on [uint32(r)], so a negative rune is out of range. *)
Definition EncodeRune (r : Z) : string :=
  if (0 <=? r) && (r <=? 0x7F) then String (byte.of_Z r) EmptyString
  else if (0 <=? r) && (r <=? 0x7FF) then
    String (byte.of_Z (Z.lor 0xC0 (Z.shiftr r 6)))
   (String (byte.of_Z (Z.lor 0x80 (Z.land r maskx))) EmptyString)
  else if (r <? 0) || (MaxRune <? r) || is_surrogate r then encode3 RuneError
  else if r <=? 0xFFFF then encode3 r
  else
    String (byte.of_Z (Z.lor 0xF0 (Z.shiftr r 18)))
   (String (byte.of_Z (Z.lor 0x80 (Z.land (Z.shiftr r 12) maskx)))
   (String (byte.of_Z (Z.lor 0x80 (Z.land (Z.shiftr r 6) maskx)))
   (String (byte.of_Z (Z.lor 0x80 (Z.land r maskx))) EmptyString))).

(** [func ValidString(s string) bool]: every position starts a well-formed
    sequence.  The fuel is the number of bytes left, so it never runs out
    (lemma [valid_fuel]). *)
Fixpoint valid_from (fuel : nat) (s : string) : bool :=
  match s with
  | EmptyString => true
  | String _ _ =>
    match fuel with
    | O => false
    | S fuel' =>
      let '(r, size) := DecodeRuneInString s in
      if (r =? RuneError) && (size =? 1)%nat then false
      else valid_from fuel' (strings.drop size s)
    end
  end.

Definition ValidString (s : string) : bool := valid_from (String.length s) s.

End utf8.

(** ** Errors

    Go's [error] values, by the concrete type behind the interface. *)

Inductive Errno := ENOENT | EACCES | EISDIR | EROFS | ENOSPC.

Inductive error :=
| errorString (msg : string)                    (* errors.New, fmt.Errorf *)
| PathError (op path : string) (errno : Errno)  (* *fs.PathError *)
| SyntaxError                                   (* *json.SyntaxError *)
| UnmarshalTypeError (value type : string)      (* *json.UnmarshalTypeError *)
| UnsupportedValueError (str : string)          (* *json.UnsupportedValueError *)
| urlError (op url : string) (cause : string)   (* *url.Error *)
| ioError (cause : string).                     (* any other error of a reader *)

(** ** Package [encoding/json] *)

Module json.

Definition hex (n : Z) : ascii :=
  if n <? 10 then byte.of_Z (48 + n) else byte.of_Z (87 + n).

(** [htmlSafeSet]: the ASCII bytes that [Marshal] copies unchanged. *)
Definition htmlSafe (b : Z) : bool :=
  (0x20 <=? b) && (b <? 0x80)
  && negb ((b =? 0x22) || (b =? 0x26) || (b =? 0x3C) || (b =? 0x3E) || (b =? 0x5C)).

Definition escape_byte (c : ascii) : string :=
  let b := byte.val c in
  if (b =? 0x5C) || (b =? 0x22) then String "\" (String c EmptyString)
  else if b =? 0x08 then "\b"
  else if b =? 0x0C then "\f"
  else if b =? 0x0A then "\n"
  else if b =? 0x0D then "\r"
  else if b =? 0x09 then "\t"
  else "\u00" ++ String (hex (Z.shiftr b 4)) (String (hex (Z.land b 0xF)) EmptyString).

(** The loop of [appendString] with [escapeHTML = true]; [fuel] bounds the
    number of iterations and is the length of [src] (lemma [escape_fuel]). *)
Fixpoint escape (fuel : nat) (src : string) : string :=
  match src with
  | EmptyString => EmptyString
  | String c t =>
    match fuel with
    | O => EmptyString
    | S fuel' =>
      let b := byte.val c in
      if b <? utf8.RuneSelf then
        if htmlSafe b then String c (escape fuel' t)
        else escape_byte c ++ escape fuel' t
      else
        let '(r, size) := utf8.DecodeRuneInString src in
        if (r =? utf8.RuneError) && (size =? 1)%nat then
          "\ufffd" ++ escape fuel' t
        else if (r =? 0x2028) || (r =? 0x2029) then
          "\u202" ++ String (hex (Z.land r 0xF)) (escape fuel' (strings.drop size src))
        else
          substring 0 size src ++ escape fuel' (strings.drop size src)
    end
  end.

(** [appendString(dst, src, true)]: a JSON string literal for [src]. *)
Definition appendString (src : string) : string :=
  String byte.quote (escape (String.length src) src) ++ String byte.quote EmptyString.

(** *** Scanning *)

(** A syntactically valid JSON text.  String literals and object keys keep
    their raw bytes (without the quotes) and number literals their text, as
    the decoder reads them from the input when it stores them. *)
#[local] Unset Elimination Schemes.
Inductive value :=
| Null
| Bool (b : bool)
| Number (lit : string)
| Str (raw : string)
| Array (elems : list value)
| Object (members : list (string * value)).
#[local] Set Elimination Schemes.

Definition is_space (c : ascii) : bool :=
  let b := byte.val c in (b =? 0x20) || (b =? 0x09) || (b =? 0x0D) || (b =? 0x0A).

Fixpoint skip_space (s : string) : string :=
  match s with
  | String c t => if is_space c then skip_space t else s
  | EmptyString => s
  end.

Definition is_digit (c : ascii) : bool := byte.in_range 0x30 0x39 c.

Definition is_hex (c : ascii) : bool :=
  is_digit c || byte.in_range 0x61 0x66 c || byte.in_range 0x41 0x46 c.

Definition is_simple_escape (c : ascii) : bool :=
  let b := byte.val c in
  (b =? 0x62) || (b =? 0x66) || (b =? 0x6E) || (b =? 0x72) || (b =? 0x74)
  || (b =? 0x5C) || (b =? 0x2F) || (b =? 0x22).

(** [stateInString] and its escape states: the raw literal up to the
    closing quote, and the input after it. *)
Fixpoint scan_string (s : string) : option (string * string) :=
  match s with
  | EmptyString => None
  | String c t =>
    let b := byte.val c in
    if b =? 0x22 then Some (EmptyString, t)
    else if b =? 0x5C then
      match t with
      | String e t1 =>
        if is_simple_escape e then
          match scan_string t1 with
          | Some (raw, rest) => Some (String c (String e raw), rest)
          | None => None
          end
        else if byte.val e =? 0x75 then
          match t1 with
          | String h1 (String h2 (String h3 (String h4 t5))) =>
            if is_hex h1 && is_hex h2 && is_hex h3 && is_hex h4 then
              match scan_string t5 with
              | Some (raw, rest) =>
                Some (String c (String e (String h1 (String h2 (String h3 (String h4 raw))))), rest)
              | None => None
              end
            else None
          | _ => None
          end
        else None
      | EmptyString => None
      end
    else if b <? 0x20 then None
    else
      match scan_string t with
      | Some (raw, rest) => Some (String c raw, rest)
      | None => None
      end
  end.

Fixpoint span_digits (s : string) : string * string :=
  match s with
  | String c t =>
    if is_digit c then let '(d, rest) := span_digits t in (String c d, rest)
    else (EmptyString, s)
  | EmptyString => (EmptyString, s)
  end.

(** The number states: an optional minus sign, an integer part without a
    leading zero, an optional fraction and an optional exponent. *)
Definition scan_int (s : string) : option (string * string) :=
  match s with
  | String c t =>
    if byte.val c =? 0x30 then Some (String c EmptyString, t)
    else if is_digit c then
      let '(d, rest) := span_digits t in Some (String c d, rest)
    else None
  | EmptyString => None
  end.

Definition scan_frac (s : string) : option (string * string) :=
  match s with
  | String c t =>
    if byte.val c =? 0x2E then
      match span_digits t with
      | (EmptyString, _) => None
      | (d, rest) => Some (String c d, rest)
      end
    else Some (EmptyString, s)
  | EmptyString => Some (EmptyString, s)
  end.

Definition scan_exp (s : string) : option (string * string) :=
  match s with
  | String c t =>
    if (byte.val c =? 0x65) || (byte.val c =? 0x45) then
      let '(sign, t1) :=
        match t with
        | String g t' =>
          if (byte.val g =? 0x2B) || (byte.val g =? 0x2D)
          then (String g EmptyString, t') else (EmptyString, t)
        | EmptyString => (EmptyString, t)
        end in
      match span_digits t1 with
      | (EmptyString, _) => None
      | (d, rest) => Some (String c (sign ++ d), rest)
      end
    else Some (EmptyString, s)
  | EmptyString => Some (EmptyString, s)
  end.

Definition scan_number (s : string) : option (string * string) :=
  let '(neg, s1) :=
    match s with
    | String c t => if byte.val c =? 0x2D then (String c EmptyString, t) else (EmptyString, s)
    | EmptyString => (EmptyString, s)
    end in
  '(i, s2) ← scan_int s1;
  '(f, s3) ← scan_frac s2;
  '(e, s4) ← scan_exp s3;
  Some (neg ++ i ++ f ++ e, s4).

(** [s] starts with [lit]: the rest of [s]. *)
Fixpoint strip_prefix (lit s : string) : option string :=
  match lit, s with
  | EmptyString, _ => Some s
  | String a lit', String b s' => if Ascii.eqb a b then strip_prefix lit' s' else None
  | String _ _, EmptyString => None
  end.

Definition maxNestingDepth : Z := 10000.

(** One value, after optional white space.  [depth] is the number of open
    arrays and objects.  Every call consumes one unit of [fuel] and at least
    one byte of input between two calls on the same branch, so
    [2 * len(data) + 2] units are never used up (lemma [scan_fuel]). *)
Fixpoint scan_value (fuel : nat) (depth : Z) (s : string) : option (value * string) :=
  match fuel with
  | O => None
  | S fuel' =>
    match skip_space s with
    | EmptyString => None
    | String c t as s' =>
      let b := byte.val c in
      if b =? 0x7B then
        if maxNestingDepth <? depth + 1 then None
        else
          match skip_space t with
          | String c' t' =>
            if byte.val c' =? 0x7D then Some (Object [], t')
            else
              '(ms, rest) ← scan_members fuel' (depth + 1) (String c' t');
              Some (Object ms, rest)
          | EmptyString => None
          end
      else if b =? 0x5B then
        if maxNestingDepth <? depth + 1 then None
        else
          match skip_space t with
          | String c' t' =>
            if byte.val c' =? 0x5D then Some (Array [], t')
            else
              '(vs, rest) ← scan_elems fuel' (depth + 1) (String c' t');
              Some (Array vs, rest)
          | EmptyString => None
          end
      else if b =? 0x22 then
        '(raw, rest) ← scan_string t; Some (Str raw, rest)
      else if b =? 0x74 then rest ← strip_prefix "rue" t; Some (Bool true, rest)
      else if b =? 0x66 then rest ← strip_prefix "alse" t; Some (Bool false, rest)
      else if b =? 0x6E then rest ← strip_prefix "ull" t; Some (Null, rest)
      else '(lit, rest) ← scan_number s'; Some (Number lit, rest)
    end
  end

(** The members of an object from a key on, up to the closing brace. *)
with scan_members (fuel : nat) (depth : Z) (s : string) : option (list (string * value) * string) :=
  match fuel with
  | O => None
  | S fuel' =>
    match skip_space s with
    | String c t =>
      if byte.val c =? 0x22 then
        '(key, s1) ← scan_string t;
        match skip_space s1 with
        | String colon s2 =>
          if byte.val colon =? 0x3A then
            '(v, s3) ← scan_value fuel' depth s2;
            match skip_space s3 with
            | String d s4 =>
              if byte.val d =? 0x7D then Some ([(key, v)], s4)
              else if byte.val d =? 0x2C then
                '(ms, rest) ← scan_members fuel' depth s4;
                Some ((key, v) :: ms, rest)
              else None
            | EmptyString => None
            end
          else None
        | EmptyString => None
        end
      else None
    | EmptyString => None
    end
  end

(** The elements of an array from a value on, up to the closing bracket. *)
with scan_elems (fuel : nat) (depth : Z) (s : string) : option (list value * string) :=
  match fuel with
  | O => None
  | S fuel' =>
    '(v, s1) ← scan_value fuel' depth s;
    match skip_space s1 with
    | String d s2 =>
      if byte.val d =? 0x5D then Some ([v], s2)
      else if byte.val d =? 0x2C then
        '(vs, rest) ← scan_elems fuel' depth s2;
        Some (v :: vs, rest)
      else None
    | EmptyString => None
    end
  end.

(** [checkValid]: one value, then only white space. *)
Definition checkValid (data : string) : option value :=
  match scan_value (2 * String.length data + 2) 0 data with
  | Some (v, rest) =>
    match skip_space rest with
    | EmptyString => Some v
    | String _ _ => None
    end
  | None => None
  end.

(** *** Unquoting *)

Definition hexval (c : ascii) : Z :=
  let b := byte.val c in
  if is_digit c then b - 0x30
  else if byte.in_range 0x61 0x66 c then b - 0x61 + 10
  else b - 0x41 + 10.

(** [func getu4(s []byte) rune]: the code unit of a leading [\uXXXX], or [-1]. *)
Definition getu4 (s : string) : Z :=
  match s with
  | String c (String u (String h1 (String h2 (String h3 (String h4 _))))) =>
    if (byte.val c =? 0x5C) && (byte.val u =? 0x75)
       && is_hex h1 && is_hex h2 && is_hex h3 && is_hex h4
    then ((hexval h1 * 16 + hexval h2) * 16 + hexval h3) * 16 + hexval h4
    else -1
  | _ => -1
  end.

(** [utf16.IsSurrogate] and [utf16.DecodeRune]. *)
Definition utf16_IsSurrogate (r : Z) : bool := (0xD800 <=? r) && (r <? 0xE000).

Definition utf16_DecodeRune (r1 r2 : Z) : Z :=
  if (0xD800 <=? r1) && (r1 <? 0xDC00) && (0xDC00 <=? r2) && (r2 <? 0xE000)
  then Z.lor (Z.shiftl (r1 - 0xD800) 10) (r2 - 0xDC00) + 0x10000
  else utf8.RuneError.

(** The rewriting loop of [unquoteBytes] on the bytes between the quotes.
    (Its leading scan returns the input as it is when it holds no escape,
    quote, control byte or malformed sequence; the loop is the identity on
    such input.)  [None] is [ok = false]. *)
Fixpoint unquote (fuel : nat) (s : string) : option string :=
  match s with
  | EmptyString => Some EmptyString
  | String c t =>
    match fuel with
    | O => None
    | S fuel' =>
      let b := byte.val c in
      if b =? 0x5C then
        match t with
        | EmptyString => None
        | String e t1 =>
          let x := byte.val e in
          if (x =? 0x22) || (x =? 0x5C) || (x =? 0x2F) || (x =? 0x27) then
            String e <$> unquote fuel' t1
          else if x =? 0x62 then String (byte.of_Z 0x08) <$> unquote fuel' t1
          else if x =? 0x66 then String (byte.of_Z 0x0C) <$> unquote fuel' t1
          else if x =? 0x6E then String (byte.of_Z 0x0A) <$> unquote fuel' t1
          else if x =? 0x72 then String (byte.of_Z 0x0D) <$> unquote fuel' t1
          else if x =? 0x74 then String (byte.of_Z 0x09) <$> unquote fuel' t1
          else if x =? 0x75 then
            let rr := getu4 s in
            if rr <? 0 then None
            else
              let t5 := strings.drop 6 s in
              if utf16_IsSurrogate rr then
                let dec := utf16_DecodeRune rr (getu4 t5) in
                if negb (dec =? utf8.RuneError) then
                  String.append (utf8.EncodeRune dec) <$> unquote fuel' (strings.drop 6 t5)
                else
                  String.append (utf8.EncodeRune utf8.RuneError) <$> unquote fuel' t5
              else String.append (utf8.EncodeRune rr) <$> unquote fuel' t5
          else None
        end
      else if (b =? 0x22) || (b <? 0x20) then None
      else if b <? utf8.RuneSelf then String c <$> unquote fuel' t
      else
        let '(rr, size) := utf8.DecodeRuneInString s in
        String.append (utf8.EncodeRune rr) <$> unquote fuel' (strings.drop size s)
    end
  end.

Definition unquoteBytes (raw : string) : option string :=
  unquote (String.length raw) raw.

(** *** Decoding into Go values *)

(** The decoder's view of a store into a Go value: the value as it is left
    behind, the first saved error ([d.savedError]) and the error that stopped
    the decoding, if any. *)
Record dres (T : Type) := mkdres {
  cur : T;
  savedError : option error;
  stop : option error
}.
Arguments mkdres {T}.
Arguments cur {T}.
Arguments savedError {T}.
Arguments stop {T}.

Definition decoder (T : Type) : Type := value -> T -> option error -> dres T.

(** [func (d *decodeState) saveError(err error)] keeps the first error. *)
Definition saveError (saved : option error) (e : error) : option error :=
  match saved with
  | None => Some e
  | Some _ => saved
  end.

(** The [Value] field of an [UnmarshalTypeError]. *)
Definition describe (v : value) : string :=
  match v with
  | Null => "null"
  | Bool _ => "bool"
  | Number _ => "number"
  | Str _ => "string"
  | Array _ => "array"
  | Object _ => "object"
  end.

Definition mismatch {T} (v : value) (type : string) (old : T) (saved : option error) : dres T :=
  mkdres old (saveError saved (UnmarshalTypeError (describe v) type)) None.

Definition decode_string : decoder string := fun v old saved =>
  match v with
  | Str raw => mkdres (default old (unquoteBytes raw)) saved None
  | Null => mkdres old saved None
  | _ => mismatch v "string" old saved
  end.

Definition decode_bool : decoder bool := fun v old saved =>
  match v with
  | Bool b => mkdres b saved None
  | Null => mkdres old saved None
  | _ => mismatch v "bool" old saved
  end.

Fixpoint digits_value (acc : Z) (s : string) : option Z :=
  match s with
  | EmptyString => Some acc
  | String c t =>
    if is_digit c then digits_value (acc * 10 + (byte.val c - 0x30)) t else None
  end.

(** [strconv.ParseInt(lit, 10, 64)] on a JSON number literal. *)
Definition ParseInt (lit : string) : option Z :=
  let '(neg, body) :=
    match lit with
    | String c t => if byte.val c =? 0x2D then (true, t) else (false, lit)
    | EmptyString => (false, lit)
    end in
  match body with
  | EmptyString => None
  | _ =>
    n ← digits_value 0 body;
    let z := if neg then - n else n in
    if (- 2 ^ 63 <=? z) && (z <? 2 ^ 63) then Some z else None
  end.

(** Go's [int] on a 64-bit platform. *)
Definition decode_int : decoder Z := fun v old saved =>
  match v with
  | Number lit =>
    match ParseInt lit with
    | Some n => mkdres n saved None
    | None => mkdres old (saveError saved (UnmarshalTypeError ("number " ++ lit) "int")) None
    end
  | Null => mkdres old saved None
  | _ => mismatch v "int" old saved
  end.

(** [d.array] into a slice: element [i] is decoded into the element already
    at index [i], or into a new zero element beyond the old length. *)
Fixpoint decode_elems {T} (dec : decoder T) (zero : T) (vs : list value)
    (old : list T) (saved : option error) : dres (list T) :=
  match vs with
  | [] => mkdres [] saved None
  | v :: vs' =>
    let r := dec v (hd zero old) saved in
    match stop r with
    | Some e => mkdres (cur r :: tl old) (savedError r) (Some e)
    | None =>
      let rs := decode_elems dec zero vs' (tl old) (savedError r) in
      mkdres (cur r :: cur rs) (savedError rs) (stop rs)
    end
  end.

Definition decode_slice {T} (type : string) (dec : decoder T) (zero : T) : decoder (list T) :=
  fun v old saved =>
  match v with
  | Array vs => decode_elems dec zero vs old saved
  | Null => mkdres [] saved None
  | _ => mismatch v type old saved
  end.

(** A struct field with a [json:"name"] tag: its name and the store into
    the field of a struct value. *)
Record field (S : Type) := mkfield {
  name : string;
  store : decoder S
}.
Arguments mkfield {S}.
Arguments name {S}.
Arguments store {S}.

Definition field_of {S T} (nm : string) (get : S -> T) (set : T -> S -> S)
    (dec : decoder T) : field S :=
  mkfield nm (fun v s saved =>
    let r := dec v (get s) saved in
    mkdres (set (cur r) s) (savedError r) (stop r)).

(** [foldName]: ASCII letters are upper-cased and every other rune is
    replaced by the least rune of its case-folding orbit.  The struct tags
    of this package are ASCII, and the only runes outside ASCII whose orbit
    holds an ASCII letter are U+017F (long s) and U+212A (Kelvin sign);
    the other runes are left as they are. *)
Definition foldRune (r : Z) : Z :=
  if r =? 0x17F then 0x53 else if r =? 0x212A then 0x4B else r.

Fixpoint foldName (fuel : nat) (s : string) : string :=
  match s with
  | EmptyString => EmptyString
  | String c t =>
    match fuel with
    | O => EmptyString
    | S fuel' =>
      let b := byte.val c in
      if b <? utf8.RuneSelf then
        String (if byte.in_range 0x61 0x7A c then byte.of_Z (b - 0x20) else c)
               (foldName fuel' t)
      else
        let '(r, size) := utf8.DecodeRuneInString s in
        utf8.EncodeRune (foldRune r) ++ foldName fuel' (strings.drop size s)
    end
  end.

Definition fold (s : string) : string := foldName (String.length s) s.

(** The field for a key: an exact match of the name first, otherwise the
    first field whose name matches under case folding. *)
Definition find_field {S} (fields : list (field S)) (key : string) : option (field S) :=
  match List.find (fun f => String.eqb (name f) key) fields with
  | Some f => Some f
  | None => List.find (fun f => String.eqb (fold (name f)) (fold key)) fields
  end.

(** [d.object] into a struct: the members in input order; a key without a
    field is skipped. *)
Fixpoint decode_members {S} (fields : list (field S)) (ms : list (string * value))
    (s : S) (saved : option error) : dres S :=
  match ms with
  | [] => mkdres s saved None
  | (rawkey, v) :: ms' =>
    match find_field fields (default EmptyString (unquoteBytes rawkey)) with
    | Some f =>
      let r := store f v s saved in
      match stop r with
      | Some _ => r
      | None => decode_members fields ms' (cur r) (savedError r)
      end
    | None => decode_members fields ms' s saved
    end
  end.

Definition decode_struct {S} (type : string) (fields : list (field S)) : decoder S :=
  fun v s saved =>
  match v with
  | Object ms => decode_members fields ms s saved
  | Null => mkdres s saved None
  | _ => mismatch v type s saved
  end.

(** [func Unmarshal(data []byte, v any) error] for a non-nil pointer [v]:
    the value left behind the pointer and the error.  Nothing is stored when
    the input is not valid JSON. *)
Definition Unmarshal {T} (dec : decoder T) (data : string) (v : T) : T * option error :=
  match checkValid data with
  | None => (v, Some SyntaxError)
  | Some j =>
    let r := dec j v None in
    match stop r with
    | Some e => (cur r, Some e)
    | None => (cur r, savedError r)
    end
  end.

End json.

(** ** Package [encoding/base64] *)

Module base64.

Definition encodeStd (n : Z) : ascii :=
  if n <? 26 then byte.of_Z (0x41 + n)
  else if n <? 52 then byte.of_Z (0x61 + (n - 26))
  else if n <? 62 then byte.of_Z (0x30 + (n - 52))
  else if n =? 62 then byte.of_Z 0x2B
  else byte.of_Z 0x2F.

Definition sextet (v : Z) (shift : Z) : ascii :=
  encodeStd (Z.land (Z.shiftr v shift) 0x3F).

(** [StdEncoding.EncodeToString]: three bytes to four characters, with
    [=] padding of the last group. *)
Fixpoint EncodeToString (src : string) : string :=
  match src with
  | EmptyString => EmptyString
  | String a EmptyString =>
    let v := Z.shiftl (byte.val a) 16 in
    String (sextet v 18) (String (sextet v 12) "==")
  | String a (String b EmptyString) =>
    let v := Z.lor (Z.shiftl (byte.val a) 16) (Z.shiftl (byte.val b) 8) in
    String (sextet v 18) (String (sextet v 12) (String (sextet v 6) "="))
  | String a (String b (String c t)) =>
    let v := Z.lor (Z.lor (Z.shiftl (byte.val a) 16) (Z.shiftl (byte.val b) 8)) (byte.val c) in
    String (sextet v 18) (String (sextet v 12) (String (sextet v 6)
   (String (sextet v 0) (EncodeToString t))))
  end.

End base64.

(** ** Package [os]: a file system as state *)

Module os.

Record File := mkFile {
  data : string;
  perm : Z          (* permission bits, as given when the file was created *)
}.

(** [files] are the regular files by path.  [create_fault p] is the errno
    with which the system refuses to create a file at [p], if it does: a
    missing or read-only parent directory, a full device, an empty path. *)
Record FS := mkFS {
  files : gmap string File;
  create_fault : string -> option Errno
}.

(** A file mode in octal digits: [0600] is [octal 6 0 0]. *)
Definition octal (owner group other : Z) : Z := owner * 64 + group * 8 + other.

Definition readable (f : File) : bool := Z.testbit (perm f) 8.
Definition writable (f : File) : bool := Z.testbit (perm f) 7.

(** [func ReadFile(name string) ([]byte, error)] *)
Definition ReadFile (fs : FS) (name : string) : string * option error :=
  match files fs !! name with
  | None => (EmptyString, Some (PathError "open" name ENOENT))
  | Some f =>
    if readable f then (data f, None)
    else (EmptyString, Some (PathError "open" name EACCES))
  end.

(** [func WriteFile(name string, data []byte, perm FileMode) error]: an
    existing file is truncated and keeps its mode; a new one gets [perm]. *)
Definition WriteFile (fs : FS) (name : string) (bytes : string) (mode : Z) : FS * option error :=
  match files fs !! name with
  | Some f =>
    if writable f
    then (mkFS (<[name := mkFile bytes (perm f)]> (files fs)) (create_fault fs), None)
    else (fs, Some (PathError "open" name EACCES))
  | None =>
    match create_fault fs name with
    | Some errno => (fs, Some (PathError "open" name errno))
    | None => (mkFS (<[name := mkFile bytes mode]> (files fs)) (create_fault fs), None)
    end
  end.

(** [func IsNotExist(err error) bool] *)
Definition IsNotExist (err : option error) : bool :=
  match err with
  | Some (PathError _ _ ENOENT) => true
  | _ => false
  end.

End os.

(** ** Package [net/http] *)

Module http.

Definition MethodPost : string := "POST".
Definition StatusOK : Z := 200.
Definition StatusCreated : Z := 201.

(** [time.Second], in nanoseconds. *)
Definition Second : Z := 1000000000.

Record Request := mkRequest {
  Method : string;
  URL : string;
  Header : gmap string (list string);
  RequestBody : option string       (* [None] is the [nil] body *)
}.

(** A response as the client returns it.  [Body] is what [io.ReadAll]
    gets out of the response body: the bytes, and the error that ended the
    reading if it was not the end of the body. *)
Record Response := mkResponse {
  Status : string;       (* like ["403 Forbidden"] *)
  StatusCode : Z;
  Body : string * option error
}.

Record Client := mkClient {
  Timeout : Z
}.

(** [func (h Header) Add(key, value string)] and [Set], for keys in
    canonical form. *)
Definition Header_Add (key v : string) (h : gmap string (list string)) : gmap string (list string) :=
  <[key := (default [] (h !! key) ++ [v])%list]> h.

Definition Header_Set (key v : string) (h : gmap string (list string)) : gmap string (list string) :=
  <[key := [v]]> h.

Definition AddHeader (key v : string) (req : Request) : Request :=
  mkRequest (Method req) (URL req) (Header_Add key v (Header req)) (RequestBody req).

(** [func (r *Request) SetBasicAuth(username, password string)] *)
Definition SetBasicAuth (username password : string) (req : Request) : Request :=
  mkRequest (Method req) (URL req)
    (Header_Set "Authorization"
       ("Basic " ++ base64.EncodeToString (username ++ ":" ++ password)) (Header req))
    (RequestBody req).

End http.

(** ** The environment of the package

    What the package gets from outside the embedded code: the URL parser
    behind [http.NewRequest], the HTTP client with the network and the
    remote API behind it, the decimal rendering of a [float64] by
    [strconv], and [time.Time] with its RFC 3339 parser. *)

Class Env := {
  Time : Type;
  Time_zero : Time;
  parseStrictRFC3339 : string -> Time * option error;
  url_Parse : string -> option error;
  formatFloat : spec_float -> string;
  client_Do : http.Client -> http.Request -> http.Response + error
}.

(** [http.NewRequest(method, url, body)] for a valid method: it fails when
    the URL does not parse. *)
Definition NewRequest `{Env} (method url : string) (body : option string) : http.Request + error :=
  match url_Parse url with
  | Some err => inr err
  | None => inl (http.mkRequest method url ∅ body)
  end.

(** ** [float64] *)

Module float64.

Definition prec : Z := 53.
Definition emax : Z := 1024.

(** The conversion [float64(n)] of an integer: the nearest float, ties to
    even. *)
Definition of_int (n : Z) : spec_float := binary_normalize prec emax n 0 false.

(** [x / y] *)
Definition div (x y : spec_float) : spec_float := SFdiv prec emax x y.

Definition is_finite (x : spec_float) : bool :=
  match x with
  | S754_zero _ | S754_finite _ _ _ => true
  | _ => false
  end.

End float64.

(** * Package [paypal] *)

(** A JSON string literal and an object key for a struct tag. *)
Definition quoted (s : string) : string :=
  String byte.quote s ++ String byte.quote EmptyString.

Definition tag (name : string) : string := quoted name ++ ":".

(** ** The configuration *)

Module Config.

Record t := mk {
  OAuthAPI : string;   (* json:"oauth-api" *)
  OrderAPI : string;   (* json:"order-api" *)
  ClientID : string;   (* json:"client-id" *)
  Secret : string      (* json:"secret" *)
}.

(** [&Config{}] *)
Definition zero : t := mk EmptyString EmptyString EmptyString EmptyString.

Definition fields : list (json.field t) := [
  json.field_of "oauth-api" OAuthAPI (fun x c => mk x (OrderAPI c) (ClientID c) (Secret c)) json.decode_string;
  json.field_of "order-api" OrderAPI (fun x c => mk (OAuthAPI c) x (ClientID c) (Secret c)) json.decode_string;
  json.field_of "client-id" ClientID (fun x c => mk (OAuthAPI c) (OrderAPI c) x (Secret c)) json.decode_string;
  json.field_of "secret" Secret (fun x c => mk (OAuthAPI c) (OrderAPI c) (ClientID c) x) json.decode_string
].

Definition decode : json.decoder t := json.decode_struct "paypal.Config" fields.

(** [json.Marshal] of a [*Config]: the fields in declaration order. *)
Definition Marshal (c : t) : string + error :=
  inl ("{" ++ tag "oauth-api" ++ json.appendString (OAuthAPI c)
       ++ "," ++ tag "order-api" ++ json.appendString (OrderAPI c)
       ++ "," ++ tag "client-id" ++ json.appendString (ClientID c)
       ++ "," ++ tag "secret" ++ json.appendString (Secret c) ++ "}").

End Config.

(** [func Create(jsonPath string) error] *)
Definition Create (fs : os.FS) (jsonPath : string) : os.FS * error :=
  match Config.Marshal Config.zero with
  | inr err => (fs, err)
  | inl data =>
    match os.WriteFile fs jsonPath data (os.octal 6 0 0) with
    | (fs', Some err) => (fs', err)
    | (fs', None) => (fs', errorString ("created empty config file: " ++ jsonPath))
    end
  end.

(** [func Load(jsonPath string)]: the file system after the call, the
    [*Config] pointer ([None] is [nil]) and the error. *)
Definition Load (fs : os.FS) (jsonPath : string) : os.FS * (option Config.t * option error) :=
  let '(data, err) := os.ReadFile fs jsonPath in
  if os.IsNotExist err then
    let '(fs', e) := Create fs jsonPath in (fs', (None, Some e))
  else
    match err with
    | Some e => (fs, (None, Some e))
    | None =>
      match json.Unmarshal Config.decode data Config.zero with
      | (_, Some e) => (fs, (None, Some e))
      | (config, None) =>
        if String.eqb (Config.OAuthAPI config) EmptyString then
          (fs, (None, Some (errorString "missing oauth-api in paypal config file")))
        else if String.eqb (Config.OrderAPI config) EmptyString then
          (fs, (None, Some (errorString "missing order-api in paypal config file")))
        else if String.eqb (Config.ClientID config) EmptyString then
          (fs, (None, Some (errorString "missing client-id in paypal config file")))
        else if String.eqb (Config.Secret config) EmptyString then
          (fs, (None, Some (errorString "missing secret in paypal config file")))
        else (fs, (Some config, None))
      end
    end.

(** ** Requests and responses *)

Module AuthResult.

Record t := mk {
  Scope : string;         (* json:"scope" *)
  AccessToken : string;   (* json:"access_token" *)
  TokenType : string;     (* json:"token_type" *)
  AppID : string;         (* json:"app_id" *)
  ExpiresIn : Z;          (* json:"expires_in" *)
  Nonce : string          (* json:"nonce" *)
}.

Definition zero : t := mk EmptyString EmptyString EmptyString EmptyString 0 EmptyString.

Definition fields : list (json.field t) := [
  json.field_of "scope" Scope
    (fun x a => mk x (AccessToken a) (TokenType a) (AppID a) (ExpiresIn a) (Nonce a)) json.decode_string;
  json.field_of "access_token" AccessToken
    (fun x a => mk (Scope a) x (TokenType a) (AppID a) (ExpiresIn a) (Nonce a)) json.decode_string;
  json.field_of "token_type" TokenType
    (fun x a => mk (Scope a) (AccessToken a) x (AppID a) (ExpiresIn a) (Nonce a)) json.decode_string;
  json.field_of "app_id" AppID
    (fun x a => mk (Scope a) (AccessToken a) (TokenType a) x (ExpiresIn a) (Nonce a)) json.decode_string;
  json.field_of "expires_in" ExpiresIn
    (fun x a => mk (Scope a) (AccessToken a) (TokenType a) (AppID a) x (Nonce a)) json.decode_int;
  json.field_of "nonce" Nonce
    (fun x a => mk (Scope a) (AccessToken a) (TokenType a) (AppID a) (ExpiresIn a) x) json.decode_string
].

Definition decode : json.decoder t := json.decode_struct "paypal.AuthResult" fields.

End AuthResult.

Module Amount.

Record t := mk {
  CurrencyCode : string;   (* json:"currency_code" *)
  Value : spec_float       (* json:"value", a float64 *)
}.

End Amount.

Module PurchaseUnit.

Record t := mk {
  Amount : Amount.t;       (* json:"amount" *)
  Description : string;    (* json:"description" *)
  CustomID : string;       (* json:"custom_id" *)
  InvoiceID : string       (* json:"invoice_id" *)
}.

End PurchaseUnit.

Module ApplicationContext.

Record t := mk {
  ShippingPreference : string   (* json:"shipping_preference" *)
}.

End ApplicationContext.

Module OrderRequest.

Record t := mk {
  Intent : string;                              (* json:"intent" *)
  PurchaseUnits : list PurchaseUnit.t;          (* json:"purchase_units" *)
  ApplicationContext : ApplicationContext.t     (* json:"application_context" *)
}.

Section Marshal.
Context `{Env}.

(** [floatEncoder]: a float that is not finite is an
    [UnsupportedValueError]. *)
Definition marshal_float (f : spec_float) : string + error :=
  if float64.is_finite f then inl (formatFloat f)
  else inr (UnsupportedValueError (formatFloat f)).

Definition marshal_unit (u : PurchaseUnit.t) : string + error :=
  match marshal_float (Amount.Value (PurchaseUnit.Amount u)) with
  | inr err => inr err
  | inl value =>
    inl ("{" ++ tag "amount"
         ++ "{" ++ tag "currency_code"
                ++ json.appendString (Amount.CurrencyCode (PurchaseUnit.Amount u))
                ++ "," ++ tag "value" ++ value ++ "}"
         ++ "," ++ tag "description" ++ json.appendString (PurchaseUnit.Description u)
         ++ "," ++ tag "custom_id" ++ json.appendString (PurchaseUnit.CustomID u)
         ++ "," ++ tag "invoice_id" ++ json.appendString (PurchaseUnit.InvoiceID u) ++ "}")
  end.

(** The elements of a slice, separated by commas. *)
Fixpoint marshal_units (us : list PurchaseUnit.t) : string + error :=
  match us with
  | [] => inl EmptyString
  | u :: us' =>
    match marshal_unit u with
    | inr err => inr err
    | inl x =>
      match us' with
      | [] => inl x
      | _ :: _ =>
        match marshal_units us' with
        | inr err => inr err
        | inl xs => inl (x ++ "," ++ xs)
        end
      end
    end
  end.

(** [json.Marshal] of an [*OrderRequest] whose slice is not [nil]. *)
Definition Marshal (r : t) : string + error :=
  match marshal_units (PurchaseUnits r) with
  | inr err => inr err
  | inl units =>
    inl ("{" ++ tag "intent" ++ json.appendString (Intent r)
         ++ "," ++ tag "purchase_units" ++ "[" ++ units ++ "]"
         ++ "," ++ tag "application_context"
         ++ "{" ++ tag "shipping_preference"
                ++ json.appendString
                     (ApplicationContext.ShippingPreference (ApplicationContext r))
         ++ "}" ++ "}")
  end.

End Marshal.

End OrderRequest.

(** The element type of the [Links] slices. *)
Module Link.

Record t := mk {
  Href : string;     (* json:"href" *)
  Rel : string;      (* json:"rel" *)
  Method : string    (* json:"method" *)
}.

Definition zero : t := mk EmptyString EmptyString EmptyString.

Definition fields : list (json.field t) := [
  json.field_of "href" Href (fun x l => mk x (Rel l) (Method l)) json.decode_string;
  json.field_of "rel" Rel (fun x l => mk (Href l) x (Method l)) json.decode_string;
  json.field_of "method" Method (fun x l => mk (Href l) (Rel l) x) json.decode_string
].

Definition decode : json.decoder t := json.decode_struct "struct" fields.

Definition decode_slice : json.decoder (list t) := json.decode_slice "[]struct" decode zero.

End Link.

Module GenerateOrderResponse.

Record t := mk {
  ID : string;          (* json:"id", like "1AB23456CD789012E" *)
  Status : string;      (* json:"status", like "CREATED" *)
  Links : list Link.t   (* json:"links" *)
}.

Definition zero : t := mk EmptyString EmptyString [].

Definition fields : list (json.field t) := [
  json.field_of "id" ID (fun x r => mk x (Status r) (Links r)) json.decode_string;
  json.field_of "status" Status (fun x r => mk (ID r) x (Links r)) json.decode_string;
  json.field_of "links" Links (fun x r => mk (ID r) (Status r) x) Link.decode_slice
].

Definition decode : json.decoder t :=
  json.decode_struct "paypal.GenerateOrderResponse" fields.

End GenerateOrderResponse.

Module SuccessResponse.

Record t := mk {
  OrderID : string   (* json:"id" *)
}.

End SuccessResponse.

Module CaptureRequest.

Record t := mk {
  OrderID : string   (* json:"orderID" *)
}.

End CaptureRequest.

(** The anonymous struct types nested in [CaptureResponse], from the
    innermost one outwards.  [Money] is the type of every amount in it,
    [struct { CurrencyCode string; Value string }]. *)
Module Money.

Record t := mk {
  CurrencyCode : string;   (* json:"currency_code" *)
  Value : string           (* json:"value" *)
}.

Definition zero : t := mk EmptyString EmptyString.

Definition decode : json.decoder t := json.decode_struct "struct" [
  json.field_of "currency_code" CurrencyCode (fun x m => mk x (Value m)) json.decode_string;
  json.field_of "value" Value (fun x m => mk (CurrencyCode m) x) json.decode_string
].

End Money.

Module SellerProtection.

Record t := mk {
  Status : string;                    (* json:"status" *)
  DisputeCategories : list string     (* json:"dispute_categories" *)
}.

Definition zero : t := mk EmptyString [].

Definition decode : json.decoder t := json.decode_struct "struct" [
  json.field_of "status" Status (fun x p => mk x (DisputeCategories p)) json.decode_string;
  json.field_of "dispute_categories" DisputeCategories (fun x p => mk (Status p) x)
    (json.decode_slice "[]string" json.decode_string EmptyString)
].

End SellerProtection.

Module SellerReceivableBreakdown.

Record t := mk {
  GrossAmount : Money.t;   (* json:"gross_amount" *)
  PaypalFee : Money.t;     (* json:"paypal_fee" *)
  NetAmount : Money.t      (* json:"net_amount" *)
}.

Definition zero : t := mk Money.zero Money.zero Money.zero.

Definition decode : json.decoder t := json.decode_struct "struct" [
  json.field_of "gross_amount" GrossAmount (fun x b => mk x (PaypalFee b) (NetAmount b)) Money.decode;
  json.field_of "paypal_fee" PaypalFee (fun x b => mk (GrossAmount b) x (NetAmount b)) Money.decode;
  json.field_of "net_amount" NetAmount (fun x b => mk (GrossAmount b) (PaypalFee b) x) Money.decode
].

End SellerReceivableBreakdown.

Module CaptureDetail.
Section WithEnv.
Context `{Env}.

(** An element of [Payments.Captures]. *)
Record t := mk {
  ID : string;                                              (* json:"id" *)
  Status : string;                                          (* json:"status" *)
  Amount : Money.t;                                         (* json:"amount" *)
  FinalCapture : bool;                                      (* json:"final_capture" *)
  SellerProtection : SellerProtection.t;                    (* json:"seller_protection" *)
  SellerReceivableBreakdown : SellerReceivableBreakdown.t;  (* json:"seller_receivable_breakdown" *)
  Links : list Link.t;                                      (* json:"links" *)
  CreateTime : Time;                                        (* json:"create_time" *)
  UpdateTime : Time                                         (* json:"update_time" *)
}.

Definition zero : t :=
  mk EmptyString EmptyString Money.zero false SellerProtection.zero
     SellerReceivableBreakdown.zero [] Time_zero Time_zero.

(** [func (t *Time) UnmarshalJSON(data []byte) error], called with the raw
    bytes of the value: [null] is ignored, a string literal is parsed
    without unescaping, and anything else is not a JSON string. *)
Definition decode_time : json.decoder Time := fun v old saved =>
  match v with
  | json.Null => json.mkdres old saved None
  | json.Str raw =>
    let '(t, err) := parseStrictRFC3339 raw in json.mkdres t saved err
  | _ =>
    json.mkdres old saved
      (Some (errorString "Time.UnmarshalJSON: input is not a JSON string"))
  end.

Definition decode : json.decoder t := json.decode_struct "struct" [
  json.field_of "id" ID
    (fun x c => mk x (Status c) (Amount c) (FinalCapture c) (SellerProtection c)
                   (SellerReceivableBreakdown c) (Links c) (CreateTime c) (UpdateTime c))
    json.decode_string;
  json.field_of "status" Status
    (fun x c => mk (ID c) x (Amount c) (FinalCapture c) (SellerProtection c)
                   (SellerReceivableBreakdown c) (Links c) (CreateTime c) (UpdateTime c))
    json.decode_string;
  json.field_of "amount" Amount
    (fun x c => mk (ID c) (Status c) x (FinalCapture c) (SellerProtection c)
                   (SellerReceivableBreakdown c) (Links c) (CreateTime c) (UpdateTime c))
    Money.decode;
  json.field_of "final_capture" FinalCapture
    (fun x c => mk (ID c) (Status c) (Amount c) x (SellerProtection c)
                   (SellerReceivableBreakdown c) (Links c) (CreateTime c) (UpdateTime c))
    json.decode_bool;
  json.field_of "seller_protection" SellerProtection
    (fun x c => mk (ID c) (Status c) (Amount c) (FinalCapture c) x
                   (SellerReceivableBreakdown c) (Links c) (CreateTime c) (UpdateTime c))
    SellerProtection.decode;
  json.field_of "seller_receivable_breakdown" SellerReceivableBreakdown
    (fun x c => mk (ID c) (Status c) (Amount c) (FinalCapture c) (SellerProtection c)
                   x (Links c) (CreateTime c) (UpdateTime c))
    SellerReceivableBreakdown.decode;
  json.field_of "links" Links
    (fun x c => mk (ID c) (Status c) (Amount c) (FinalCapture c) (SellerProtection c)
                   (SellerReceivableBreakdown c) x (CreateTime c) (UpdateTime c))
    Link.decode_slice;
  json.field_of "create_time" CreateTime
    (fun x c => mk (ID c) (Status c) (Amount c) (FinalCapture c) (SellerProtection c)
                   (SellerReceivableBreakdown c) (Links c) x (UpdateTime c))
    decode_time;
  json.field_of "update_time" UpdateTime
    (fun x c => mk (ID c) (Status c) (Amount c) (FinalCapture c) (SellerProtection c)
                   (SellerReceivableBreakdown c) (Links c) (CreateTime c) x)
    decode_time
].

End WithEnv.
End CaptureDetail.

Module Address.

Record t := mk {
  AddressLine1 : string;   (* json:"address_line_1" *)
  AdminArea2 : string;     (* json:"admin_area_2" *)
  AdminArea1 : string;     (* json:"admin_area_1" *)
  PostalCode : string;     (* json:"postal_code" *)
  CountryCode : string     (* json:"country_code" *)
}.

Definition zero : t := mk EmptyString EmptyString EmptyString EmptyString EmptyString.

Definition decode : json.decoder t := json.decode_struct "struct" [
  json.field_of "address_line_1" AddressLine1
    (fun x a => mk x (AdminArea2 a) (AdminArea1 a) (PostalCode a) (CountryCode a)) json.decode_string;
  json.field_of "admin_area_2" AdminArea2
    (fun x a => mk (AddressLine1 a) x (AdminArea1 a) (PostalCode a) (CountryCode a)) json.decode_string;
  json.field_of "admin_area_1" AdminArea1
    (fun x a => mk (AddressLine1 a) (AdminArea2 a) x (PostalCode a) (CountryCode a)) json.decode_string;
  json.field_of "postal_code" PostalCode
    (fun x a => mk (AddressLine1 a) (AdminArea2 a) (AdminArea1 a) x (CountryCode a)) json.decode_string;
  json.field_of "country_code" CountryCode
    (fun x a => mk (AddressLine1 a) (AdminArea2 a) (AdminArea1 a) (PostalCode a) x) json.decode_string
].

End Address.

Module Shipping.

Record name := mkname {
  FullName : string      (* json:"full_name" *)
}.

Record t := mk {
  Name : name;           (* json:"name" *)
  Address : Address.t    (* json:"address" *)
}.

Definition zero : t := mk (mkname EmptyString) Address.zero.

Definition decode_name : json.decoder name := json.decode_struct "struct" [
  json.field_of "full_name" FullName (fun x _ => mkname x) json.decode_string
].

Definition decode : json.decoder t := json.decode_struct "struct" [
  json.field_of "name" Name (fun x s => mk x (Address s)) decode_name;
  json.field_of "address" Address (fun x s => mk (Name s) x) Address.decode
].

End Shipping.

Module CapturedUnit.
Section WithEnv.
Context `{Env}.

Record payments := mkpayments {
  Captures : list CaptureDetail.t     (* json:"captures" *)
}.

(** An element of [CaptureResponse.PurchaseUnits]. *)
Record t := mk {
  ReferenceID : string;               (* json:"reference_id" *)
  Shipping : Shipping.t;              (* json:"shipping" *)
  Payments : payments                 (* json:"payments" *)
}.

Definition zero : t := mk EmptyString Shipping.zero (mkpayments []).

Definition decode_payments : json.decoder payments :=
  json.decode_struct "struct" [
    json.field_of "captures" Captures (fun x _ => mkpayments x)
      (json.decode_slice "[]struct" CaptureDetail.decode CaptureDetail.zero)
  ].

Definition decode : json.decoder t := json.decode_struct "struct" [
  json.field_of "reference_id" ReferenceID (fun x u => mk x (Shipping u) (Payments u)) json.decode_string;
  json.field_of "shipping" Shipping (fun x u => mk (ReferenceID u) x (Payments u)) Shipping.decode;
  json.field_of "payments" Payments (fun x u => mk (ReferenceID u) (Shipping u) x) decode_payments
].

End WithEnv.
End CapturedUnit.

Module Payer.

Record name := mkname {
  GivenName : string;   (* json:"given_name" *)
  Surname : string      (* json:"surname" *)
}.

Record address := mkaddress {
  CountryCode : string  (* json:"country_code" *)
}.

Record t := mk {
  Name : name;             (* json:"name" *)
  EmailAddress : string;   (* json:"email_address" *)
  PayerID : string;        (* json:"payer_id" *)
  Address : address        (* json:"address" *)
}.

Definition zero : t :=
  mk (mkname EmptyString EmptyString) EmptyString EmptyString (mkaddress EmptyString).

Definition decode_name : json.decoder name := json.decode_struct "struct" [
  json.field_of "given_name" GivenName (fun x n => mkname x (Surname n)) json.decode_string;
  json.field_of "surname" Surname (fun x n => mkname (GivenName n) x) json.decode_string
].

Definition decode_address : json.decoder address := json.decode_struct "struct" [
  json.field_of "country_code" CountryCode (fun x _ => mkaddress x) json.decode_string
].

Definition decode : json.decoder t := json.decode_struct "struct" [
  json.field_of "name" Name (fun x p => mk x (EmailAddress p) (PayerID p) (Address p)) decode_name;
  json.field_of "email_address" EmailAddress
    (fun x p => mk (Name p) x (PayerID p) (Address p)) json.decode_string;
  json.field_of "payer_id" PayerID
    (fun x p => mk (Name p) (EmailAddress p) x (Address p)) json.decode_string;
  json.field_of "address" Address
    (fun x p => mk (Name p) (EmailAddress p) (PayerID p) x) decode_address
].

End Payer.

Module CaptureResponse.
Section WithEnv.
Context `{Env}.

Record t := mk {
  ID : string;                          (* json:"id" *)
  Status : string;                      (* json:"status" *)
  PurchaseUnits : list CapturedUnit.t;  (* json:"purchase_units" *)
  Payer : Payer.t;                      (* json:"payer" *)
  Links : list Link.t                   (* json:"links" *)
}.

Definition zero : t := mk EmptyString EmptyString [] Payer.zero [].

Definition decode : json.decoder t := json.decode_struct "paypal.CaptureResponse" [
  json.field_of "id" ID
    (fun x r => mk x (Status r) (PurchaseUnits r) (Payer r) (Links r)) json.decode_string;
  json.field_of "status" Status
    (fun x r => mk (ID r) x (PurchaseUnits r) (Payer r) (Links r)) json.decode_string;
  json.field_of "purchase_units" PurchaseUnits
    (fun x r => mk (ID r) (Status r) x (Payer r) (Links r))
    (json.decode_slice "[]struct" CapturedUnit.decode CapturedUnit.zero);
  json.field_of "payer" Payer
    (fun x r => mk (ID r) (Status r) (PurchaseUnits r) x (Links r)) Payer.decode;
  json.field_of "links" Links
    (fun x r => mk (ID r) (Status r) (PurchaseUnits r) (Payer r) x) Link.decode_slice
].

End WithEnv.
End CaptureResponse.

(** ** The three calls

    A call returns the requests it handed to the HTTP client, in order,
    and how it ended.  A result is a pair of a pointer ([None] is [nil]) and
    an error ([None] is [nil]). *)

Inductive outcome (T : Type) :=
| Returned (v : T)
| Panicked.            (* a nil pointer dereference *)
Arguments Returned {T}.
Arguments Panicked {T}.

(** [func ensureTrailingSlash(s string) string] *)
Definition ensureTrailingSlash (s : string) : string :=
  if strings.HasSuffix s "/" then s else s ++ "/".

Section Calls.
Context `{Env}.

(** [&http.Client{Timeout: 10 * time.Second}] *)
Definition client : http.Client := http.mkClient (10 * http.Second).

(** [func (config *Config) Auth()], for a receiver that is not [nil]. *)
Definition Auth (config : Config.t)
    : list http.Request * (option AuthResult.t * option error) :=
  match NewRequest http.MethodPost (Config.OAuthAPI config)
                   (Some "grant_type=client_credentials") with
  | inr err => ([], (None, Some err))
  | inl req =>
    let req := http.AddHeader "Accept" "application/json" req in
    let req := http.SetBasicAuth (Config.ClientID config) (Config.Secret config) req in
    match client_Do client req with
    | inr err => ([req], (None, Some err))
    | inl resp =>
      match http.Body resp with
      | (_, Some err) => ([req], (None, Some err))
      | (body, None) =>
        if negb (http.StatusCode resp =? http.StatusOK) then
          ([req], (None, Some (errorString
             ("error getting auth: " ++ http.Status resp ++ ": " ++ body))))
        else
          let '(authResult, err) := json.Unmarshal AuthResult.decode body AuthResult.zero in
          ([req], (Some authResult, err))
      end
    end
  end.

(** The composite literal [&OrderRequest{...}] at the head of
    [CreateOrder]. *)
Definition orderRequest (description customID invoiceID : string) (euroCents : Z)
    : OrderRequest.t :=
  OrderRequest.mk "CAPTURE"
    [PurchaseUnit.mk
       (Amount.mk "EUR" (float64.div (float64.of_int euroCents) (float64.of_int 100)))
       description customID invoiceID]
    (ApplicationContext.mk "NO_SHIPPING").

(** [func (config *Config) CreateOrder(auth *AuthResult, description,
    customID, invoiceID string, euroCents int)], for a receiver that is not
    [nil]; [auth] may be [nil]. *)
Definition CreateOrder (config : Config.t) (auth : option AuthResult.t)
    (description customID invoiceID : string) (euroCents : Z)
    : list http.Request * outcome (option GenerateOrderResponse.t * option error) :=
  match OrderRequest.Marshal (orderRequest description customID invoiceID euroCents) with
  | inr err => ([], Returned (None, Some err))
  | inl orJson =>
    match NewRequest http.MethodPost (Config.OrderAPI config) (Some orJson) with
    | inr err => ([], Returned (None, Some err))
    | inl req =>
      let req := http.AddHeader "Accept" "application/json" req in
      match auth with
      | None => ([], Panicked)
      | Some a =>
        let req := http.AddHeader "Authorization" ("Bearer " ++ AuthResult.AccessToken a) req in
        let req := http.AddHeader "Content-Type" "application/json" req in
        match client_Do client req with
        | inr err => ([req], Returned (None, Some err))
        | inl resp =>
          match http.Body resp with
          | (_, Some err) => ([req], Returned (None, Some err))
          | (body, None) =>
            if negb (http.StatusCode resp =? http.StatusCreated) then
              ([req], Returned (None, Some (errorString
                 ("error doing order: " ++ http.Status resp ++ ": " ++ body))))
            else
              let '(generateOrderResponse, err) :=
                json.Unmarshal GenerateOrderResponse.decode body GenerateOrderResponse.zero in
              ([req], Returned (Some generateOrderResponse, err))
          end
        end
      end
    end
  end.

(** The URL that [Capture] passes to [http.NewRequest]. *)
Definition capture_url (config : Config.t) (orderID : string) : string :=
  ensureTrailingSlash (Config.OrderAPI config) ++ orderID ++ "/capture".

(** [func (config *Config) Capture(auth *AuthResult, orderID string)], for
    a receiver that is not [nil]; [auth] may be [nil]. *)
Definition Capture (config : Config.t) (auth : option AuthResult.t) (orderID : string)
    : list http.Request * outcome (option CaptureResponse.t * option error) :=
  match NewRequest http.MethodPost (capture_url config orderID) None with
  | inr err => ([], Returned (None, Some err))
  | inl req =>
    let req := http.AddHeader "Accept" "application/json" req in
    match auth with
    | None => ([], Panicked)
    | Some a =>
      let req := http.AddHeader "Authorization" ("Bearer " ++ AuthResult.AccessToken a) req in
      let req := http.AddHeader "Content-Type" "application/json" req in
      match client_Do client req with
      | inr err => ([req], Returned (None, Some err))
      | inl resp =>
        match http.Body resp with
        | (_, Some err) => ([req], Returned (None, Some err))
        | (body, None) =>
          if negb (http.StatusCode resp =? http.StatusCreated) then
            ([req], Returned (None, Some (errorString
               ("error capturing: " ++ http.Status resp ++ ": " ++ body))))
          else
            let '(captureResponse, err) :=
              json.Unmarshal CaptureResponse.decode body CaptureResponse.zero in
            ([req], Returned (Some captureResponse, err))
        end
      end
    end
  end.

End Calls.

(** ** Vocabulary of the properties *)

(** [sub] occurs in [s]. *)
Definition occurs_in (sub s : string) : Prop :=
  exists pre post, s = pre ++ sub ++ post.

(** Every byte of [s] is outside ASCII. *)
Fixpoint high (s : string) : bool :=
  match s with
  | EmptyString => true
  | String c t => (0x80 <=? byte.val c) && high t
  end.

(** A member [key:string] of an object, as its text: the raw key and the raw
    literal between quotes, then [rest]. *)
Definition member (key raw rest : string) : string :=
  String byte.quote (key ++ String byte.quote
    (String ":" (String byte.quote (raw ++ String byte.quote rest)))).

(** A raw literal that the scanner reads up to the quote after it. *)
Definition closed (raw : string) : Prop :=
  forall rest, json.scan_string (raw ++ String byte.quote rest) = Some (raw, rest).

(** The escaped text of a string, as [appendString] writes it between the
    quotes. *)
Definition escaped (s : string) : string := json.escape (String.length s) s.

(** The text of a configuration: what [Config.Marshal] writes. *)
Definition config_text (c : Config.t) : string :=
  String "{"
    (member "oauth-api" (escaped (Config.OAuthAPI c)) (String ","
    (member "order-api" (escaped (Config.OrderAPI c)) (String ","
    (member "client-id" (escaped (Config.ClientID c)) (String ","
    (member "secret" (escaped (Config.Secret c)) "}"))))))).

(** The four fields are well-formed UTF-8. *)
Definition valid_utf8 (c : Config.t) : Prop :=
  utf8.ValidString (Config.OAuthAPI c) = true
  /\ utf8.ValidString (Config.OrderAPI c) = true
  /\ utf8.ValidString (Config.ClientID c) = true
  /\ utf8.ValidString (Config.Secret c) = true.

(** The four fields are not empty. *)
Definition complete (c : Config.t) : Prop :=
  Config.OAuthAPI c <> EmptyString /\ Config.OrderAPI c <> EmptyString
  /\ Config.ClientID c <> EmptyString /\ Config.Secret c <> EmptyString.

(** The first of the four fields that is empty, by its JSON name. *)
Definition first_missing (c : Config.t) : option string :=
  if String.eqb (Config.OAuthAPI c) EmptyString then Some "oauth-api"
  else if String.eqb (Config.OrderAPI c) EmptyString then Some "order-api"
  else if String.eqb (Config.ClientID c) EmptyString then Some "client-id"
  else if String.eqb (Config.Secret c) EmptyString then Some "secret"
  else None.

(** The amount of [CreateOrder]: [float64(euroCents) / 100.0]. *)
Definition amount_value (euroCents : Z) : spec_float :=
  float64.div (float64.of_int euroCents) (float64.of_int 100).

(** The number of cents nearest to a finite amount [v]: [100 * v] rounded
    to an integer, a half rounded up.  It is what the amount reads as when
    it is written with two decimals. *)
Definition cents_of (v : spec_float) : option Z :=
  match v with
  | S754_zero _ => Some 0
  | S754_finite s m e =>
    let n := if s then Zneg m else Zpos m in
    Some (if 0 <=? e then 100 * n * 2 ^ e
          else (200 * n + 2 ^ (- e)) / (2 * 2 ^ (- e)))
  | _ => None
  end.

(** [v] is a float nearest to [cents / 100]: it is zero when [cents] is, and
    otherwise a normal float [m * 2^e], [e < 0], that differs from
    [cents / 100] by half a unit in the last place at most,
    [|m * 2^e - cents / 100| <= 2^e / 2]. *)
Definition nearest_to_cents (v : spec_float) (cents : Z) : Prop :=
  match v with
  | S754_zero s => s = false /\ cents = 0
  | S754_finite s m e =>
    s = false /\ e < 0 /\ 2 ^ 52 <= Zpos m < 2 ^ 53
    /\ Z.abs (100 * Zpos m - cents * 2 ^ (- e)) <= 50
  | _ => False
  end.

(** [v] is [cents / 100] itself. *)
Definition exactly_cents (v : spec_float) (cents : Z) : Prop :=
  match v with
  | S754_zero _ => cents = 0
  | S754_finite s m e =>
    let n := if s then Zneg m else Zpos m in
    if 0 <=? e then 100 * n * 2 ^ e = cents else 100 * n = cents * 2 ^ (- e)
  | _ => False
  end.

(** Where a remainder [num / den], [0 <= num < den], lies with respect to
    one half: the meaning of a [location]. *)
Definition located (num den : Z) (l : location) : Prop :=
  match l with
  | loc_Exact => num = 0
  | loc_Inexact Lt => 0 < num /\ 2 * num < den
  | loc_Inexact Eq => 2 * num = den
  | loc_Inexact Gt => den < 2 * num
  end.

Section Requests.
Context `{Env}.

(** The requests that the calls build, once [http.NewRequest] has accepted
    the URL. *)
Definition Auth_request (config : Config.t) : http.Request :=
  http.SetBasicAuth (Config.ClientID config) (Config.Secret config)
    (http.AddHeader "Accept" "application/json"
       (http.mkRequest http.MethodPost (Config.OAuthAPI config) ∅
          (Some "grant_type=client_credentials"))).

Definition bearer (url : string) (body : option string) (a : AuthResult.t) : http.Request :=
  http.AddHeader "Content-Type" "application/json"
    (http.AddHeader "Authorization" ("Bearer " ++ AuthResult.AccessToken a)
       (http.AddHeader "Accept" "application/json"
          (http.mkRequest http.MethodPost url ∅ body))).

Definition CreateOrder_request (config : Config.t) (a : AuthResult.t) (orJson : string)
    : http.Request :=
  bearer (Config.OrderAPI config) (Some orJson) a.

Definition Capture_request (config : Config.t) (a : AuthResult.t) (orderID : string)
    : http.Request :=
  bearer (capture_url config orderID) None a.

(** The JSON text of the order request of [CreateOrder]. *)
Definition order_json (description customID invoiceID : string) (euroCents : Z) : string :=
  "{" ++ tag "intent" ++ quoted "CAPTURE"
  ++ "," ++ tag "purchase_units" ++ "["
  ++ "{" ++ tag "amount"
         ++ "{" ++ tag "currency_code" ++ quoted "EUR"
                ++ "," ++ tag "value"
                ++ formatFloat (float64.div (float64.of_int euroCents) (float64.of_int 100))
                ++ "}"
         ++ "," ++ tag "description" ++ json.appendString description
         ++ "," ++ tag "custom_id" ++ json.appendString customID
         ++ "," ++ tag "invoice_id" ++ json.appendString invoiceID ++ "}"
  ++ "]"
  ++ "," ++ tag "application_context"
  ++ "{" ++ tag "shipping_preference" ++ quoted "NO_SHIPPING" ++ "}" ++ "}".

End Requests.

(** ** Test doubles

    Concrete environments, file systems and inputs on which the properties
    below are instantiated. *)

Module mock.

(** An environment whose URL parser accepts every URL and whose client
    answers every request with [answer]. *)
Definition env (answer : http.Response + error) : Env := {|
  Time := string;
  Time_zero := EmptyString;
  parseStrictRFC3339 := fun s => (s, None);
  url_Parse := fun _ => None;
  formatFloat := fun _ => "10.5";
  client_Do := fun _ _ => answer
|}.

Definition config : Config.t :=
  Config.mk "https://api.example.com/v1/oauth2/token"
            "https://api.example.com/v2/orders" "client" "secret".

Definition auth (token : string) : AuthResult.t :=
  AuthResult.mk EmptyString token "Bearer" EmptyString 32400 EmptyString.

Definition orderID : string := "1AB23456CD789012E".

End mock.

Module mock_http.

Definition answer (status : string) (code : Z) (body : string) : http.Response + error :=
  inl (http.mkResponse status code (body, None)).

(** The body of the order-creation example:
    [{"id":"1AB23456CD789012E","status":"CREATED"}]. *)
Definition created : string :=
  "{" ++ tag "id" ++ quoted "1AB23456CD789012E" ++ ","
      ++ tag "status" ++ quoted "CREATED" ++ "}".

End mock_http.

Module mock_os.

(** A file system with one readable file. *)
Definition with_file (path content : string) : os.FS :=
  os.mkFS {[path := os.mkFile content (os.octal 6 4 4)]} (fun _ => None).

(** An empty file system in which no file can be created: a working
    directory that does not exist any more. *)
Definition unwritable : os.FS := os.mkFS ∅ (fun _ => Some ENOENT).

(** An empty file system in which every file can be created. *)
Definition empty : os.FS := os.mkFS ∅ (fun _ => None).

(** A configuration whose secret is [café] in Latin-1: the last byte,
    [0xE9], is not UTF-8. *)
Definition latin1 : Config.t :=
  Config.mk "https://api.example.com/v1/oauth2/token"
            "https://api.example.com/v2/orders" "client"
            ("caf" ++ String (byte.of_Z 0xE9) EmptyString).

(** The same configuration with U+FFFD, the bytes [EF BF BD], in place of
    that byte. *)
Definition latin1_replaced : Config.t :=
  Config.mk "https://api.example.com/v1/oauth2/token"
            "https://api.example.com/v2/orders" "client"
            ("caf" ++ String (byte.of_Z 0xEF) (String (byte.of_Z 0xBF)
                        (String (byte.of_Z 0xBD) EmptyString))).

End mock_os.

(** ** Vocabulary of the further properties *)

(** What a call hands to the client: one request at most, and only [POST]
    requests that accept JSON. *)
Definition single_POST (trace : list http.Request) : Prop :=
  (length trace <= 1)%nat
  /\ forall req, In req trace ->
       http.Method req = http.MethodPost
       /\ http.Header req !! "Accept" = Some ["application/json"].

(** The text that [Create] writes. *)
Definition placeholder : string := config_text Config.zero.

(** A string as [json.Marshal] coerces it to UTF-8: every byte that starts
    no well-formed sequence is replaced by U+FFFD. *)
Fixpoint replace_invalid (fuel : nat) (s : string) : string :=
  match s with
  | EmptyString => EmptyString
  | String c t =>
    match fuel with
    | O => EmptyString
    | S fuel' =>
      let '(r, size) := utf8.DecodeRuneInString s in
      if (r =? utf8.RuneError) && (size =? 1)%nat
      then utf8.EncodeRune utf8.RuneError ++ replace_invalid fuel' t
      else substring 0 size s ++ replace_invalid fuel' (strings.drop size s)
    end
  end.

Definition coerce (s : string) : string := replace_invalid (String.length s) s.

Definition coerced (c : Config.t) : Config.t :=
  Config.mk (coerce (Config.OAuthAPI c)) (coerce (Config.OrderAPI c))
            (coerce (Config.ClientID c)) (coerce (Config.Secret c)).

(** No key of the members [ms] names one of the fields [names], under the
    case folding of the decoder. *)
Definition unknown_keys (names : list string) (ms : list (string * json.value)) : Prop :=
  Forall (fun m => ~ In (json.fold (default EmptyString (json.unquoteBytes (fst m))))
                        (map json.fold names)) ms.

(** A JSON value that holds nothing for a struct: [null], or an object
    none of whose keys names a field. *)
Definition holds_nothing (names : list string) (v : json.value) : Prop :=
  match v with
  | json.Null => True
  | json.Object ms => unknown_keys names ms
  | _ => False
  end.

(** A JSON value that is no object and not [null]. *)
Definition no_object (v : json.value) : Prop :=
  match v with
  | json.Null | json.Object _ => False
  | _ => True
  end.

(** *** JSON documents

    A JSON document and its text without white space, the form in which
    [json.Marshal] writes a value and in which the API answers are given
    here.  A number is kept as its literal. *)
#[local] Unset Elimination Schemes.
Inductive doc :=
| DNull
| DBool (b : bool)
| DNum (lit : string)
| DStr (s : string)
| DArr (elems : list doc)
| DObj (members : list (string * doc)).
#[local] Set Elimination Schemes.

(** The text of a document followed by [rest].  Strings and keys are
    escaped as [appendString] escapes them. *)
Fixpoint write (j : doc) (rest : string) : string :=
  match j with
  | DNull => "null" ++ rest
  | DBool true => "true" ++ rest
  | DBool false => "false" ++ rest
  | DNum lit => lit ++ rest
  | DStr s => String byte.quote (escaped s ++ String byte.quote rest)
  | DArr [] => "[]" ++ rest
  | DArr (j0 :: js) =>
    String "["
      (write j0
         ((fix elems (js : list doc) : string :=
             match js with
             | [] => String "]" rest
             | j :: js' => String "," (write j (elems js'))
             end) js))
  | DObj [] => "{}" ++ rest
  | DObj ((k0, j0) :: ms) =>
    String "{" (String byte.quote (escaped k0 ++ String byte.quote (String ":"
      (write j0
         ((fix members (ms : list (string * doc)) : string :=
             match ms with
             | [] => String "}" rest
             | (k, j) :: ms' =>
               String "," (String byte.quote (escaped k ++ String byte.quote (String ":"
                 (write j (members ms')))))
             end) ms)))))
  end.

(** The same text, piece by piece: a member of an object, the elements of
    an array after the first one up to the bracket, and the members of an
    object after the first one up to the brace. *)
Definition write_member (k : string) (j : doc) (rest : string) : string :=
  String byte.quote (escaped k ++ String byte.quote (String ":" (write j rest))).

Fixpoint write_elems (js : list doc) (rest : string) : string :=
  match js with
  | [] => String "]" rest
  | j :: js' => String "," (write j (write_elems js' rest))
  end.

Fixpoint write_members (ms : list (string * doc)) (rest : string) : string :=
  match ms with
  | [] => String "}" rest
  | m :: ms' => String "," (write_member (fst m) (snd m) (write_members ms' rest))
  end.

Definition text (j : doc) : string := write j EmptyString.

(** The value that the scanner makes of the text: literals and keys in
    their raw form. *)
Fixpoint tree (j : doc) : json.value :=
  match j with
  | DNull => json.Null
  | DBool b => json.Bool b
  | DNum lit => json.Number lit
  | DStr s => json.Str (escaped s)
  | DArr js => json.Array (map tree js)
  | DObj ms => json.Object (map (fun m => (escaped (fst m), tree (snd m))) ms)
  end.

(** The number of arrays and objects around the innermost value. *)
Fixpoint nesting (j : doc) : Z :=
  match j with
  | DArr js => 1 + fold_right (fun j n => Z.max (nesting j) n) 0 js
  | DObj ms => 1 + fold_right (fun m n => Z.max (nesting (snd m)) n) 0 ms
  | _ => 0
  end.

(** What may follow a value inside a text: nothing, a comma, or a closing
    bracket or brace. *)
Definition delimited (rest : string) : Prop :=
  match rest with
  | EmptyString => True
  | String c _ => byte.val c = 0x2C \/ byte.val c = 0x5D \/ byte.val c = 0x7D
  end.

(** A number literal: the scanner reads it as one number, up to what
    follows it. *)
Definition number_literal (lit : string) : Prop :=
  (exists c t, lit = String c t /\ (byte.val c = 0x2D \/ json.is_digit c = true))
  /\ forall rest, delimited rest -> json.scan_number (lit ++ rest) = Some (lit, rest).

(** The numbers of a document are number literals. *)
Fixpoint numbers_ok (j : doc) : Prop :=
  match j with
  | DNum lit => number_literal lit
  | DArr js => fold_right (fun j P => numbers_ok j /\ P) True js
  | DObj ms => fold_right (fun m P => numbers_ok (snd m) /\ P) True ms
  | _ => True
  end.

(** The decimal digits of [n >= 0] before [acc]; [fuel] is more than the
    number of binary digits of [n]. *)
Fixpoint digits (fuel : nat) (n : Z) (acc : string) : string :=
  match fuel with
  | O => acc
  | S fuel' =>
    let acc' := String (byte.of_Z (0x30 + n mod 10)) acc in
    if n <? 10 then acc' else digits fuel' (n / 10) acc'
  end.

(** [strconv.Itoa]: the literal of an integer. *)
Definition itoa (n : Z) : string :=
  if n <? 0 then String "-" (digits (S (Z.to_nat (Z.log2 (- n)))) (- n) EmptyString)
  else digits (S (Z.to_nat (Z.log2 n))) n EmptyString.

Definition DInt (n : Z) : doc := DNum (itoa n).

(** Induction on documents. *)
Section doc_induction.
Variable P : doc -> Prop.
Hypothesis HNull : P DNull.
Hypothesis HBool : forall b, P (DBool b).
Hypothesis HNum : forall lit, P (DNum lit).
Hypothesis HStr : forall s, P (DStr s).
Hypothesis HArr : forall js, Forall P js -> P (DArr js).
Hypothesis HObj : forall ms, Forall (fun m => P (snd m)) ms -> P (DObj ms).

Fixpoint doc_ind (j : doc) : P j :=
  match j with
  | DNull => HNull
  | DBool b => HBool b
  | DNum lit => HNum lit
  | DStr s => HStr s
  | DArr js =>
    HArr js ((fix all (js : list doc) : Forall P js :=
                match js with
                | [] => @List.Forall_nil _ P
                | j :: js' => @List.Forall_cons _ P j js' (doc_ind j) (all js')
                end) js)
  | DObj ms =>
    HObj ms ((fix all (ms : list (string * doc)) : Forall (fun m => P (snd m)) ms :=
                match ms with
                | [] => @List.Forall_nil _ _
                | m :: ms' => @List.Forall_cons _ _ m ms' (doc_ind (snd m)) (all ms')
                end) ms)
  end.

End doc_induction.

(** The scanner reads the text of [j] as [tree j], wherever the text
    stands: at a depth that leaves room for its nesting, before a delimiter,
    and on any fuel from some fuel on. *)
Definition scanned (j : doc) : Prop :=
  forall (d : Z) (rest : string),
    0 <= d -> d + nesting j <= json.maxNestingDepth -> delimited rest ->
    exists f0, forall f, (f0 <= f)%nat ->
      json.scan_value f d (write j rest) = Some (tree j, rest).

(** The strings and the keys of a document are well-formed UTF-8. *)
Fixpoint strings_ok (j : doc) : Prop :=
  match j with
  | DStr s => utf8.ValidString s = true
  | DArr js => fold_right (fun j P => strings_ok j /\ P) True js
  | DObj ms =>
    fold_right (fun m P => utf8.ValidString (fst m) = true /\ strings_ok (snd m) /\ P) True ms
  | _ => True
  end.

(** *** The answers of the API as documents *)

(** An [AuthResult], as the token endpoint gives it. *)
Definition AuthResult_doc (a : AuthResult.t) : doc :=
  DObj [("scope", DStr (AuthResult.Scope a));
        ("access_token", DStr (AuthResult.AccessToken a));
        ("token_type", DStr (AuthResult.TokenType a));
        ("app_id", DStr (AuthResult.AppID a));
        ("expires_in", DInt (AuthResult.ExpiresIn a));
        ("nonce", DStr (AuthResult.Nonce a))].

Definition Link_doc (l : Link.t) : doc :=
  DObj [("href", DStr (Link.Href l)); ("rel", DStr (Link.Rel l));
        ("method", DStr (Link.Method l))].

(** A [GenerateOrderResponse], as the order endpoint gives it. *)
Definition GenerateOrderResponse_doc (r : GenerateOrderResponse.t) : doc :=
  DObj [("id", DStr (GenerateOrderResponse.ID r));
        ("status", DStr (GenerateOrderResponse.Status r));
        ("links", DArr (map Link_doc (GenerateOrderResponse.Links r)))].

(** A document that the scanner accepts: its numbers are number literals
    and its nesting is [n] at most. *)
Definition fits (n : Z) (j : doc) : Prop := numbers_ok j /\ nesting j <= n.

Definition Money_doc (m : Money.t) : doc :=
  DObj [("currency_code", DStr (Money.CurrencyCode m)); ("value", DStr (Money.Value m))].

Definition SellerProtection_doc (p : SellerProtection.t) : doc :=
  DObj [("status", DStr (SellerProtection.Status p));
        ("dispute_categories", DArr (map DStr (SellerProtection.DisputeCategories p)))].

Definition SellerReceivableBreakdown_doc (b : SellerReceivableBreakdown.t) : doc :=
  DObj [("gross_amount", Money_doc (SellerReceivableBreakdown.GrossAmount b));
        ("paypal_fee", Money_doc (SellerReceivableBreakdown.PaypalFee b));
        ("net_amount", Money_doc (SellerReceivableBreakdown.NetAmount b))].

Definition Address_doc (a : Address.t) : doc :=
  DObj [("address_line_1", DStr (Address.AddressLine1 a));
        ("admin_area_2", DStr (Address.AdminArea2 a));
        ("admin_area_1", DStr (Address.AdminArea1 a));
        ("postal_code", DStr (Address.PostalCode a));
        ("country_code", DStr (Address.CountryCode a))].

Definition Shipping_doc (s : Shipping.t) : doc :=
  DObj [("name", DObj [("full_name", DStr (Shipping.FullName (Shipping.Name s)))]);
        ("address", Address_doc (Shipping.Address s))].

Definition Payer_doc (p : Payer.t) : doc :=
  DObj [("name", DObj [("given_name", DStr (Payer.GivenName (Payer.Name p)));
                       ("surname", DStr (Payer.Surname (Payer.Name p)))]);
        ("email_address", DStr (Payer.EmailAddress p));
        ("payer_id", DStr (Payer.PayerID p));
        ("address", DObj [("country_code", DStr (Payer.CountryCode (Payer.Address p)))])].

Section CaptureAnswer.
Context `{Env}.

(** The text of a time, in RFC 3339. *)
Variable time_text : Time -> string.

Definition CaptureDetail_doc (c : CaptureDetail.t) : doc :=
  DObj [("id", DStr (CaptureDetail.ID c));
        ("status", DStr (CaptureDetail.Status c));
        ("amount", Money_doc (CaptureDetail.Amount c));
        ("final_capture", DBool (CaptureDetail.FinalCapture c));
        ("seller_protection", SellerProtection_doc (CaptureDetail.SellerProtection c));
        ("seller_receivable_breakdown",
         SellerReceivableBreakdown_doc (CaptureDetail.SellerReceivableBreakdown c));
        ("links", DArr (map Link_doc (CaptureDetail.Links c)));
        ("create_time", DStr (time_text (CaptureDetail.CreateTime c)));
        ("update_time", DStr (time_text (CaptureDetail.UpdateTime c)))].

Definition CapturedUnit_doc (u : CapturedUnit.t) : doc :=
  DObj [("reference_id", DStr (CapturedUnit.ReferenceID u));
        ("shipping", Shipping_doc (CapturedUnit.Shipping u));
        ("payments",
         DObj [("captures",
                DArr (map CaptureDetail_doc (CapturedUnit.Captures (CapturedUnit.Payments u))))])].

(** A [CaptureResponse], as the capture endpoint gives it. *)
Definition CaptureResponse_doc (r : CaptureResponse.t) : doc :=
  DObj [("id", DStr (CaptureResponse.ID r));
        ("status", DStr (CaptureResponse.Status r));
        ("purchase_units", DArr (map CapturedUnit_doc (CaptureResponse.PurchaseUnits r)));
        ("payer", Payer_doc (CaptureResponse.Payer r));
        ("links", DArr (map Link_doc (CaptureResponse.Links r)))].

(** [time.Time] parses the text of a time, as it stands between the
    quotes, back to the time. *)
Definition time_parses (t : Time) : Prop :=
  parseStrictRFC3339 (escaped (time_text t)) = (t, None).

Definition times_parse (r : CaptureResponse.t) : Prop :=
  Forall (fun u =>
            Forall (fun c => time_parses (CaptureDetail.CreateTime c)
                             /\ time_parses (CaptureDetail.UpdateTime c))
                   (CapturedUnit.Captures (CapturedUnit.Payments u)))
         (CaptureResponse.PurchaseUnits r).

End CaptureAnswer.

(** [k] names one of the fields [names], under the case folding of the
    decoder, and the members of an object whose keys do. *)
Definition known (names : list string) (k : string) : bool :=
  existsb (String.eqb (json.fold k)) (map json.fold names).

Definition known_members (names : list string) (ms : list (string * doc))
    : list (string * doc) :=
  List.filter (fun m => known names (fst m)) ms.

(** The names of the fields of the structs that are decoded. *)
Definition Config_names : list string := ["oauth-api"; "order-api"; "client-id"; "secret"].
Definition AuthResult_names : list string :=
  ["scope"; "access_token"; "token_type"; "app_id"; "expires_in"; "nonce"].
Definition GenerateOrderResponse_names : list string := ["id"; "status"; "links"].
Definition CaptureResponse_names : list string :=
  ["id"; "status"; "purchase_units"; "payer"; "links"].

(** A configuration file whose four keys are written as [k1] to [k4]. *)
Definition Config_doc_with_keys (k1 k2 k3 k4 : string) (c : Config.t) : doc :=
  DObj [(k1, DStr (Config.OAuthAPI c)); (k2, DStr (Config.OrderAPI c));
        (k3, DStr (Config.ClientID c)); (k4, DStr (Config.Secret c))].

(** The order request of [CreateOrder] as a document; the amount is the
    literal that [strconv] gives for the float. *)
Definition order_doc `{Env} (description customID invoiceID : string) (euroCents : Z) : doc :=
  DObj [("intent", DStr "CAPTURE");
        ("purchase_units",
         DArr [DObj [("amount",
                      DObj [("currency_code", DStr "EUR");
                            ("value", DNum (formatFloat (amount_value euroCents)))]);
                     ("description", DStr description);
                     ("custom_id", DStr customID);
                     ("invoice_id", DStr invoiceID)]]);
        ("application_context", DObj [("shipping_preference", DStr "NO_SHIPPING")])].

(** *** Further test doubles *)

Module mock_answers.

(** An order as the API creates it, with the links to look at it and to
    approve it. *)
Definition order : GenerateOrderResponse.t :=
  GenerateOrderResponse.mk "1AB23456CD789012E" "CREATED"
    [Link.mk "https://api.example.com/v2/orders/1AB23456CD789012E" "self" "GET";
     Link.mk "https://www.example.com/checkoutnow?token=1AB23456CD789012E" "approve" "GET"].

Definition money (value : string) : Money.t := Money.mk "EUR" value.

Section Capture.
Variable answer : http.Response + error.

(** A completed capture of 10.50 EUR.  The times of [mock.env] are their
    texts. *)
Definition detail : CaptureDetail.t (H := mock.env answer) :=
  CaptureDetail.mk (H := mock.env answer)
    "3C679366HH908993F" "COMPLETED" (money "10.50") true
    (SellerProtection.mk "ELIGIBLE" ["ITEM_NOT_RECEIVED"; "UNAUTHORIZED_TRANSACTION"])
    (SellerReceivableBreakdown.mk (money "10.50") (money "0.65") (money "9.85"))
    [Link.mk "https://api.example.com/v2/payments/captures/3C679366HH908993F" "self" "GET"]
    "2024-05-01T10:15:30Z" "2024-05-01T10:15:31Z".

Definition capture : CaptureResponse.t (H := mock.env answer) :=
  CaptureResponse.mk (H := mock.env answer)
    "1AB23456CD789012E" "COMPLETED"
    [CapturedUnit.mk (H := mock.env answer) "default"
       (Shipping.mk (Shipping.mkname "Jo Doe")
          (Address.mk "1 Main St" "Berlin" "BE" "10115" "DE"))
       (CapturedUnit.mkpayments (H := mock.env answer) [detail])]
    (Payer.mk (Payer.mkname "Jo" "Doe") "jo@example.com" "QYR5Z8XDVJNXQ"
       (Payer.mkaddress "DE"))
    [Link.mk "https://api.example.com/v2/orders/1AB23456CD789012E" "self" "GET"].

(** The text of the capture. *)
Definition capture_text : string :=
  text (CaptureResponse_doc (H := mock.env answer) (fun t => t) capture).

End Capture.

(** The capture endpoint: every request is answered with the capture. *)
Definition capture_endpoint : http.Response + error :=
  mock_http.answer "201 Created" 201 (capture_text (inr SyntaxError)).

(** A description that tries to close the string and the object it stands
    in. *)
Definition hostile : string :=
  "Tee" ++ String byte.quote ("}]," ++ tag "intent" ++ quoted "AUTHORIZE").

(** The members of a token answer among members that [AuthResult] does not
    have. *)
Definition token_and_more : list (string * doc) :=
  [("issued_at", DInt 1714558530);
   ("access_token", DStr "A21AAFEpH4PsADK7qSS7pSRsgz");
   ("token_type", DStr "Bearer");
   ("supported_authn_schemes", DArr [DStr "email_password"]);
   ("expires_in", DInt 32400)].

(** An API behind the client: it answers a request to the token endpoint
    with a token, a request to the order endpoint with the order, and any
    other request with the capture. *)
Definition token : AuthResult.t :=
  AuthResult.mk "https://uri.example.com/payments/.*" "A21AAFEpH4PsADK7qSS7pSRsgz"
                "Bearer" "APP-80W284485P519543T" 32400 "2024-05-01T10:15:30Z".

Definition api : Env := {|
  Time := string;
  Time_zero := EmptyString;
  parseStrictRFC3339 := fun s => (s, None);
  url_Parse := fun _ => None;
  formatFloat := fun _ => "10.5";
  client_Do := fun _ req =>
    if String.eqb (http.URL req) (Config.OAuthAPI mock.config)
    then mock_http.answer "200 OK" 200 (text (AuthResult_doc token))
    else if String.eqb (http.URL req) (Config.OrderAPI mock.config)
    then mock_http.answer "201 Created" 201 (text (GenerateOrderResponse_doc order))
    else capture_endpoint
|}.

End mock_answers.

(** * Properties *)

(** ** Strings *)

Lemma append_nil_r (s : string) : s ++ EmptyString = s.
Proof. induction s as [|c s IH]; simpl; [reflexivity | now rewrite IH]. Qed.

Lemma append_assoc (s t u : string) : (s ++ t) ++ u = s ++ (t ++ u).
Proof. induction s as [|c s IH]; simpl; [reflexivity | now rewrite IH]. Qed.

Lemma length_append (s t : string) :
  String.length (s ++ t) = (String.length s + String.length t)%nat.
Proof. induction s as [|c s IH]; simpl; [reflexivity | now rewrite IH]. Qed.

Lemma drop_append (p q : string) : strings.drop (String.length p) (p ++ q) = q.
Proof. induction p as [|c p IH]; simpl; [reflexivity | exact IH]. Qed.

Lemma substring_drop (n : nat) (s : string) :
  (n <= String.length s)%nat ->
  substring 0 n s ++ strings.drop n s = s.
Proof.
  revert s. induction n as [|n IH]; intros s Hn.
  - destruct s; reflexivity.
  - destruct s as [|c s]; simpl in *; [lia |].
    rewrite IH by lia. reflexivity.
Qed.

Lemma length_drop (n : nat) (s : string) :
  String.length (strings.drop n s) = (String.length s - n)%nat.
Proof.
  revert s. induction n as [|n IH]; intros [|c s]; simpl; auto with arith.
Qed.

(** [HasSuffix] decides "[s] is some prefix followed by [suffix]". *)
Lemma HasSuffix_iff (s suffix : string) :
  strings.HasSuffix s suffix = true <-> exists p, s = p ++ suffix.
Proof.
  unfold strings.HasSuffix. rewrite andb_true_iff, Nat.leb_le, String.eqb_eq.
  split.
  - intros [Hlen Hdrop].
    exists (substring 0 (String.length s - String.length suffix) s).
    pose proof (substring_drop (String.length s - String.length suffix) s) as E.
    rewrite Hdrop in E. symmetry. apply E. lia.
  - intros [p ->]. rewrite length_append. split; [lia |].
    replace (String.length p + String.length suffix - String.length suffix)%nat
      with (String.length p) by lia.
    apply drop_append.
Qed.

Lemma HasSuffix_false_iff (s suffix : string) :
  strings.HasSuffix s suffix = false <-> ~ exists p, s = p ++ suffix.
Proof.
  rewrite <- HasSuffix_iff. destruct (strings.HasSuffix s suffix); split; congruence.
Qed.

(** The two cases of [ensureTrailingSlash]. *)
Lemma ensureTrailingSlash_cases (s : string) :
  ((exists p, s = p ++ "/") -> ensureTrailingSlash s = s)
  /\ ((~ exists p, s = p ++ "/") -> ensureTrailingSlash s = s ++ "/").
Proof.
  unfold ensureTrailingSlash. split; intros Hs.
  - apply HasSuffix_iff in Hs. now rewrite Hs.
  - apply HasSuffix_false_iff in Hs. now rewrite Hs.
Qed.

(** C10. For every string [s], [ensureTrailingSlash s] ends in a slash;
    applying it twice is applying it once; it returns [s] itself when [s]
    already ends in a slash, and [s] with exactly one slash appended
    otherwise. *)
Theorem ensureTrailingSlash_spec (s : string) :
  (exists p, ensureTrailingSlash s = p ++ "/")
  /\ ensureTrailingSlash (ensureTrailingSlash s) = ensureTrailingSlash s
  /\ ((exists p, s = p ++ "/") -> ensureTrailingSlash s = s)
  /\ ((~ exists p, s = p ++ "/") -> ensureTrailingSlash s = s ++ "/").
Proof.
  destruct (ensureTrailingSlash_cases s) as [Hyes Hno].
  assert (Hends : exists p, ensureTrailingSlash s = p ++ "/").
  { destruct (strings.HasSuffix s "/") eqn:E.
    - apply HasSuffix_iff in E. now rewrite (Hyes E).
    - apply HasSuffix_false_iff in E. rewrite (Hno E). now exists s. }
  repeat split; try assumption.
  now apply ensureTrailingSlash_cases.
Qed.

(** ** The request target of [Capture] *)

(** One step through the body of a call: a case split on the next thing the
    call gets from its environment. *)
Ltac call_step :=
  match goal with
  | |- context [match url_Parse ?u with _ => _ end] =>
      destruct (url_Parse u) eqn:?
  | |- context [match OrderRequest.Marshal ?r with _ => _ end] =>
      destruct (OrderRequest.Marshal r) eqn:?
  | |- context [match client_Do ?c ?r with _ => _ end] =>
      destruct (client_Do c r) as [?resp|?e] eqn:?
  | |- context [match http.Body ?r with _ => _ end] =>
      destruct (http.Body r) as [?body [?e|]] eqn:?
  | |- context [negb (?a =? ?b)] =>
      destruct (Z.eqb_spec a b); cbn [negb]
  | |- context [json.Unmarshal ?d ?b ?z] =>
      destruct (json.Unmarshal d b z) as [?r ?err] eqn:?
  end.

Lemma Capture_trace `{Env} (config : Config.t) (auth : option AuthResult.t)
    (orderID : string) (req : http.Request) :
  In req (fst (Capture config auth orderID)) ->
  http.URL req = capture_url config orderID /\ http.Method req = "POST".
Proof.
  unfold Capture, NewRequest.
  destruct auth as [a|]; repeat call_step; simpl; try tauto.
  all: intros [<- | []]; split; reflexivity.
Qed.

(** C2. The URL that [Capture] requests is the order endpoint, one slash
    unless the endpoint already ends in one, the order id and ["/capture"]:
    an endpoint without a trailing slash gets exactly one appended, and one
    with a trailing slash gets none.  Every request that [Capture] hands to
    the client has this URL, and one is handed over whenever the URL parses
    and [auth] is not nil. *)
Theorem Capture_request_target `{Env} (config : Config.t)
    (auth : option AuthResult.t) (orderID : string) :
  let base := Config.OrderAPI config in
  ((~ exists p, base = p ++ "/") ->
     capture_url config orderID = base ++ "/" ++ orderID ++ "/capture")
  /\ ((exists p, base = p ++ "/") ->
     capture_url config orderID = base ++ orderID ++ "/capture")
  /\ (forall req, In req (fst (Capture config auth orderID)) ->
     http.URL req = capture_url config orderID)
  /\ (url_Parse (capture_url config orderID) = None -> auth <> None ->
     exists req, fst (Capture config auth orderID) = [req]
                 /\ http.URL req = capture_url config orderID).
Proof.
  intros base. unfold capture_url. fold base.
  destruct (ensureTrailingSlash_cases base) as [Hyes Hno].
  repeat split.
  - intros Hb. rewrite (Hno Hb). now rewrite append_assoc.
  - intros Hb. now rewrite (Hyes Hb).
  - intros req Hin. now apply Capture_trace in Hin.
  - intros Hparse Hauth.
    assert (Hone : exists req, fst (Capture config auth orderID) = [req]).
    { unfold Capture, NewRequest. unfold capture_url, base in *. rewrite Hparse.
      destruct auth as [a|]; [| congruence].
      repeat call_step; eexists; reflexivity. }
    destruct Hone as [req Hreq]. exists req. split; [exact Hreq |].
    eapply Capture_trace. rewrite Hreq. now left.
Qed.

(** The example of the specification: no trailing slash in the endpoint. *)
Example Capture_target_example :
  map http.URL
      (fst (Capture (H := mock.env (mock_http.answer "201 Created" 201 "{}"))
                    mock.config (Some (mock.auth "token")) mock.orderID))
  = ["https://api.example.com/v2/orders/1AB23456CD789012E/capture"].
Proof. reflexivity. Qed.

(** The same target when the endpoint already ends in a slash. *)
Example Capture_target_example_slash :
  map http.URL
      (fst (Capture (H := mock.env (mock_http.answer "201 Created" 201 "{}"))
                    (Config.mk "o" "https://api.example.com/v2/orders/" "c" "s")
                    (Some (mock.auth "token")) mock.orderID))
  = ["https://api.example.com/v2/orders/1AB23456CD789012E/capture"].
Proof. reflexivity. Qed.

(** ** The three calls: what is sent and what comes back *)

Section CallFacts.
Context `{Env}.

Lemma Auth_sends (config : Config.t) :
  url_Parse (Config.OAuthAPI config) = None ->
  fst (Auth config) = [Auth_request config].
Proof.
  intros Hurl. unfold Auth, NewRequest. rewrite Hurl.
  fold (Auth_request config). repeat call_step; reflexivity.
Qed.

Lemma Auth_sent (config : Config.t) (req : http.Request) :
  fst (Auth config) = [req] ->
  url_Parse (Config.OAuthAPI config) = None /\ req = Auth_request config.
Proof.
  intros Htrace. destruct (url_Parse (Config.OAuthAPI config)) eqn:Hurl.
  - unfold Auth, NewRequest in Htrace. rewrite Hurl in Htrace. discriminate.
  - rewrite (Auth_sends _ Hurl) in Htrace. split; congruence.
Qed.

Lemma Auth_returns (config : Config.t) (resp : http.Response) (body : string) :
  url_Parse (Config.OAuthAPI config) = None ->
  client_Do client (Auth_request config) = inl resp ->
  http.Body resp = (body, None) ->
  snd (Auth config) =
    if http.StatusCode resp =? http.StatusOK
    then (Some (fst (json.Unmarshal AuthResult.decode body AuthResult.zero)),
          snd (json.Unmarshal AuthResult.decode body AuthResult.zero))
    else (None, Some (errorString
           ("error getting auth: " ++ http.Status resp ++ ": " ++ body))).
Proof.
  intros Hurl Hdo Hbody. unfold Auth, NewRequest. rewrite Hurl.
  fold (Auth_request config). rewrite Hdo, Hbody.
  destruct (http.StatusCode resp =? http.StatusOK); cbn [negb]; [| reflexivity].
  now destruct (json.Unmarshal _ _ _).
Qed.

Lemma CreateOrder_sends (config : Config.t) (a : AuthResult.t)
    (description customID invoiceID : string) (euroCents : Z) (orJson : string) :
  OrderRequest.Marshal (orderRequest description customID invoiceID euroCents) = inl orJson ->
  url_Parse (Config.OrderAPI config) = None ->
  fst (CreateOrder config (Some a) description customID invoiceID euroCents)
  = [CreateOrder_request config a orJson].
Proof.
  intros Hjson Hurl. unfold CreateOrder, NewRequest. rewrite Hjson, Hurl.
  fold (bearer (Config.OrderAPI config) (Some orJson) a).
  fold (CreateOrder_request config a orJson).
  repeat call_step; reflexivity.
Qed.

Lemma CreateOrder_sent (config : Config.t) (auth : option AuthResult.t)
    (description customID invoiceID : string) (euroCents : Z) (req : http.Request) :
  fst (CreateOrder config auth description customID invoiceID euroCents) = [req] ->
  exists a orJson,
    auth = Some a
    /\ OrderRequest.Marshal (orderRequest description customID invoiceID euroCents) = inl orJson
    /\ url_Parse (Config.OrderAPI config) = None
    /\ req = CreateOrder_request config a orJson.
Proof.
  intros Htrace.
  destruct (OrderRequest.Marshal (orderRequest description customID invoiceID euroCents))
    as [orJson|e] eqn:Hjson;
    [| unfold CreateOrder in Htrace; rewrite Hjson in Htrace; discriminate].
  destruct (url_Parse (Config.OrderAPI config)) eqn:Hurl;
    [unfold CreateOrder, NewRequest in Htrace; rewrite Hjson, Hurl in Htrace; discriminate |].
  destruct auth as [a|];
    [| unfold CreateOrder, NewRequest in Htrace; rewrite Hjson, Hurl in Htrace; discriminate].
  rewrite (CreateOrder_sends _ _ _ _ _ _ _ Hjson Hurl) in Htrace.
  exists a, orJson. repeat split; congruence.
Qed.

Lemma CreateOrder_returns (config : Config.t) (a : AuthResult.t)
    (description customID invoiceID : string) (euroCents : Z) (orJson : string)
    (resp : http.Response) (body : string) :
  OrderRequest.Marshal (orderRequest description customID invoiceID euroCents) = inl orJson ->
  url_Parse (Config.OrderAPI config) = None ->
  client_Do client (CreateOrder_request config a orJson) = inl resp ->
  http.Body resp = (body, None) ->
  snd (CreateOrder config (Some a) description customID invoiceID euroCents) =
    if http.StatusCode resp =? http.StatusCreated
    then Returned
           (Some (fst (json.Unmarshal GenerateOrderResponse.decode body GenerateOrderResponse.zero)),
            snd (json.Unmarshal GenerateOrderResponse.decode body GenerateOrderResponse.zero))
    else Returned (None, Some (errorString
           ("error doing order: " ++ http.Status resp ++ ": " ++ body))).
Proof.
  intros Hjson Hurl Hdo Hbody. unfold CreateOrder, NewRequest. rewrite Hjson, Hurl.
  fold (bearer (Config.OrderAPI config) (Some orJson) a).
  fold (CreateOrder_request config a orJson). rewrite Hdo, Hbody.
  destruct (http.StatusCode resp =? http.StatusCreated); cbn [negb]; [| reflexivity].
  now destruct (json.Unmarshal _ _ _).
Qed.

Lemma Capture_sends (config : Config.t) (a : AuthResult.t) (orderID : string) :
  url_Parse (capture_url config orderID) = None ->
  fst (Capture config (Some a) orderID) = [Capture_request config a orderID].
Proof.
  intros Hurl. unfold Capture, NewRequest. rewrite Hurl.
  fold (bearer (capture_url config orderID) None a).
  fold (Capture_request config a orderID).
  repeat call_step; reflexivity.
Qed.

Lemma Capture_sent (config : Config.t) (auth : option AuthResult.t) (orderID : string)
    (req : http.Request) :
  fst (Capture config auth orderID) = [req] ->
  exists a,
    auth = Some a
    /\ url_Parse (capture_url config orderID) = None
    /\ req = Capture_request config a orderID.
Proof.
  intros Htrace.
  destruct (url_Parse (capture_url config orderID)) eqn:Hurl;
    [unfold Capture, NewRequest in Htrace; rewrite Hurl in Htrace; discriminate |].
  destruct auth as [a|];
    [| unfold Capture, NewRequest in Htrace; rewrite Hurl in Htrace; discriminate].
  rewrite (Capture_sends _ _ _ Hurl) in Htrace.
  exists a. repeat split; congruence.
Qed.

Lemma Capture_returns (config : Config.t) (a : AuthResult.t) (orderID : string)
    (resp : http.Response) (body : string) :
  url_Parse (capture_url config orderID) = None ->
  client_Do client (Capture_request config a orderID) = inl resp ->
  http.Body resp = (body, None) ->
  snd (Capture config (Some a) orderID) =
    if http.StatusCode resp =? http.StatusCreated
    then Returned
           (Some (fst (json.Unmarshal CaptureResponse.decode body CaptureResponse.zero)),
            snd (json.Unmarshal CaptureResponse.decode body CaptureResponse.zero))
    else Returned (None, Some (errorString
           ("error capturing: " ++ http.Status resp ++ ": " ++ body))).
Proof.
  intros Hurl Hdo Hbody. unfold Capture, NewRequest. rewrite Hurl.
  fold (bearer (capture_url config orderID) None a).
  fold (Capture_request config a orderID). rewrite Hdo, Hbody.
  destruct (http.StatusCode resp =? http.StatusCreated); cbn [negb]; [| reflexivity].
  now destruct (json.Unmarshal _ _ _).
Qed.

(** Input that is not valid JSON leaves the value as it was. *)
Lemma Unmarshal_invalid {T} (dec : json.decoder T) (data : string) (v : T) :
  json.checkValid data = None ->
  json.Unmarshal dec data v = (v, Some SyntaxError).
Proof. intros Hbad. unfold json.Unmarshal. now rewrite Hbad. Qed.

End CallFacts.

Lemma occurs_in_middle (pre sub post : string) : occurs_in sub (pre ++ sub ++ post).
Proof. now exists pre, post. Qed.

Lemma occurs_in_end (pre sub : string) : occurs_in sub (pre ++ sub).
Proof. exists pre, EmptyString. now rewrite append_nil_r. Qed.

(** C5. When the response to [Auth]'s request has a status other than 200,
    [Auth] returns a nil result and an error whose message holds the status
    text and the raw body.  On a 200 response whose body is not valid JSON,
    the error is the decoder's syntax error, and every error of the decoder
    is returned as it is. *)
Theorem Auth_error_responses `{Env} (config : Config.t) (req : http.Request)
    (resp : http.Response) (body : string) :
  fst (Auth config) = [req] ->
  client_Do client req = inl resp ->
  http.Body resp = (body, None) ->
  (http.StatusCode resp <> http.StatusOK ->
     exists msg, snd (Auth config) = (None, Some (errorString msg))
                 /\ occurs_in (http.Status resp) msg
                 /\ occurs_in body msg)
  /\ (http.StatusCode resp = http.StatusOK ->
      (json.checkValid body = None -> snd (snd (Auth config)) = Some SyntaxError)
      /\ snd (snd (Auth config))
         = snd (json.Unmarshal AuthResult.decode body AuthResult.zero)).
Proof.
  intros Htrace Hdo Hbody.
  apply Auth_sent in Htrace as [Hurl ->].
  rewrite (Auth_returns _ _ _ Hurl Hdo Hbody).
  split; intros Hcode.
  - apply Z.eqb_neq in Hcode. rewrite Hcode.
    eexists. split; [reflexivity |]. split.
    + apply occurs_in_middle.
    + exists ("error getting auth: " ++ http.Status resp ++ ": "), EmptyString.
      now rewrite append_nil_r, !append_assoc.
  - apply Z.eqb_eq in Hcode. rewrite Hcode. split; [| reflexivity].
    intros Hbad. cbn [snd]. now rewrite Unmarshal_invalid.
Qed.

(** A 403 response: the error names the status and carries the body, and
    there is no result. *)
Lemma Auth_error_responses_witness :
  snd (Auth (H := mock.env (mock_http.answer "403 Forbidden" 403 "denied")) mock.config)
  = (None, Some (errorString "error getting auth: 403 Forbidden: denied")).
Proof.
  pose (E := mock.env (mock_http.answer "403 Forbidden" 403 "denied")).
  destruct (Auth_error_responses (H := E) mock.config (Auth_request mock.config)
              (http.mkResponse "403 Forbidden" 403 ("denied", None)) "denied"
              eq_refl eq_refl eq_refl) as [Hbad _].
  destruct Hbad as (msg & Hret & _); [discriminate |].
  reflexivity.
Defined.

(** C9. When the status is the expected one (200 for [Auth], 201 for
    [CreateOrder] and [Capture]) and decoding the body fails, each call
    returns a pointer that is not nil, to the value as the decoder left it
    (the zero value when the body is not valid JSON), together with the
    decoder's error; on any other status the pointer is nil and the error is
    not. *)
Theorem decode_error_keeps_result `{Env} (config : Config.t) :
  (forall req resp body,
     fst (Auth config) = [req] ->
     client_Do client req = inl resp ->
     http.Body resp = (body, None) ->
     (http.StatusCode resp = http.StatusOK ->
        (forall r e, json.Unmarshal AuthResult.decode body AuthResult.zero = (r, Some e) ->
                     snd (Auth config) = (Some r, Some e))
        /\ (json.checkValid body = None ->
            snd (Auth config) = (Some AuthResult.zero, Some SyntaxError)))
     /\ (http.StatusCode resp <> http.StatusOK ->
         exists e, snd (Auth config) = (None, Some e)))
  /\ (forall auth description customID invoiceID euroCents req resp body,
     fst (CreateOrder config auth description customID invoiceID euroCents) = [req] ->
     client_Do client req = inl resp ->
     http.Body resp = (body, None) ->
     (http.StatusCode resp = http.StatusCreated ->
        (forall r e,
           json.Unmarshal GenerateOrderResponse.decode body GenerateOrderResponse.zero
           = (r, Some e) ->
           snd (CreateOrder config auth description customID invoiceID euroCents)
           = Returned (Some r, Some e))
        /\ (json.checkValid body = None ->
            snd (CreateOrder config auth description customID invoiceID euroCents)
            = Returned (Some GenerateOrderResponse.zero, Some SyntaxError)))
     /\ (http.StatusCode resp <> http.StatusCreated ->
         exists e,
           snd (CreateOrder config auth description customID invoiceID euroCents)
           = Returned (None, Some e)))
  /\ (forall auth orderID req resp body,
     fst (Capture config auth orderID) = [req] ->
     client_Do client req = inl resp ->
     http.Body resp = (body, None) ->
     (http.StatusCode resp = http.StatusCreated ->
        (forall r e,
           json.Unmarshal CaptureResponse.decode body CaptureResponse.zero = (r, Some e) ->
           snd (Capture config auth orderID) = Returned (Some r, Some e))
        /\ (json.checkValid body = None ->
            snd (Capture config auth orderID)
            = Returned (Some CaptureResponse.zero, Some SyntaxError)))
     /\ (http.StatusCode resp <> http.StatusCreated ->
         exists e, snd (Capture config auth orderID) = Returned (None, Some e))).
Proof.
  split; [| split].
  - intros req resp body Htrace Hdo Hbody.
    apply Auth_sent in Htrace as [Hurl ->].
    rewrite (Auth_returns _ _ _ Hurl Hdo Hbody).
    split; intros Hcode.
    + apply Z.eqb_eq in Hcode. rewrite Hcode. split.
      * intros r e Hdec. now rewrite Hdec.
      * intros Hbad. now rewrite Unmarshal_invalid.
    + apply Z.eqb_neq in Hcode. rewrite Hcode. eexists. reflexivity.
  - intros auth description customID invoiceID euroCents req resp body Htrace Hdo Hbody.
    apply CreateOrder_sent in Htrace as (a & orJson & -> & Hjson & Hurl & ->).
    rewrite (CreateOrder_returns _ _ _ _ _ _ _ _ _ Hjson Hurl Hdo Hbody).
    split; intros Hcode.
    + apply Z.eqb_eq in Hcode. rewrite Hcode. split.
      * intros r e Hdec. now rewrite Hdec.
      * intros Hbad. now rewrite Unmarshal_invalid.
    + apply Z.eqb_neq in Hcode. rewrite Hcode. eexists. reflexivity.
  - intros auth orderID req resp body Htrace Hdo Hbody.
    apply Capture_sent in Htrace as (a & -> & Hurl & ->).
    rewrite (Capture_returns _ _ _ _ _ Hurl Hdo Hbody).
    split; intros Hcode.
    + apply Z.eqb_eq in Hcode. rewrite Hcode. split.
      * intros r e Hdec. now rewrite Hdec.
      * intros Hbad. now rewrite Unmarshal_invalid.
    + apply Z.eqb_neq in Hcode. rewrite Hcode. eexists. reflexivity.
Qed.

(** A 201 response to [Capture] whose body is not JSON: a result that is
    not nil, and an error. *)
Lemma decode_error_keeps_result_witness :
  snd (Capture (H := mock.env (mock_http.answer "201 Created" 201 "<html>"))
               mock.config (Some (mock.auth "token")) mock.orderID)
  = Returned (Some CaptureResponse.zero, Some SyntaxError).
Proof.
  pose (E := mock.env (mock_http.answer "201 Created" 201 "<html>")).
  destruct (decode_error_keeps_result (H := E) mock.config) as (_ & _ & Hcapture).
  destruct (Hcapture (Some (mock.auth "token")) mock.orderID
              (Capture_request mock.config (mock.auth "token") mock.orderID)
              (http.mkResponse "201 Created" 201 ("<html>", None)) "<html>"
              eq_refl eq_refl eq_refl) as [Hok _].
  destruct (Hok eq_refl) as [_ Hbad].
  apply Hbad. reflexivity.
Defined.

(** A body of the wrong shape is decoded in part: the result holds the
    fields that were stored before and after the offending one. *)
Example partly_decoded_result :
  snd (CreateOrder
         (H := mock.env (mock_http.answer "201 Created" 201
                 ("{" ++ tag "id" ++ "17," ++ tag "status" ++ quoted "CREATED" ++ "}")))
         mock.config (Some (mock.auth "token")) "d" "c" "i" 1050)
  = Returned (Some (GenerateOrderResponse.mk EmptyString "CREATED" []),
              Some (UnmarshalTypeError "number" "string")).
Proof. reflexivity. Qed.

(** ** What the calls check before they send *)

Lemma bearer_Authorization `{Env} (url : string) (body : option string) (a : AuthResult.t) :
  http.Header (bearer url body a) !! "Authorization"
  = Some ["Bearer " ++ AuthResult.AccessToken a].
Proof.
  unfold bearer, http.AddHeader, http.Header_Add. cbn [http.Header].
  rewrite lookup_insert_ne by discriminate.
  rewrite lookup_insert_eq.
  rewrite lookup_insert_ne by discriminate.
  now rewrite lookup_empty.
Qed.

(** The claim C3 as it stands fails: a call with an empty access token
    hands the client a request whose bearer token is empty, and a call with
    an empty order id hands it a request for [<order-api>//capture]. *)
Lemma empty_token_and_order_id_are_sent :
  (exists req,
     fst (CreateOrder (H := mock.env (mock_http.answer "201 Created" 201 mock_http.created))
            mock.config (Some (mock.auth EmptyString)) "d" "c" "i" 1050) = [req]
     /\ http.Header req !! "Authorization" = Some ["Bearer "])
  /\ (exists req,
     fst (Capture (H := mock.env (mock_http.answer "201 Created" 201 "{}"))
            mock.config (Some (mock.auth EmptyString)) EmptyString) = [req]
     /\ http.Header req !! "Authorization" = Some ["Bearer "]
     /\ http.URL req = "https://api.example.com/v2/orders//capture").
Proof.
  split; eexists; (split; [reflexivity |]).
  - apply (bearer_Authorization (H := mock.env (mock_http.answer "201 Created" 201 mock_http.created))).
  - split; [| reflexivity].
    apply (bearer_Authorization (H := mock.env (mock_http.answer "201 Created" 201 "{}"))).
Qed.

(** C3, amended. [CreateOrder] and [Capture] check none of their inputs.
    With an [auth] that is not nil, and once the order request is marshalled
    and [http.NewRequest] has accepted the URL, the call hands the client
    exactly one request, whose bearer token is the access token as it is and
    whose URL is built from the configuration and the order id as they are,
    empty or not.  With a nil [auth] the call panics, and when
    [http.NewRequest] rejects the URL it returns that error; in both cases
    nothing is handed to the client. *)
Theorem calls_send_unchecked_inputs `{Env} (config : Config.t) :
  (forall a description customID invoiceID euroCents orJson,
     OrderRequest.Marshal (orderRequest description customID invoiceID euroCents) = inl orJson ->
     url_Parse (Config.OrderAPI config) = None ->
     exists req,
       fst (CreateOrder config (Some a) description customID invoiceID euroCents) = [req]
       /\ http.URL req = Config.OrderAPI config
       /\ http.Header req !! "Authorization" = Some ["Bearer " ++ AuthResult.AccessToken a])
  /\ (forall a orderID,
     url_Parse (capture_url config orderID) = None ->
     exists req,
       fst (Capture config (Some a) orderID) = [req]
       /\ http.URL req = ensureTrailingSlash (Config.OrderAPI config) ++ orderID ++ "/capture"
       /\ http.Header req !! "Authorization" = Some ["Bearer " ++ AuthResult.AccessToken a])
  /\ (forall description customID invoiceID euroCents orJson,
     OrderRequest.Marshal (orderRequest description customID invoiceID euroCents) = inl orJson ->
     url_Parse (Config.OrderAPI config) = None ->
     CreateOrder config None description customID invoiceID euroCents = ([], Panicked))
  /\ (forall orderID,
     url_Parse (capture_url config orderID) = None ->
     Capture config None orderID = ([], Panicked))
  /\ (forall auth description customID invoiceID euroCents orJson e,
     OrderRequest.Marshal (orderRequest description customID invoiceID euroCents) = inl orJson ->
     url_Parse (Config.OrderAPI config) = Some e ->
     CreateOrder config auth description customID invoiceID euroCents
     = ([], Returned (None, Some e)))
  /\ (forall auth orderID e,
     url_Parse (capture_url config orderID) = Some e ->
     Capture config auth orderID = ([], Returned (None, Some e))).
Proof.
  repeat split.
  - intros a description customID invoiceID euroCents orJson Hjson Hurl.
    exists (CreateOrder_request config a orJson).
    split; [now apply CreateOrder_sends |].
    split; [reflexivity | apply bearer_Authorization].
  - intros a orderID Hurl.
    exists (Capture_request config a orderID).
    split; [now apply Capture_sends |].
    split; [reflexivity | apply bearer_Authorization].
  - intros description customID invoiceID euroCents orJson Hjson Hurl.
    unfold CreateOrder, NewRequest. now rewrite Hjson, Hurl.
  - intros orderID Hurl. unfold Capture, NewRequest. now rewrite Hurl.
  - intros auth description customID invoiceID euroCents orJson e Hjson Hurl.
    unfold CreateOrder, NewRequest. now rewrite Hjson, Hurl.
  - intros auth orderID e Hurl. unfold Capture, NewRequest. now rewrite Hurl.
Qed.

(** The amended claim at an empty access token and an empty order id. *)
Lemma calls_send_unchecked_inputs_witness :
  exists req,
    fst (Capture (H := mock.env (mock_http.answer "201 Created" 201 "{}"))
           mock.config (Some (mock.auth EmptyString)) EmptyString) = [req]
    /\ http.URL req = "https://api.example.com/v2/orders//capture"
    /\ http.Header req !! "Authorization" = Some ["Bearer "].
Proof.
  pose (E := mock.env (mock_http.answer "201 Created" 201 "{}")).
  destruct (calls_send_unchecked_inputs (H := E) mock.config) as (_ & Hcapture & _).
  exact (Hcapture (mock.auth EmptyString) EmptyString eq_refl).
Defined.

(** ** The order request *)

(** Marshalling the order request gives the JSON text [order_json], or
    fails when the amount is not a finite number. *)
Lemma Marshal_orderRequest `{Env} (description customID invoiceID : string)
    (euroCents : Z) (orJson : string) :
  OrderRequest.Marshal (orderRequest description customID invoiceID euroCents) = inl orJson ->
  orJson = order_json description customID invoiceID euroCents.
Proof.
  unfold OrderRequest.Marshal, orderRequest, order_json.
  cbn [OrderRequest.PurchaseUnits OrderRequest.marshal_units OrderRequest.marshal_unit
       PurchaseUnit.Amount Amount.Value Amount.CurrencyCode PurchaseUnit.Description
       PurchaseUnit.CustomID PurchaseUnit.InvoiceID OrderRequest.Intent
       OrderRequest.ApplicationContext ApplicationContext.ShippingPreference].
  unfold OrderRequest.marshal_unit, OrderRequest.marshal_float.
  cbn [PurchaseUnit.Amount Amount.Value Amount.CurrencyCode PurchaseUnit.Description
       PurchaseUnit.CustomID PurchaseUnit.InvoiceID].
  destruct (float64.is_finite _); [| discriminate].
  intros Heq. injection Heq as <-.
  change (json.appendString "CAPTURE") with (quoted "CAPTURE").
  change (json.appendString "EUR") with (quoted "EUR").
  change (json.appendString "NO_SHIPPING") with (quoted "NO_SHIPPING").
  unfold tag, quoted, json.appendString.
  repeat first [rewrite append_assoc | progress cbn [String.append]].
  reflexivity.
Qed.

(** C6. [CreateOrder] builds an order request with intent ["CAPTURE"], one
    purchase unit whose amount is in ["EUR"] and is the cents divided by
    100, and the shipping preference ["NO_SHIPPING"]; every request it hands
    to the client is a POST to the order endpoint whose body is the JSON
    text of that order request.  When the response has status 201 and the
    body [{"id":"1AB23456CD789012E","status":"CREATED"}], the call returns
    a result whose id is that string, and no error. *)
Theorem CreateOrder_request_and_result `{Env} (config : Config.t)
    (auth : option AuthResult.t) (description customID invoiceID : string)
    (euroCents : Z) :
  (OrderRequest.Intent (orderRequest description customID invoiceID euroCents) = "CAPTURE"
   /\ (exists u,
         OrderRequest.PurchaseUnits (orderRequest description customID invoiceID euroCents) = [u]
         /\ Amount.CurrencyCode (PurchaseUnit.Amount u) = "EUR"
         /\ Amount.Value (PurchaseUnit.Amount u)
            = float64.div (float64.of_int euroCents) (float64.of_int 100))
   /\ ApplicationContext.ShippingPreference
        (OrderRequest.ApplicationContext
           (orderRequest description customID invoiceID euroCents)) = "NO_SHIPPING")
  /\ (forall req,
        In req (fst (CreateOrder config auth description customID invoiceID euroCents)) ->
        http.Method req = "POST"
        /\ http.URL req = Config.OrderAPI config
        /\ http.RequestBody req
           = Some (order_json description customID invoiceID euroCents))
  /\ (forall req resp,
        fst (CreateOrder config auth description customID invoiceID euroCents) = [req] ->
        client_Do client req = inl resp ->
        http.StatusCode resp = http.StatusCreated ->
        http.Body resp = (mock_http.created, None) ->
        exists r,
          snd (CreateOrder config auth description customID invoiceID euroCents)
          = Returned (Some r, None)
          /\ GenerateOrderResponse.ID r = "1AB23456CD789012E").
Proof.
  split; [| split].
  - split; [reflexivity |]. split; [| reflexivity].
    eexists. split; [reflexivity |]. split; reflexivity.
  - intros req Hin.
    assert (Hone : exists r, fst (CreateOrder config auth description customID invoiceID euroCents) = [r]).
    { revert Hin. unfold CreateOrder, NewRequest.
      destruct auth as [a|]; repeat call_step; simpl; try tauto; eauto. }
    destruct Hone as [r Hr]. rewrite Hr in Hin. destruct Hin as [<- | []].
    apply CreateOrder_sent in Hr as (a & orJson & -> & Hjson & Hurl & ->).
    apply Marshal_orderRequest in Hjson as ->.
    repeat split.
  - intros req resp Htrace Hdo Hcode Hbody.
    apply CreateOrder_sent in Htrace as (a & orJson & -> & Hjson & Hurl & ->).
    rewrite (CreateOrder_returns _ _ _ _ _ _ _ _ _ Hjson Hurl Hdo Hbody).
    apply Z.eqb_eq in Hcode. rewrite Hcode.
    eexists. split; reflexivity.
Qed.

(** The example of the specification, on an amount of 10.50 EUR. *)
Lemma CreateOrder_request_and_result_witness :
  exists r,
    snd (CreateOrder (H := mock.env (mock_http.answer "201 Created" 201 mock_http.created))
           mock.config (Some (mock.auth "token")) "d" "c" "i" 1050)
    = Returned (Some r, None)
    /\ GenerateOrderResponse.ID r = "1AB23456CD789012E".
Proof.
  pose (E := mock.env (mock_http.answer "201 Created" 201 mock_http.created)).
  destruct (CreateOrder_request_and_result (H := E) mock.config
              (Some (mock.auth "token")) "d" "c" "i" 1050) as (_ & _ & Hresult).
  assert (Hjson : OrderRequest.Marshal (H := E) (orderRequest "d" "c" "i" 1050)
                  = inl (order_json (H := E) "d" "c" "i" 1050)) by reflexivity.
  pose proof (CreateOrder_sends (H := E) mock.config (mock.auth "token")
                "d" "c" "i" 1050 _ Hjson eq_refl) as Hsent.
  specialize (Hresult _ (http.mkResponse "201 Created" 201 (mock_http.created, None)) Hsent).
  exact (Hresult eq_refl eq_refl eq_refl).
Defined.

(** ** Bytes and bit fields *)

Lemma byte_val_range (c : ascii) : 0 <= byte.val c < 256.
Proof.
  unfold byte.val. pose proof (N_ascii_bounded c) as Hc. lia.
Qed.

Lemma byte_of_val (c : ascii) : byte.of_Z (byte.val c) = c.
Proof.
  unfold byte.of_Z. rewrite Z.mod_small by apply byte_val_range.
  unfold byte.val. rewrite N2Z.id. apply ascii_N_embedding.
Qed.

Lemma byte_val_of (z : Z) : 0 <= z < 256 -> byte.val (byte.of_Z z) = z.
Proof.
  intros Hz. unfold byte.of_Z, byte.val. rewrite Z.mod_small by exact Hz.
  rewrite N_ascii_embedding by lia. lia.
Qed.

(** A field shifted above a smaller one: the bits do not overlap, so the
    bitwise or is the sum. *)
Lemma lor_shiftl_small (hi lo n : Z) :
  0 <= n -> 0 <= lo < 2 ^ n ->
  Z.lor (Z.shiftl hi n) lo = hi * 2 ^ n + lo.
Proof.
  intros Hn Hlo.
  assert (Hland : Z.land (Z.shiftl hi n) lo = 0).
  { apply Z.bits_inj'. intros m Hm. rewrite Z.land_spec, Z.bits_0.
    destruct (Z.ltb_spec m n) as [Hlt | Hge].
    - now rewrite Z.shiftl_spec_low.
    - rewrite andb_false_iff. right.
      destruct (Z.eq_dec lo 0) as [-> | Hnz]; [apply Z.bits_0 |].
      apply Z.bits_above_log2; [lia |].
      apply Z.lt_le_trans with n; [| exact Hge].
      apply Z.log2_lt_pow2; lia. }
  pose proof (Z.add_lor_land (Z.shiftl hi n) lo) as Hadd.
  rewrite Hland in Hadd. rewrite Z.shiftl_mul_pow2 in * by exact Hn. lia.
Qed.

Lemma land_mask (x n : Z) : 0 <= n -> Z.land x (2 ^ n - 1) = x mod 2 ^ n.
Proof.
  intros Hn. rewrite <- Z.land_ones by exact Hn.
  now rewrite Z.ones_equiv, Z.sub_1_r.
Qed.

(** The markers of UTF-8 bytes and the masks that take them off. *)
Lemma lor_x80 (x : Z) : 0 <= x < 64 -> Z.lor 0x80 x = 0x80 + x.
Proof. intros Hx. apply (lor_shiftl_small 2 x 6); lia. Qed.

Lemma lor_xC0 (x : Z) : 0 <= x < 32 -> Z.lor 0xC0 x = 0xC0 + x.
Proof. intros Hx. apply (lor_shiftl_small 6 x 5); lia. Qed.

Lemma lor_xE0 (x : Z) : 0 <= x < 16 -> Z.lor 0xE0 x = 0xE0 + x.
Proof. intros Hx. apply (lor_shiftl_small 14 x 4); lia. Qed.

Lemma lor_xF0 (x : Z) : 0 <= x < 8 -> Z.lor 0xF0 x = 0xF0 + x.
Proof. intros Hx. apply (lor_shiftl_small 30 x 3); lia. Qed.

Lemma land_x3F (x : Z) : Z.land x 0x3F = x mod 64.
Proof. apply (land_mask x 6). lia. Qed.

Lemma land_x1F (x : Z) : Z.land x 0x1F = x mod 32.
Proof. apply (land_mask x 5). lia. Qed.

Lemma land_x0F (x : Z) : Z.land x 0x0F = x mod 16.
Proof. apply (land_mask x 4). lia. Qed.

Lemma land_x07 (x : Z) : Z.land x 0x07 = x mod 8.
Proof. apply (land_mask x 3). lia. Qed.

Lemma shiftr_6 (x : Z) : Z.shiftr x 6 = x / 64.
Proof. now rewrite Z.shiftr_div_pow2 by lia. Qed.

Lemma shiftr_12 (x : Z) : Z.shiftr x 12 = x / 4096.
Proof. now rewrite Z.shiftr_div_pow2 by lia. Qed.

Lemma shiftr_18 (x : Z) : Z.shiftr x 18 = x / 262144.
Proof. now rewrite Z.shiftr_div_pow2 by lia. Qed.

(** The runes that [DecodeRuneInString] puts together. *)
Lemma rune2 (a b : Z) :
  0 <= b < 64 -> Z.lor (Z.shiftl a 6) b = a * 64 + b.
Proof. intros Hb. apply (lor_shiftl_small a b 6); lia. Qed.

Lemma rune3 (a b c : Z) :
  0 <= a -> 0 <= b < 64 -> 0 <= c < 64 ->
  Z.lor (Z.lor (Z.shiftl a 12) (Z.shiftl b 6)) c = a * 4096 + b * 64 + c.
Proof.
  intros Ha Hb Hc.
  replace (Z.lor (Z.shiftl a 12) (Z.shiftl b 6)) with (Z.shiftl (a * 64 + b) 6).
  - rewrite lor_shiftl_small by lia. lia.
  - rewrite <- (rune2 a b Hb), Z.shiftl_lor, Z.shiftl_shiftl by lia. reflexivity.
Qed.

Lemma rune4 (a b c d : Z) :
  0 <= a -> 0 <= b < 64 -> 0 <= c < 64 -> 0 <= d < 64 ->
  Z.lor (Z.lor (Z.lor (Z.shiftl a 18) (Z.shiftl b 12)) (Z.shiftl c 6)) d
  = a * 262144 + b * 4096 + c * 64 + d.
Proof.
  intros Ha Hb Hc Hd.
  replace (Z.lor (Z.lor (Z.shiftl a 18) (Z.shiftl b 12)) (Z.shiftl c 6))
    with (Z.shiftl (a * 4096 + b * 64 + c) 6).
  - rewrite lor_shiftl_small by lia. lia.
  - rewrite <- (rune3 a b c Ha Hb Hc), !Z.shiftl_lor, !Z.shiftl_shiftl by lia.
    reflexivity.
Qed.

Ltac fields :=
  unfold utf8.maskx;
  rewrite ?land_x3F, ?land_x1F, ?land_x0F, ?land_x07, ?shiftr_6, ?shiftr_12, ?shiftr_18.

(** The bytes of a well-formed sequence are recovered from its rune. *)
Lemma encode2_fields (b0 b1 : Z) :
  0xC2 <= b0 <= 0xDF -> 0x80 <= b1 <= 0xBF ->
  let r := Z.lor (Z.shiftl (Z.land b0 0x1F) 6) (Z.land b1 utf8.maskx) in
  0x80 <= r <= 0x7FF
  /\ Z.lor 0xC0 (Z.shiftr r 6) = b0
  /\ Z.lor 0x80 (Z.land r utf8.maskx) = b1.
Proof.
  intros H0 H1 r. subst r. fields.
  rewrite rune2 by (apply Z.mod_pos_bound; lia).
  assert (E0 : b0 mod 32 = b0 - 0xC0) by (Z.div_mod_to_equations; lia).
  assert (E1 : b1 mod 64 = b1 - 0x80) by (Z.div_mod_to_equations; lia).
  rewrite E0, E1.
  assert (Ehi : ((b0 - 0xC0) * 64 + (b1 - 0x80)) / 64 = b0 - 0xC0)
    by (Z.div_mod_to_equations; lia).
  assert (Elo : ((b0 - 0xC0) * 64 + (b1 - 0x80)) mod 64 = b1 - 0x80)
    by (Z.div_mod_to_equations; lia).
  rewrite Ehi, Elo, lor_xC0, lor_x80 by lia. lia.
Qed.

Lemma encode3_fields (b0 b1 b2 : Z) :
  0xE0 <= b0 <= 0xEF -> 0x80 <= b1 <= 0xBF -> 0x80 <= b2 <= 0xBF ->
  (b0 = 0xE0 -> 0xA0 <= b1) -> (b0 = 0xED -> b1 <= 0x9F) ->
  let r := Z.lor (Z.lor (Z.shiftl (Z.land b0 0x0F) 12)
                        (Z.shiftl (Z.land b1 utf8.maskx) 6))
                 (Z.land b2 utf8.maskx) in
  0x800 <= r <= 0xFFFF
  /\ utf8.is_surrogate r = false
  /\ Z.lor 0xE0 (Z.shiftr r 12) = b0
  /\ Z.lor 0x80 (Z.land (Z.shiftr r 6) utf8.maskx) = b1
  /\ Z.lor 0x80 (Z.land r utf8.maskx) = b2.
Proof.
  intros H0 H1 H2 Hlo Hhi r. subst r. fields.
  rewrite rune3 by (apply Z.mod_pos_bound || apply Z.mod_pos_bound; lia).
  assert (E0 : b0 mod 16 = b0 - 0xE0) by (Z.div_mod_to_equations; lia).
  assert (E1 : b1 mod 64 = b1 - 0x80) by (Z.div_mod_to_equations; lia).
  assert (E2 : b2 mod 64 = b2 - 0x80) by (Z.div_mod_to_equations; lia).
  rewrite E0, E1, E2.
  set (r := (b0 - 0xE0) * 4096 + (b1 - 0x80) * 64 + (b2 - 0x80)).
  assert (Ea : r / 4096 = b0 - 0xE0) by (subst r; Z.div_mod_to_equations; lia).
  assert (Eb : (r / 64) mod 64 = b1 - 0x80) by (subst r; Z.div_mod_to_equations; lia).
  assert (Ec : r mod 64 = b2 - 0x80) by (subst r; Z.div_mod_to_equations; lia).
  rewrite Ea, Eb, Ec, lor_xE0, !lor_x80 by lia.
  unfold utf8.is_surrogate.
  repeat split; subst r; lia.
Qed.

Lemma encode4_fields (b0 b1 b2 b3 : Z) :
  0xF0 <= b0 <= 0xF4 -> 0x80 <= b1 <= 0xBF -> 0x80 <= b2 <= 0xBF -> 0x80 <= b3 <= 0xBF ->
  (b0 = 0xF0 -> 0x90 <= b1) -> (b0 = 0xF4 -> b1 <= 0x8F) ->
  let r := Z.lor (Z.lor (Z.lor (Z.shiftl (Z.land b0 0x07) 18)
                               (Z.shiftl (Z.land b1 utf8.maskx) 12))
                        (Z.shiftl (Z.land b2 utf8.maskx) 6))
                 (Z.land b3 utf8.maskx) in
  0x10000 <= r <= 0x10FFFF
  /\ Z.lor 0xF0 (Z.shiftr r 18) = b0
  /\ Z.lor 0x80 (Z.land (Z.shiftr r 12) utf8.maskx) = b1
  /\ Z.lor 0x80 (Z.land (Z.shiftr r 6) utf8.maskx) = b2
  /\ Z.lor 0x80 (Z.land r utf8.maskx) = b3.
Proof.
  intros H0 H1 H2 H3 Hlo Hhi r. subst r. fields.
  rewrite rune4 by (apply Z.mod_pos_bound || apply Z.mod_pos_bound; lia).
  assert (E0 : b0 mod 8 = b0 - 0xF0) by (Z.div_mod_to_equations; lia).
  assert (E1 : b1 mod 64 = b1 - 0x80) by (Z.div_mod_to_equations; lia).
  assert (E2 : b2 mod 64 = b2 - 0x80) by (Z.div_mod_to_equations; lia).
  assert (E3 : b3 mod 64 = b3 - 0x80) by (Z.div_mod_to_equations; lia).
  rewrite E0, E1, E2, E3.
  set (r := (b0 - 0xF0) * 262144 + (b1 - 0x80) * 4096 + (b2 - 0x80) * 64 + (b3 - 0x80)).
  assert (Ea : r / 262144 = b0 - 0xF0) by (subst r; Z.div_mod_to_equations; lia).
  assert (Eb : (r / 4096) mod 64 = b1 - 0x80) by (subst r; Z.div_mod_to_equations; lia).
  assert (Ec : (r / 64) mod 64 = b2 - 0x80) by (subst r; Z.div_mod_to_equations; lia).
  assert (Ed : r mod 64 = b3 - 0x80) by (subst r; Z.div_mod_to_equations; lia).
  rewrite Ea, Eb, Ec, Ed, lor_xF0, !lor_x80 by lia.
  repeat split; subst r; lia.
Qed.

(** What the table of leading bytes says. *)
Lemma first_lead (b0 : Z) (sz : nat) (lo hi : Z) :
  utf8.first b0 = utf8.Lead sz lo hi ->
  0x80 <= lo /\ hi <= 0xBF
  /\ ((sz = 2%nat /\ 0xC2 <= b0 <= 0xDF /\ lo = 0x80 /\ hi = 0xBF)
      \/ (sz = 3%nat /\ 0xE0 <= b0 <= 0xEF
          /\ (b0 = 0xE0 -> lo = 0xA0) /\ (b0 = 0xED -> hi = 0x9F))
      \/ (sz = 4%nat /\ 0xF0 <= b0 <= 0xF4
          /\ (b0 = 0xF0 -> lo = 0x90) /\ (b0 = 0xF4 -> hi = 0x8F))).
Proof.
  unfold utf8.first.
  repeat match goal with
         | |- context [?a <? ?b] => destruct (Z.ltb_spec a b)
         | |- context [?a =? ?b] => destruct (Z.eqb_spec a b)
         end;
    intros [= <- <- <-] || discriminate; lia.
Qed.

Lemma first_ASCII (b0 : Z) : utf8.first b0 = utf8.ASCII <-> b0 < 0x80.
Proof.
  unfold utf8.first.
  repeat match goal with
         | |- context [?a <? ?b] => destruct (Z.ltb_spec a b)
         | |- context [?a =? ?b] => destruct (Z.eqb_spec a b)
         end; split; (discriminate || lia || reflexivity).
Qed.

Lemma in_range_iff (lo hi : Z) (c : ascii) :
  byte.in_range lo hi c = true <-> lo <= byte.val c <= hi.
Proof. unfold byte.in_range. lia. Qed.

(** A well-formed sequence of two to four bytes: it is made of bytes outside
    ASCII, [EncodeRune] gives it back from its rune, and the decoder reads
    the same rune whatever follows. *)
Lemma decode_multibyte (c : ascii) (t : string) (r : Z) (size : nat) :
  0x80 <= byte.val c ->
  utf8.DecodeRuneInString (String c t) = (r, size) ->
  (r =? utf8.RuneError) && (size =? 1)%nat = false ->
  exists pre rest,
    String c t = pre ++ rest
    /\ String.length pre = size
    /\ (2 <= size <= 4)%nat
    /\ high pre = true
    /\ utf8.EncodeRune r = pre
    /\ 0x80 <= r
    /\ (forall rest', utf8.DecodeRuneInString (pre ++ rest') = (r, size)).
Proof.
  intros Hc Hdec Hok.
  assert (Hbad : (utf8.RuneError, 1%nat) = (r, size) -> False).
  { intros [= <- <-]. discriminate Hok. }
  cbn [utf8.DecodeRuneInString] in Hdec.
  destruct (utf8.first (byte.val c)) as [| | sz lo hi] eqn:F.
  - apply first_ASCII in F. lia.
  - now destruct Hbad.
  - destruct (first_lead _ _ _ _ F) as (Hlo & Hhi & Hcase).
    destruct t as [|c1 t1]; [now destruct Hbad |].
    destruct (byte.in_range lo hi c1) eqn:R1; cbn [negb] in Hdec; [| now destruct Hbad].
    pose proof (proj1 (in_range_iff _ _ _) R1) as B1.
    destruct Hcase as [(-> & B0 & -> & ->) | [(-> & B0 & Ha & Hb) | (-> & B0 & Ha & Hb)]].
    + (* two bytes *)
      cbn [Nat.leb] in Hdec. injection Hdec as <- <-.
      destruct (encode2_fields (byte.val c) (byte.val c1) B0 B1) as (Hr & E0 & E1).
      exists (String c (String c1 EmptyString)), t1.
      repeat split; try lia.
      * cbn [high]. lia.
      * unfold utf8.EncodeRune.
        match goal with |- context [Z.lor (Z.shiftl ?a 6) ?b] =>
          set (r := Z.lor (Z.shiftl a 6) b) in * end.
        replace ((0 <=? r) && (r <=? 0x7F)) with false by lia.
        replace ((0 <=? r) && (r <=? 0x7FF)) with true by lia.
        now rewrite E0, E1, !byte_of_val.
      * intros rest'. cbn [String.append utf8.DecodeRuneInString].
        now rewrite F, R1.
    + (* three bytes *)
      destruct t1 as [|c2 t2]; [now destruct Hbad |].
      destruct (utf8.cont c2) eqn:R2; cbn [negb Nat.leb] in Hdec; [| now destruct Hbad].
      pose proof (proj1 (in_range_iff _ _ _) R2) as B2.
      injection Hdec as <- <-.
      destruct (encode3_fields (byte.val c) (byte.val c1) (byte.val c2))
        as (Hr & Hs & E0 & E1 & E2); try lia.
      exists (String c (String c1 (String c2 EmptyString))), t2.
      repeat split; try lia.
      * cbn [high]. lia.
      * unfold utf8.EncodeRune, utf8.encode3, utf8.MaxRune.
        match goal with |- context [Z.lor (Z.lor ?a ?b) ?d] =>
          set (r := Z.lor (Z.lor a b) d) in * end.
        replace ((0 <=? r) && (r <=? 0x7F)) with false by lia.
        replace ((0 <=? r) && (r <=? 0x7FF)) with false by lia.
        rewrite Hs.
        replace ((r <? 0) || (0x10FFFF <? r) || false) with false by lia.
        replace (r <=? 0xFFFF) with true by lia.
        now rewrite E0, E1, E2, !byte_of_val.
      * intros rest'. cbn [String.append utf8.DecodeRuneInString].
        now rewrite F, R1, R2.
    + (* four bytes *)
      destruct t1 as [|c2 t2]; [now destruct Hbad |].
      destruct (utf8.cont c2) eqn:R2; cbn [negb Nat.leb] in Hdec; [| now destruct Hbad].
      destruct t2 as [|c3 t3]; [now destruct Hbad |].
      destruct (utf8.cont c3) eqn:R3; cbn [negb] in Hdec; [| now destruct Hbad].
      pose proof (proj1 (in_range_iff _ _ _) R2) as B2.
      pose proof (proj1 (in_range_iff _ _ _) R3) as B3.
      injection Hdec as <- <-.
      destruct (encode4_fields (byte.val c) (byte.val c1) (byte.val c2) (byte.val c3))
        as (Hr & E0 & E1 & E2 & E3); try lia.
      exists (String c (String c1 (String c2 (String c3 EmptyString)))), t3.
      repeat split; try lia.
      * cbn [high]. lia.
      * unfold utf8.EncodeRune, utf8.MaxRune, utf8.is_surrogate.
        match goal with |- context [Z.lor (Z.lor (Z.lor ?a ?b) ?d) ?e] =>
          set (r := Z.lor (Z.lor (Z.lor a b) d) e) in * end.
        replace ((0 <=? r) && (r <=? 0x7F)) with false by lia.
        replace ((0 <=? r) && (r <=? 0x7FF)) with false by lia.
        replace ((r <? 0) || (0x10FFFF <? r) || (0xD800 <=? r) && (r <=? 0xDFFF))
          with false by lia.
        replace (r <=? 0xFFFF) with false by lia.
        now rewrite E0, E1, E2, E3, !byte_of_val.
      * intros rest'. cbn [String.append utf8.DecodeRuneInString].
        now rewrite F, R1, R2, R3.
Qed.

(** ** JSON string literals *)

Lemma hex_digit (n : Z) :
  0 <= n < 16 -> json.is_hex (json.hex n) = true /\ json.hexval (json.hex n) = n.
Proof.
  intros Hn. destruct n as [|p|p]; [split; reflexivity | | lia].
  repeat (destruct p as [p|p|]; try lia); split; reflexivity.
Qed.

(** One more piece in front of a literal that scans: a plain byte, a
    two-byte escape, a [\uXXXX] escape, bytes outside ASCII. *)
Lemma scan_plain (c : ascii) (s raw rest : string) :
  0x20 <= byte.val c -> byte.val c <> 0x22 -> byte.val c <> 0x5C ->
  json.scan_string s = Some (raw, rest) ->
  json.scan_string (String c s) = Some (String c raw, rest).
Proof.
  intros Hlo Hq Hb Hs. cbn [json.scan_string].
  replace (byte.val c =? 0x22) with false by lia.
  replace (byte.val c =? 0x5C) with false by lia.
  replace (byte.val c <? 0x20) with false by lia.
  now rewrite Hs.
Qed.

Lemma scan_simple_escape (e : ascii) (s raw rest : string) :
  json.is_simple_escape e = true ->
  json.scan_string s = Some (raw, rest) ->
  json.scan_string (String "\" (String e s)) = Some (String "\" (String e raw), rest).
Proof.
  intros He Hs. cbn [json.scan_string].
  change (byte.val "\" =? 0x22) with false. change (byte.val "\" =? 0x5C) with true.
  cbv iota. now rewrite He, Hs.
Qed.

Lemma scan_u_escape (h1 h2 h3 h4 : ascii) (s raw rest : string) :
  json.is_hex h1 = true -> json.is_hex h2 = true ->
  json.is_hex h3 = true -> json.is_hex h4 = true ->
  json.scan_string s = Some (raw, rest) ->
  json.scan_string (String "\" (String "u" (String h1 (String h2 (String h3 (String h4 s))))))
  = Some (String "\" (String "u" (String h1 (String h2 (String h3 (String h4 raw))))), rest).
Proof.
  intros H1 H2 H3 H4 Hs. cbn [json.scan_string].
  change (byte.val "\" =? 0x22) with false. change (byte.val "\" =? 0x5C) with true.
  change (json.is_simple_escape "u") with false.
  change (byte.val "u" =? 0x75) with true.
  cbv iota. now rewrite H1, H2, H3, H4, Hs.
Qed.

Lemma scan_high (pre s raw rest : string) :
  high pre = true ->
  json.scan_string s = Some (raw, rest) ->
  json.scan_string (pre ++ s) = Some (pre ++ raw, rest).
Proof.
  intros Hpre Hs. induction pre as [|c pre IH]; [exact Hs |].
  cbn [high] in Hpre. apply andb_true_iff in Hpre as [Hc Hpre].
  cbn [String.append]. apply scan_plain; try lia. now apply IH.
Qed.

Lemma htmlSafe_plain (b : Z) :
  json.htmlSafe b = true -> 0x20 <= b /\ b <> 0x22 /\ b <> 0x5C.
Proof. unfold json.htmlSafe. lia. Qed.

Lemma scan_escape_byte (c : ascii) (s raw rest : string) :
  json.scan_string s = Some (raw, rest) ->
  json.scan_string (json.escape_byte c ++ s) = Some (json.escape_byte c ++ raw, rest).
Proof.
  intros Hs. unfold json.escape_byte.
  pose proof (byte_val_range c) as Hc.
  destruct ((byte.val c =? 0x5C) || (byte.val c =? 0x22)) eqn:E1.
  { cbn [String.append]. apply scan_simple_escape; [| exact Hs].
    unfold json.is_simple_escape. lia. }
  repeat match goal with
         | |- context [if ?a =? ?b then _ else _] =>
             destruct (a =? b);
             [cbn [String.append]; now apply scan_simple_escape |]
         end.
  cbn [String.append].
  apply scan_u_escape; try reflexivity; try exact Hs.
  - apply hex_digit. rewrite Z.shiftr_div_pow2 by lia. Z.div_mod_to_equations. lia.
  - apply hex_digit. rewrite land_x0F. Z.div_mod_to_equations. lia.
Qed.

Lemma length_decoded (c : ascii) (t : string) (r : Z) (size : nat) (pre rest : string) :
  String c t = pre ++ rest -> String.length pre = size ->
  strings.drop size (String c t) = rest /\ substring 0 size (String c t) = pre.
Proof.
  intros -> <-. split; [apply drop_append |].
  induction pre as [|a pre IH]; cbn [String.append String.length substring].
  - now destruct rest.
  - now rewrite IH.
Qed.

(** The escaped text of a string scans up to the closing quote that
    follows it, whatever the string. *)
Lemma scan_escape (n : nat) : forall (s rest : string),
  (String.length s <= n)%nat ->
  json.scan_string (json.escape n s ++ String byte.quote rest)
  = Some (json.escape n s, rest).
Proof.
  induction n as [|n IH]; intros s rest Hn.
  - destruct s; [reflexivity | cbn in Hn; lia].
  - destruct s as [|c t]; [reflexivity |].
    cbn [String.length] in Hn. cbn [json.escape].
    destruct (byte.val c <? utf8.RuneSelf) eqn:Hascii.
    + destruct (json.htmlSafe (byte.val c)) eqn:Hsafe.
      * apply htmlSafe_plain in Hsafe as (? & ? & ?).
        cbn [String.append]. apply scan_plain; try assumption. apply IH. lia.
      * rewrite append_assoc. apply scan_escape_byte. apply IH. lia.
    + destruct (utf8.DecodeRuneInString (String c t)) as [r size] eqn:Hdec.
      destruct ((r =? utf8.RuneError) && (size =? 1)%nat) eqn:Herr.
      * cbn [String.append]. apply scan_u_escape; try reflexivity. apply IH. lia.
      * unfold utf8.RuneSelf in Hascii.
        destruct (decode_multibyte c t r size)
          as (pre & rest0 & Hs & Hlen & Hsize & Hhigh & _);
          [lia | exact Hdec | exact Herr |].
        assert (Hrest : (String.length rest0 <= n)%nat).
        { apply (f_equal String.length) in Hs. rewrite length_append in Hs.
          cbn [String.length] in Hs. lia. }
        destruct (length_decoded c t r size pre rest0 Hs Hlen) as [-> ->].
        destruct ((r =? 0x2028) || (r =? 0x2029)) eqn:Hsep.
        -- cbn [String.append]. apply scan_u_escape; try reflexivity.
           ++ apply hex_digit. rewrite land_x0F. Z.div_mod_to_equations. lia.
           ++ now apply IH.
        -- rewrite append_assoc. apply scan_high; [exact Hhigh |]. now apply IH.
Qed.

(** Unquoting, piece by piece. *)
Lemma unquote_plain (m : nat) (c : ascii) (s s' : string) :
  0x20 <= byte.val c < 0x80 -> byte.val c <> 0x22 -> byte.val c <> 0x5C ->
  json.unquote m s = Some s' ->
  json.unquote (S m) (String c s) = Some (String c s').
Proof.
  intros Hc Hq Hb Hs. cbn [json.unquote]. unfold utf8.RuneSelf.
  replace (byte.val c =? 0x5C) with false by lia.
  replace ((byte.val c =? 0x22) || (byte.val c <? 0x20)) with false by lia.
  replace (byte.val c <? 0x80) with true by lia.
  now rewrite Hs.
Qed.

Lemma byte_of_code (c : ascii) (z : Z) : byte.val c = z -> byte.of_Z z = c.
Proof. intros <-. apply byte_of_val. Qed.

Lemma getu4_escape (h1 h2 h3 h4 : ascii) (rest : string) :
  json.is_hex h1 = true -> json.is_hex h2 = true ->
  json.is_hex h3 = true -> json.is_hex h4 = true ->
  json.getu4 (String "\" (String "u" (String h1 (String h2 (String h3 (String h4 rest))))))
  = ((json.hexval h1 * 16 + json.hexval h2) * 16 + json.hexval h3) * 16 + json.hexval h4.
Proof.
  intros H1 H2 H3 H4. unfold json.getu4.
  change (byte.val "\" =? 0x5C) with true. change (byte.val "u" =? 0x75) with true.
  now rewrite H1, H2, H3, H4.
Qed.

Lemma unquote_u_escape (m : nat) (h1 h2 h3 h4 : ascii) (s s' : string) (rr : Z) :
  json.is_hex h1 = true -> json.is_hex h2 = true ->
  json.is_hex h3 = true -> json.is_hex h4 = true ->
  ((json.hexval h1 * 16 + json.hexval h2) * 16 + json.hexval h3) * 16 + json.hexval h4 = rr ->
  0 <= rr -> json.utf16_IsSurrogate rr = false ->
  json.unquote m s = Some s' ->
  json.unquote (S m)
    (String "\" (String "u" (String h1 (String h2 (String h3 (String h4 s))))))
  = Some (utf8.EncodeRune rr ++ s').
Proof.
  intros H1 H2 H3 H4 Hrr Hpos Hsur Hs. cbn [json.unquote].
  change (byte.val "\" =? 0x5C) with true. cbv iota.
  change (byte.val "u") with 0x75. cbn [Z.eqb Pos.eqb orb].
  rewrite getu4_escape, Hrr by assumption. cbn [strings.drop].
  replace (rr <? 0) with false by lia.
  now rewrite Hsur, Hs.
Qed.

Lemma unquote_escape_byte (m : nat) (c : ascii) (s s' : string) :
  byte.val c < 0x80 ->
  json.unquote m s = Some s' ->
  json.unquote (S m) (json.escape_byte c ++ s) = Some (String c s').
Proof.
  intros Hc Hs. unfold json.escape_byte.
  pose proof (byte_val_range c) as Hr.
  destruct ((byte.val c =? 0x5C) || (byte.val c =? 0x22)) eqn:E1.
  { cbn [String.append json.unquote].
    change (byte.val "\" =? 0x5C) with true. cbv iota.
    replace ((byte.val c =? 0x22) || (byte.val c =? 0x5C) || (byte.val c =? 0x2F)
             || (byte.val c =? 0x27)) with true by lia.
    now rewrite Hs. }
  repeat match goal with
         | |- context [if ?a =? ?b then _ else _] =>
             destruct (Z.eqb_spec a b) as [Hcode | _];
             [cbn [String.append json.unquote];
              change (byte.val "\" =? 0x5C) with true; cbv iota;
              rewrite Hs; cbn [fmap option_fmap option_map];
              now rewrite (byte_of_code c _ Hcode) |]
         end.
  set (hi := Z.shiftr (byte.val c) 4). set (lo := Z.land (byte.val c) 0xF).
  assert (Hhi : 0 <= hi < 16).
  { subst hi. rewrite Z.shiftr_div_pow2 by lia. Z.div_mod_to_equations. lia. }
  assert (Hlo : 0 <= lo < 16).
  { subst lo. rewrite land_x0F. Z.div_mod_to_equations. lia. }
  assert (Hsum : hi * 16 + lo = byte.val c).
  { subst hi lo. rewrite Z.shiftr_div_pow2, land_x0F by lia. Z.div_mod_to_equations. lia. }
  destruct (hex_digit hi Hhi) as [Xhi Vhi], (hex_digit lo Hlo) as [Xlo Vlo].
  cbn [String.append].
  rewrite (unquote_u_escape m "0" "0" (json.hex hi) (json.hex lo) s s' (byte.val c));
    try reflexivity; try assumption; try lia.
  - unfold utf8.EncodeRune.
    replace ((0 <=? byte.val c) && (byte.val c <=? 0x7F)) with true by lia.
    now rewrite byte_of_val.
  - change (json.hexval "0") with 0. lia.
  - unfold json.utf16_IsSurrogate. lia.
Qed.

Lemma unquote_multibyte (m : nat) (c : ascii) (pre s s' : string) (r : Z) (size : nat) :
  0x80 <= byte.val c ->
  String.length (String c pre) = size ->
  utf8.EncodeRune r = String c pre ->
  (forall rest, utf8.DecodeRuneInString (String c pre ++ rest) = (r, size)) ->
  json.unquote m s = Some s' ->
  json.unquote (S m) (String c pre ++ s) = Some (String c pre ++ s').
Proof.
  intros Hc Hlen Henc Hdec Hs.
  pose proof (Hdec s) as Hd. pose proof (drop_append (String c pre) s) as Hdrop.
  rewrite Hlen in Hdrop.
  cbn [String.append] in *. cbn [json.unquote]. unfold utf8.RuneSelf.
  replace (byte.val c =? 0x5C) with false by lia.
  replace ((byte.val c =? 0x22) || (byte.val c <? 0x20)) with false by lia.
  replace (byte.val c <? 0x80) with false by lia.
  rewrite Hd, Hdrop, Hs, Henc. reflexivity.
Qed.

Lemma length_escape_byte (c : ascii) : (1 <= String.length (json.escape_byte c))%nat.
Proof.
  unfold json.escape_byte.
  repeat match goal with
         | |- context [if ?b then _ else _] => destruct b
         end; cbn; lia.
Qed.

Lemma decode_ascii (c : ascii) (t : string) :
  byte.val c < 0x80 -> utf8.DecodeRuneInString (String c t) = (byte.val c, 1%nat).
Proof.
  intros Hc. cbn [utf8.DecodeRuneInString].
  now rewrite (proj2 (first_ASCII _) Hc).
Qed.

(** Unquoting the escaped text of a string of well-formed UTF-8 gives the
    string back. *)
Lemma unquote_escape (n : nat) : forall (s : string) (m : nat),
  utf8.valid_from n s = true ->
  (String.length (json.escape n s) <= m)%nat ->
  json.unquote m (json.escape n s) = Some s.
Proof.
  induction n as [|n IH]; intros s m Hv Hm.
  - destruct s; [now destruct m | discriminate].
  - destruct s as [|c t]; [now destruct m |].
    cbn [utf8.valid_from] in Hv. cbn [json.escape] in *.
    unfold utf8.RuneSelf in *.
    destruct (byte.val c <? 0x80) eqn:Hascii.
    + rewrite decode_ascii in Hv by lia.
      replace ((byte.val c =? utf8.RuneError) && (1 =? 1)%nat) with false in Hv
        by (unfold utf8.RuneError; lia).
      cbn [strings.drop] in Hv.
      destruct (json.htmlSafe (byte.val c)) eqn:Hsafe.
      * apply htmlSafe_plain in Hsafe as (? & ? & ?).
        cbn [String.length] in Hm. destruct m as [|m]; [lia |].
        apply unquote_plain; try lia. apply IH; [exact Hv | lia].
      * rewrite length_append in Hm. pose proof (length_escape_byte c).
        destruct m as [|m]; [lia |].
        apply unquote_escape_byte; [lia |]. apply IH; [exact Hv | lia].
    + destruct (utf8.DecodeRuneInString (String c t)) as [r size] eqn:Hdec.
      destruct ((r =? utf8.RuneError) && (size =? 1)%nat) eqn:Herr; [discriminate |].
      destruct (decode_multibyte c t r size)
        as (pre & rest0 & Hs & Hlen & Hsize & Hhigh & Henc & Hr & Hany);
        [lia | exact Hdec | exact Herr |].
      destruct (length_decoded c t r size pre rest0 Hs Hlen) as [Hdrop Hsub].
      rewrite Hdrop in *. rewrite Hsub in *. rewrite Hs.
      destruct pre as [|c' pre]; [cbn in Hlen; lia |].
      cbn [String.append] in Hs. injection Hs as <- ->.
      destruct ((r =? 0x2028) || (r =? 0x2029)) eqn:Hsep.
      * assert (Hm' : exists m', m = S m' /\ (String.length (json.escape n rest0) <= m')%nat).
        { cbn [String.append String.length] in Hm. destruct m as [|m]; [lia |].
          exists m. split; [reflexivity | lia]. }
        destruct Hm' as (m' & -> & Hm').
        pose proof (IH rest0 m' Hv Hm') as Hrec.
        assert (Hcase : r = 0x2028 \/ r = 0x2029) by lia.
        rewrite <- Henc.
        destruct Hcase as [-> | ->].
        -- change (json.hex (Z.land 0x2028 0xF)) with "8"%char. cbn [String.append].
           now apply unquote_u_escape.
        -- change (json.hex (Z.land 0x2029 0xF)) with "9"%char. cbn [String.append].
           now apply unquote_u_escape.
      * rewrite length_append in Hm. cbn [String.length] in Hm.
        destruct m as [|m]; [lia |].
        apply (unquote_multibyte m c pre _ _ r size); try assumption; try lia.
        apply IH; [exact Hv | lia].
Qed.

(** [unquoteBytes] undoes [appendString] on well-formed UTF-8. *)
Lemma unquoteBytes_escape (s : string) :
  utf8.ValidString s = true ->
  json.unquoteBytes (json.escape (String.length s) s) = Some s.
Proof.
  intros Hv. unfold json.unquoteBytes. now apply unquote_escape.
Qed.

(** ** Scanning an object of strings *)

Lemma scan_string_value (fuel : nat) (depth : Z) (raw rest : string) :
  closed raw ->
  json.scan_value (S fuel) depth (String byte.quote (raw ++ String byte.quote rest))
  = Some (json.Str raw, rest).
Proof.
  intros Hraw. cbn [json.scan_value json.skip_space].
  change (json.is_space byte.quote) with false. cbv iota.
  change (byte.val byte.quote) with 0x22. cbn [Z.eqb Pos.eqb].
  now rewrite Hraw.
Qed.

Lemma scan_member_last (fuel : nat) (depth : Z) (key raw rest : string) :
  closed key -> closed raw ->
  json.scan_members (S (S fuel)) depth (member key raw (String "}" rest))
  = Some ([(key, json.Str raw)], rest).
Proof.
  intros Hkey Hraw. unfold member. cbn [json.scan_members json.skip_space].
  change (json.is_space byte.quote) with false. cbv iota.
  change (byte.val byte.quote =? 0x22) with true. cbv iota.
  rewrite Hkey. cbn [mbind option_bind json.skip_space].
  change (json.is_space ":") with false. cbv iota.
  change (byte.val ":" =? 0x3A) with true. cbv iota.
  rewrite scan_string_value by exact Hraw.
  cbn [mbind option_bind json.skip_space].
  reflexivity.
Qed.

Lemma scan_member_more (fuel : nat) (depth : Z) (key raw s rest : string)
    (ms : list (string * json.value)) :
  closed key -> closed raw ->
  json.scan_members (S fuel) depth s = Some (ms, rest) ->
  json.scan_members (S (S fuel)) depth (member key raw (String "," s))
  = Some ((key, json.Str raw) :: ms, rest).
Proof.
  intros Hkey Hraw Hs. unfold member.
  remember (S fuel) as fuel' eqn:Hfuel.
  cbn [json.scan_members json.skip_space].
  change (json.is_space byte.quote) with false. cbv iota.
  change (byte.val byte.quote =? 0x22) with true. cbv iota.
  rewrite Hkey. cbn [mbind option_bind json.skip_space].
  change (json.is_space ":") with false. cbv iota.
  change (byte.val ":" =? 0x3A) with true. cbv iota.
  subst fuel'. rewrite scan_string_value by exact Hraw.
  cbn [mbind option_bind json.skip_space].
  change (json.is_space ",") with false. cbv iota.
  change (byte.val "," =? 0x7D) with false. change (byte.val "," =? 0x2C) with true.
  cbv iota. now rewrite Hs.
Qed.

Lemma scan_object (fuel : nat) (s rest : string) (ms : list (string * json.value)) :
  json.scan_members fuel 1 (String byte.quote s) = Some (ms, rest) ->
  json.scan_value (S fuel) 0 (String "{" (String byte.quote s))
  = Some (json.Object ms, rest).
Proof.
  intros Hs. cbn [json.scan_value json.skip_space].
  change (json.is_space "{") with false. cbv iota.
  change (byte.val "{" =? 0x7B) with true. cbv iota.
  change (json.maxNestingDepth <? 0 + 1) with false. cbv iota.
  cbn [json.skip_space].
  change (json.is_space byte.quote) with false. cbv iota.
  change (byte.val byte.quote =? 0x7D) with false. cbv iota.
  change (0 + 1) with 1. now rewrite Hs.
Qed.

Lemma closed_escape (s : string) : closed (json.escape (String.length s) s).
Proof. intros rest. now apply scan_escape. Qed.

(** ** The loops do not run out of fuel

    The loops over strings are written with a bound on their iterations.
    Every iteration consumes a byte at least, so the length of the input is
    bound enough: a larger bound gives the same result. *)

Lemma decode_size (c : ascii) (t : string) :
  (1 <= snd (utf8.DecodeRuneInString (String c t)) <= String.length (String c t))%nat.
Proof.
  cbn [utf8.DecodeRuneInString String.length].
  destruct (utf8.first (byte.val c)) as [| | sz lo hi]; cbn [snd]; try lia.
  destruct t as [|c1 t1]; cbn [snd String.length]; try lia.
  destruct (negb (byte.in_range lo hi c1)); cbn [snd]; try lia.
  destruct (sz <=? 2)%nat; cbn [snd]; try lia.
  destruct t1 as [|c2 t2]; cbn [snd String.length]; try lia.
  destruct (negb (utf8.cont c2)); cbn [snd]; try lia.
  destruct (sz <=? 3)%nat; cbn [snd]; try lia.
  destruct t2 as [|c3 t3]; cbn [snd String.length]; try lia.
  destruct (negb (utf8.cont c3)); cbn [snd]; lia.
Qed.

Lemma length_drop_decoded (c : ascii) (t : string) (r : Z) (size : nat) :
  utf8.DecodeRuneInString (String c t) = (r, size) ->
  (String.length (strings.drop size (String c t)) <= String.length t)%nat.
Proof.
  intros Hdec. pose proof (decode_size c t) as Hsize. rewrite Hdec in Hsize.
  cbn [snd String.length] in Hsize. rewrite length_drop. cbn [String.length]. lia.
Qed.

Lemma escape_fuel (n : nat) : forall (m : nat) (s : string),
  (String.length s <= n)%nat -> (String.length s <= m)%nat ->
  json.escape n s = json.escape m s.
Proof.
  induction n as [|n IH]; intros m s Hn Hm.
  - destruct s; [now destruct m | cbn in Hn; lia].
  - destruct s as [|c t]; [now destruct m |].
    destruct m as [|m]; [cbn in Hm; lia |].
    cbn [String.length] in Hn, Hm. cbn [json.escape].
    destruct (utf8.DecodeRuneInString (String c t)) as [r size] eqn:Hdec.
    pose proof (length_drop_decoded c t r size Hdec) as Hdrop.
    rewrite (IH m t) by lia.
    now rewrite (IH m (strings.drop size (String c t))) by lia.
Qed.

Lemma valid_fuel (n : nat) : forall (m : nat) (s : string),
  (String.length s <= n)%nat -> (String.length s <= m)%nat ->
  utf8.valid_from n s = utf8.valid_from m s.
Proof.
  induction n as [|n IH]; intros m s Hn Hm.
  - destruct s; [now destruct m | cbn in Hn; lia].
  - destruct s as [|c t]; [now destruct m |].
    destruct m as [|m]; [cbn in Hm; lia |].
    cbn [String.length] in Hn, Hm. cbn [utf8.valid_from].
    destruct (utf8.DecodeRuneInString (String c t)) as [r size] eqn:Hdec.
    pose proof (length_drop_decoded c t r size Hdec) as Hdrop.
    now rewrite (IH m (strings.drop size (String c t))) by lia.
Qed.

Lemma foldName_fuel (n : nat) : forall (m : nat) (s : string),
  (String.length s <= n)%nat -> (String.length s <= m)%nat ->
  json.foldName n s = json.foldName m s.
Proof.
  induction n as [|n IH]; intros m s Hn Hm.
  - destruct s; [now destruct m | cbn in Hn; lia].
  - destruct s as [|c t]; [now destruct m |].
    destruct m as [|m]; [cbn in Hm; lia |].
    cbn [String.length] in Hn, Hm. cbn [json.foldName].
    destruct (utf8.DecodeRuneInString (String c t)) as [r size] eqn:Hdec.
    pose proof (length_drop_decoded c t r size Hdec) as Hdrop.
    rewrite (IH m t) by lia.
    now rewrite (IH m (strings.drop size (String c t))) by lia.
Qed.

Lemma unquote_fuel (n : nat) : forall (m : nat) (s : string),
  (String.length s <= n)%nat -> (String.length s <= m)%nat ->
  json.unquote n s = json.unquote m s.
Proof.
  induction n as [|n IH]; intros m s Hn Hm.
  - destruct s; [now destruct m | cbn in Hn; lia].
  - destruct s as [|c t]; [now destruct m |].
    destruct m as [|m]; [cbn in Hm; lia |].
    cbn [String.length] in Hn, Hm. cbn [json.unquote].
    destruct (utf8.DecodeRuneInString (String c t)) as [r size] eqn:Hdec.
    pose proof (length_drop_decoded c t r size Hdec) as Hdrop.
    rewrite (IH m t) by lia.
    rewrite (IH m (strings.drop size (String c t))) by lia.
    destruct t as [|e t1]; [reflexivity |].
    cbn [String.length] in Hn, Hm.
    rewrite (IH m t1) by lia.
    assert (H6 : (String.length (strings.drop 6 (String c (String e t1)))
                  <= String.length t1)%nat)
      by (rewrite length_drop; cbn [String.length]; lia).
    rewrite (IH m (strings.drop 6 (String c (String e t1)))) by lia.
    assert (H12 : (String.length
                     (strings.drop 6 (strings.drop 6 (String c (String e t1))))
                   <= String.length t1)%nat)
      by (rewrite !length_drop; cbn [String.length]; lia).
    now rewrite (IH m (strings.drop 6 (strings.drop 6 (String c (String e t1))))) by lia.
Qed.

(** *** The scanner *)

Lemma length_skip_space (s : string) :
  (String.length (json.skip_space s) <= String.length s)%nat.
Proof.
  induction s as [|c t IH]; cbn [json.skip_space String.length]; [lia |].
  destruct (json.is_space c); cbn [String.length]; lia.
Qed.

Lemma length_scan_string (n : nat) : forall s raw rest : string,
  (String.length s <= n)%nat -> json.scan_string s = Some (raw, rest) ->
  (String.length rest < String.length s)%nat.
Proof.
  induction n as [|n IH]; intros s raw rest Hn Hscan.
  - destruct s; [discriminate | cbn in Hn; lia].
  - destruct s as [|c t]; [discriminate |].
    cbn [json.scan_string] in Hscan. cbn [String.length] in Hn |- *.
    destruct (byte.val c =? 0x22); [injection Hscan as _ <-; lia |].
    destruct (byte.val c =? 0x5C).
    + destruct t as [|e t1]; [discriminate |]. cbn [String.length] in Hn |- *.
      destruct (json.is_simple_escape e).
      * destruct (json.scan_string t1) as [[raw1 rest1]|] eqn:H1; [| discriminate].
        injection Hscan as _ <-. apply IH in H1; lia.
      * destruct (byte.val e =? 0x75); [| discriminate].
        destruct t1 as [|h1 [|h2 [|h3 [|h4 t5]]]]; try discriminate.
        destruct (json.is_hex h1 && json.is_hex h2 && json.is_hex h3 && json.is_hex h4);
          [| discriminate].
        cbn [String.length] in Hn |- *.
        destruct (json.scan_string t5) as [[raw1 rest1]|] eqn:H1; [| discriminate].
        injection Hscan as _ <-. apply IH in H1; lia.
    + destruct (byte.val c <? 0x20); [discriminate |].
      destruct (json.scan_string t) as [[raw1 rest1]|] eqn:H1; [| discriminate].
      injection Hscan as _ <-. apply IH in H1; lia.
Qed.

Lemma length_span_digits (s : string) :
  (String.length (json.span_digits s).2 <= String.length s)%nat.
Proof.
  induction s as [|c t IH]; cbn [json.span_digits String.length snd]; [lia |].
  destruct (json.is_digit c); [| cbn; lia].
  destruct (json.span_digits t) as [d rest]. cbn [snd] in IH |- *. lia.
Qed.

Lemma length_scan_number (s lit rest : string) :
  json.scan_number s = Some (lit, rest) ->
  (String.length rest < String.length s)%nat.
Proof.
  unfold json.scan_number. intros Hscan.
  assert (Hint : forall s1 i s2, json.scan_int s1 = Some (i, s2) ->
                   (String.length s2 < String.length s1)%nat).
  { intros [|c t] i s2; cbn [json.scan_int]; [discriminate |].
    destruct (byte.val c =? 0x30); [intros [= _ <-]; cbn; lia |].
    destruct (json.is_digit c); [| discriminate].
    pose proof (length_span_digits t) as Hd.
    destruct (json.span_digits t) as [d r]. intros [= _ <-]. cbn in Hd |- *. lia. }
  assert (Hfrac : forall s2 f s3, json.scan_frac s2 = Some (f, s3) ->
                    (String.length s3 <= String.length s2)%nat).
  { intros [|c t] f s3; cbn [json.scan_frac]; [intros [= _ <-]; lia |].
    destruct (byte.val c =? 0x2E); [| intros [= _ <-]; lia].
    pose proof (length_span_digits t) as Hd.
    destruct (json.span_digits t) as [[|d0 d] r]; [discriminate |].
    intros [= _ <-]. cbn in Hd |- *. lia. }
  assert (Hexp : forall s3 e s4, json.scan_exp s3 = Some (e, s4) ->
                   (String.length s4 <= String.length s3)%nat).
  { intros [|c t] e s4; cbn [json.scan_exp]; [intros [= _ <-]; lia |].
    destruct ((byte.val c =? 0x65) || (byte.val c =? 0x45)); [| intros [= _ <-]; lia].
    set (p := match t with
              | String g t' => _
              | EmptyString => _
              end).
    assert (Hs : (String.length p.2 <= String.length t)%nat).
    { subst p. destruct t as [|g t']; [cbn; lia |].
      destruct ((byte.val g =? 0x2B) || (byte.val g =? 0x2D)); cbn; lia. }
    destruct p as [sign t1]. cbn [snd] in Hs.
    pose proof (length_span_digits t1) as Hd.
    destruct (json.span_digits t1) as [[|d0 d] r]; [discriminate |].
    intros [= _ <-]. cbn in Hd |- *. lia. }
  destruct (match s with
            | String c t => _
            | EmptyString => _
            end) as [neg s1] eqn:Hneg.
  assert (Hs1 : (String.length s1 <= String.length s)%nat).
  { destruct s as [|c t]; [injection Hneg as _ <-; lia |].
    destruct (byte.val c =? 0x2D); injection Hneg as _ <-; cbn; lia. }
  destruct (json.scan_int s1) as [[i s2]|] eqn:Hi; [| discriminate].
  cbn [mbind option_bind] in Hscan.
  destruct (json.scan_frac s2) as [[f s3]|] eqn:Hf; [| discriminate].
  cbn [mbind option_bind] in Hscan.
  destruct (json.scan_exp s3) as [[e s4]|] eqn:He; [| discriminate].
  cbn [mbind option_bind] in Hscan. injection Hscan as _ <-.
  apply Hint in Hi. apply Hfrac in Hf. apply Hexp in He. lia.
Qed.

Lemma length_strip_prefix (lit : string) : forall s rest : string,
  json.strip_prefix lit s = Some rest ->
  (String.length rest <= String.length s)%nat.
Proof.
  induction lit as [|a lit IH]; intros s rest; cbn [json.strip_prefix].
  - intros [= <-]. lia.
  - destruct s as [|b s']; [discriminate |].
    destruct (Ascii.eqb a b); [| discriminate].
    intros H. apply IH in H. cbn. lia.
Qed.

(** A scan that succeeds has consumed input, and succeeds with the same
    result on any fuel of twice the bytes consumed: a value needs one unit
    less than that, the members of an object and the elements of an array
    need no more. *)
Lemma scan_fuel (f : nat) :
  (forall d s v rest, json.scan_value f d s = Some (v, rest) ->
     (String.length rest < String.length s)%nat /\
     forall f', (2 * (String.length s - String.length rest) <= f' + 1)%nat ->
       json.scan_value f' d s = Some (v, rest)) /\
  (forall d s ms rest, json.scan_members f d s = Some (ms, rest) ->
     (String.length rest < String.length s)%nat /\
     forall f', (2 * (String.length s - String.length rest) <= f')%nat ->
       json.scan_members f' d s = Some (ms, rest)) /\
  (forall d s vs rest, json.scan_elems f d s = Some (vs, rest) ->
     (String.length rest < String.length s)%nat /\
     forall f', (2 * (String.length s - String.length rest) <= f')%nat ->
       json.scan_elems f' d s = Some (vs, rest)).
Proof.
  induction f as [|f (IHv & IHm & IHe)]; [repeat split; discriminate |].
  split; [| split].
  - intros d s v rest H. cbn [json.scan_value] in H.
    pose proof (length_skip_space s) as Hws.
    destruct (json.skip_space s) as [|c t] eqn:Hs; [discriminate |].
    cbn [String.length] in Hws.
    destruct (byte.val c =? 0x7B) eqn:Hb1.
    { destruct (json.maxNestingDepth <? d + 1) eqn:Hdepth; [discriminate |].
      pose proof (length_skip_space t) as Hws'.
      destruct (json.skip_space t) as [|c' t'] eqn:Ht; [discriminate |].
      cbn [String.length] in Hws'.
      destruct (byte.val c' =? 0x7D) eqn:Hb2.
      - injection H as <- <-. split; [lia |]. intros [|f'] Hf'; [lia |].
        cbn [json.scan_value]. now rewrite Hs, Hb1, Hdepth, Ht, Hb2.
      - destruct (json.scan_members f (d + 1) (String c' t')) as [[ms r]|] eqn:Hm;
          [| discriminate].
        cbn [mbind option_bind] in H. injection H as <- <-.
        apply IHm in Hm as [Hlen Hfuel]. cbn [String.length] in Hlen, Hfuel.
        split; [lia |]. intros [|f'] Hf'; [lia |].
        cbn [json.scan_value]. rewrite Hs, Hb1, Hdepth, Ht, Hb2.
        now rewrite Hfuel by lia. }
    destruct (byte.val c =? 0x5B) eqn:Hb2.
    { destruct (json.maxNestingDepth <? d + 1) eqn:Hdepth; [discriminate |].
      pose proof (length_skip_space t) as Hws'.
      destruct (json.skip_space t) as [|c' t'] eqn:Ht; [discriminate |].
      cbn [String.length] in Hws'.
      destruct (byte.val c' =? 0x5D) eqn:Hb3.
      - injection H as <- <-. split; [lia |]. intros [|f'] Hf'; [lia |].
        cbn [json.scan_value]. now rewrite Hs, Hb1, Hb2, Hdepth, Ht, Hb3.
      - destruct (json.scan_elems f (d + 1) (String c' t')) as [[vs r]|] eqn:He;
          [| discriminate].
        cbn [mbind option_bind] in H. injection H as <- <-.
        apply IHe in He as [Hlen Hfuel]. cbn [String.length] in Hlen, Hfuel.
        split; [lia |]. intros [|f'] Hf'; [lia |].
        cbn [json.scan_value]. rewrite Hs, Hb1, Hb2, Hdepth, Ht, Hb3.
        now rewrite Hfuel by lia. }
    assert (Hlen : (String.length rest < String.length s)%nat).
    { destruct (byte.val c =? 0x22).
      { destruct (json.scan_string t) as [[raw r]|] eqn:Hstr; [| discriminate].
        injection H as _ <-. apply (length_scan_string _ _ _ _ (le_n _)) in Hstr. lia. }
      destruct (byte.val c =? 0x74).
      { destruct (json.strip_prefix "rue" t) as [r|] eqn:Hlit; [| discriminate].
        injection H as _ <-. apply length_strip_prefix in Hlit. lia. }
      destruct (byte.val c =? 0x66).
      { destruct (json.strip_prefix "alse" t) as [r|] eqn:Hlit; [| discriminate].
        injection H as _ <-. apply length_strip_prefix in Hlit. lia. }
      destruct (byte.val c =? 0x6E).
      { destruct (json.strip_prefix "ull" t) as [r|] eqn:Hlit; [| discriminate].
        injection H as _ <-. apply length_strip_prefix in Hlit. lia. }
      destruct (json.scan_number (String c t)) as [[lit r]|] eqn:Hnum; [| discriminate].
      injection H as _ <-. apply length_scan_number in Hnum. cbn [String.length] in Hnum. lia. }
    split; [exact Hlen |]. intros [|f'] Hf'; [lia |].
    cbn [json.scan_value]. rewrite Hs, Hb1, Hb2. exact H.
  - intros d s ms rest H. cbn [json.scan_members] in H.
    pose proof (length_skip_space s) as Hws.
    destruct (json.skip_space s) as [|c t] eqn:Hs; [discriminate |].
    cbn [String.length] in Hws.
    destruct (byte.val c =? 0x22) eqn:Hb1; [| discriminate].
    destruct (json.scan_string t) as [[key s1]|] eqn:Hkey; [| discriminate].
    cbn [mbind option_bind] in H.
    pose proof (length_scan_string _ _ _ _ (le_n _) Hkey) as Hlkey.
    pose proof (length_skip_space s1) as Hws1.
    destruct (json.skip_space s1) as [|colon s2] eqn:Hs1; [discriminate |].
    cbn [String.length] in Hws1.
    destruct (byte.val colon =? 0x3A) eqn:Hb2; [| discriminate].
    destruct (json.scan_value f d s2) as [[v s3]|] eqn:Hv; [| discriminate].
    cbn [mbind option_bind] in H.
    apply IHv in Hv as [Hlv Hfv].
    pose proof (length_skip_space s3) as Hws3.
    destruct (json.skip_space s3) as [|e s4] eqn:Hs3; [discriminate |].
    cbn [String.length] in Hws3.
    destruct (byte.val e =? 0x7D) eqn:Hb3.
    + injection H as <- <-. split; [lia |]. intros [|f'] Hf'; [lia |].
      cbn [json.scan_members]. rewrite Hs, Hb1, Hkey. cbn [mbind option_bind].
      rewrite Hs1, Hb2, Hfv by lia. cbn [mbind option_bind].
      now rewrite Hs3, Hb3.
    + destruct (byte.val e =? 0x2C) eqn:Hb4; [| discriminate].
      destruct (json.scan_members f d s4) as [[ms' r]|] eqn:Hm; [| discriminate].
      cbn [mbind option_bind] in H. injection H as <- <-.
      apply IHm in Hm as [Hlm Hfm].
      split; [lia |]. intros [|f'] Hf'; [lia |].
      cbn [json.scan_members]. rewrite Hs, Hb1, Hkey. cbn [mbind option_bind].
      rewrite Hs1, Hb2, Hfv by lia. cbn [mbind option_bind].
      rewrite Hs3, Hb3, Hb4, Hfm by lia. reflexivity.
  - intros d s vs rest H. cbn [json.scan_elems] in H.
    destruct (json.scan_value f d s) as [[v s1]|] eqn:Hv; [| discriminate].
    cbn [mbind option_bind] in H.
    apply IHv in Hv as [Hlv Hfv].
    pose proof (length_skip_space s1) as Hws1.
    destruct (json.skip_space s1) as [|e s2] eqn:Hs1; [discriminate |].
    cbn [String.length] in Hws1.
    destruct (byte.val e =? 0x5D) eqn:Hb3.
    + injection H as <- <-. split; [lia |]. intros [|f'] Hf'; [lia |].
      cbn [json.scan_elems]. rewrite Hfv by lia. cbn [mbind option_bind].
      now rewrite Hs1, Hb3.
    + destruct (byte.val e =? 0x2C) eqn:Hb4; [| discriminate].
      destruct (json.scan_elems f d s2) as [[vs' r]|] eqn:He; [| discriminate].
      cbn [mbind option_bind] in H. injection H as <- <-.
      apply IHe in He as [Hle Hfe].
      split; [lia |]. intros [|f'] Hf'; [lia |].
      cbn [json.scan_elems]. rewrite Hfv by lia. cbn [mbind option_bind].
      rewrite Hs1, Hb3, Hb4, Hfe by lia. reflexivity.
Qed.

(** A text that the scanner accepts on some fuel, it accepts on the fuel
    that [checkValid] gives it: when [checkValid] rejects a text, the text
    is not a JSON value followed by white space. *)
Lemma checkValid_complete (f : nat) (data rest : string) (v : json.value) :
  json.scan_value f 0 data = Some (v, rest) ->
  json.skip_space rest = EmptyString ->
  json.checkValid data = Some v.
Proof.
  intros Hscan Hrest. unfold json.checkValid.
  destruct (scan_fuel f) as (Hv & _ & _).
  destruct (Hv 0 data v rest Hscan) as [Hlen Hfuel].
  rewrite Hfuel by lia. now rewrite Hrest.
Qed.

(** ** The configuration as JSON *)

Lemma Marshal_Config (c : Config.t) : Config.Marshal c = inl (config_text c).
Proof.
  unfold Config.Marshal, config_text, member, escaped, tag, quoted, json.appendString.
  f_equal.
  repeat first [rewrite append_assoc | progress cbn [String.append]].
  reflexivity.
Qed.

Lemma checkValid_Config (c : Config.t) :
  json.checkValid (config_text c)
  = Some (json.Object
            [("oauth-api", json.Str (escaped (Config.OAuthAPI c)));
             ("order-api", json.Str (escaped (Config.OrderAPI c)));
             ("client-id", json.Str (escaped (Config.ClientID c)));
             ("secret", json.Str (escaped (Config.Secret c)))]).
Proof.
  unfold json.checkValid.
  assert (Hfuel : exists f, (2 * String.length (config_text c) + 2)%nat
                            = S (S (S (S (S (S f)))))).
  { assert (Hlen : (2 <= String.length (config_text c))%nat).
    { unfold config_text, member at 1. cbn [String.length]. lia. }
    exists (2 * String.length (config_text c) + 2 - 6)%nat. lia. }
  destruct Hfuel as [f ->].
  unfold config_text.
  change (member "oauth-api") with (fun raw rest => member "oauth-api" raw rest).
  unfold member at 1. cbv beta.
  rewrite (scan_object _ _ EmptyString
             [("oauth-api", json.Str (escaped (Config.OAuthAPI c)));
              ("order-api", json.Str (escaped (Config.OrderAPI c)));
              ("client-id", json.Str (escaped (Config.ClientID c)));
              ("secret", json.Str (escaped (Config.Secret c)))]).
  - reflexivity.
  - assert (Hkey : forall key, In key ["oauth-api"; "order-api"; "client-id"; "secret"] ->
                               closed key).
    { intros key Hin rest. cbn [In] in Hin.
      repeat (destruct Hin as [<- | Hin]; [reflexivity |]). destruct Hin. }
    fold (member "oauth-api" (escaped (Config.OAuthAPI c))).
    apply (scan_member_more (S (S (S f)))); [apply Hkey; cbn; tauto | apply closed_escape |].
    apply (scan_member_more (S (S f))); [apply Hkey; cbn; tauto | apply closed_escape |].
    apply (scan_member_more (S f)); [apply Hkey; cbn; tauto | apply closed_escape |].
    apply (scan_member_last f); [apply Hkey; cbn; tauto | apply closed_escape].
Qed.

(** A member whose field is a string. *)
Lemma decode_members_string {S : Type} (fields : list (json.field S))
    (key key' nm : string) (get : S -> string) (set : string -> S -> S)
    (raw v : string) (ms : list (string * json.value)) (s : S) (saved : option error) :
  json.unquoteBytes key = Some key' ->
  json.find_field fields key' = Some (json.field_of nm get set json.decode_string) ->
  json.unquoteBytes raw = Some v ->
  json.decode_members fields ((key, json.Str raw) :: ms) s saved
  = json.decode_members fields ms (set v s) saved.
Proof.
  intros Hkey Hfield Hraw. cbn [json.decode_members].
  rewrite Hkey. cbn [from_option id]. rewrite Hfield.
  unfold json.field_of. cbn [json.store json.decode_string json.stop json.cur json.savedError].
  now rewrite Hraw.
Qed.

Lemma Unmarshal_Config (c : Config.t) :
  valid_utf8 c ->
  json.Unmarshal Config.decode (config_text c) Config.zero = (c, None).
Proof.
  intros (Ha & Hb & Hc & Hd).
  unfold json.Unmarshal. rewrite checkValid_Config.
  unfold Config.decode, json.decode_struct.
  erewrite decode_members_string;
    [| reflexivity | reflexivity | apply unquoteBytes_escape; exact Ha].
  erewrite decode_members_string;
    [| reflexivity | reflexivity | apply unquoteBytes_escape; exact Hb].
  erewrite decode_members_string;
    [| reflexivity | reflexivity | apply unquoteBytes_escape; exact Hc].
  erewrite decode_members_string;
    [| reflexivity | reflexivity | apply unquoteBytes_escape; exact Hd].
  cbn. now destruct c.
Qed.

(** ** Loading the configuration *)

Lemma Load_existing (fs : os.FS) (jsonPath data : string) :
  os.ReadFile fs jsonPath = (data, None) ->
  Load fs jsonPath =
    match json.Unmarshal Config.decode data Config.zero with
    | (_, Some e) => (fs, (None, Some e))
    | (config, None) =>
      match first_missing config with
      | Some field =>
        (fs, (None, Some (errorString ("missing " ++ field ++ " in paypal config file"))))
      | None => (fs, (Some config, None))
      end
    end.
Proof.
  intros Hread. unfold Load. rewrite Hread. cbn [os.IsNotExist].
  destruct (json.Unmarshal Config.decode data Config.zero) as [config [e|]];
    [reflexivity |].
  unfold first_missing.
  repeat match goal with
         | |- context [String.eqb ?a ?b] => destruct (String.eqb a b)
         end; reflexivity.
Qed.

Lemma first_missing_None (c : Config.t) : first_missing c = None <-> complete c.
Proof.
  unfold first_missing, complete.
  destruct (String.eqb_spec (Config.OAuthAPI c) EmptyString);
    destruct (String.eqb_spec (Config.OrderAPI c) EmptyString);
    destruct (String.eqb_spec (Config.ClientID c) EmptyString);
    destruct (String.eqb_spec (Config.Secret c) EmptyString);
    split; intros; try discriminate; try tauto.
Qed.

Lemma first_missing_Some (c : Config.t) (field : string) :
  first_missing c = Some field ->
  In field ["oauth-api"; "order-api"; "client-id"; "secret"].
Proof.
  unfold first_missing.
  repeat match goal with
         | |- context [String.eqb ?a ?b] => destruct (String.eqb a b)
         end; intros [= <-] || discriminate; cbn; tauto.
Qed.

(** C7. For a file that exists and is read: when its content does not
    decode, [Load] returns the decoder's error (the syntax error when the
    content is not JSON); when it decodes and one of the four fields is
    empty, [Load] returns the error that names the first empty field.  In
    both cases the configuration returned is nil and the file system is as
    it was. *)
Theorem Load_rejects (fs : os.FS) (jsonPath data : string) :
  os.ReadFile fs jsonPath = (data, None) ->
  (forall e, snd (json.Unmarshal Config.decode data Config.zero) = Some e ->
             Load fs jsonPath = (fs, (None, Some e)))
  /\ (json.checkValid data = None -> Load fs jsonPath = (fs, (None, Some SyntaxError)))
  /\ (forall c, json.Unmarshal Config.decode data Config.zero = (c, None) ->
                ~ complete c ->
                exists field,
                  In field ["oauth-api"; "order-api"; "client-id"; "secret"]
                  /\ first_missing c = Some field
                  /\ Load fs jsonPath
                     = (fs, (None, Some (errorString
                          ("missing " ++ field ++ " in paypal config file"))))).
Proof.
  intros Hread. rewrite (Load_existing _ _ _ Hread).
  split; [| split].
  - intros e He. destruct (json.Unmarshal _ _ _) as [c o]. cbn in He. now subst o.
  - intros Hbad. now rewrite Unmarshal_invalid.
  - intros c -> Hc.
    destruct (first_missing c) as [field|] eqn:Hfield.
    + exists field. split; [now apply first_missing_Some in Hfield | now split].
    + now apply first_missing_None in Hfield.
Qed.

(** A file holding a configuration without a secret. *)
Lemma Load_rejects_witness :
  Load (mock_os.with_file "paypal.json"
          (config_text (Config.mk "https://a" "https://b" "client" EmptyString)))
       "paypal.json"
  = (mock_os.with_file "paypal.json"
       (config_text (Config.mk "https://a" "https://b" "client" EmptyString)),
     (None, Some (errorString "missing secret in paypal config file"))).
Proof.
  pose (text := config_text (Config.mk "https://a" "https://b" "client" EmptyString)).
  destruct (Load_rejects (mock_os.with_file "paypal.json" text) "paypal.json" text eq_refl)
    as (_ & _ & Hfield).
  destruct (Hfield (Config.mk "https://a" "https://b" "client" EmptyString))
    as (field & _ & Hmissing & Hload).
  - reflexivity.
  - unfold complete. cbn. tauto.
  - injection Hmissing as <-. exact Hload.
Defined.

(** The claim C8 as it stands fails: a configuration with a byte that is
    not UTF-8 is marshalled with U+FFFD in its place, and [Load] returns that
    other configuration. *)
Lemma Load_round_trip_fails_on_invalid_utf8 :
  complete mock_os.latin1
  /\ Config.Marshal mock_os.latin1 = inl (config_text mock_os.latin1)
  /\ snd (Load (mock_os.with_file "paypal.json" (config_text mock_os.latin1)) "paypal.json")
     = (Some mock_os.latin1_replaced, None)
  /\ mock_os.latin1_replaced <> mock_os.latin1.
Proof.
  split; [| split; [| split]].
  - unfold complete. cbn. repeat split; discriminate.
  - apply Marshal_Config.
  - vm_compute. reflexivity.
  - discriminate.
Qed.

(** C8, amended. For every configuration whose four fields are not empty
    and are well-formed UTF-8, [Load] of a file that holds exactly its JSON
    serialization returns that configuration and no error, and leaves the
    file system as it was. *)
Theorem Load_round_trip (fs : os.FS) (jsonPath data : string) (c : Config.t) :
  complete c ->
  valid_utf8 c ->
  Config.Marshal c = inl data ->
  os.ReadFile fs jsonPath = (data, None) ->
  Load fs jsonPath = (fs, (Some c, None)).
Proof.
  intros Hcomplete Hvalid Hdata Hread.
  rewrite Marshal_Config in Hdata. injection Hdata as <-.
  rewrite (Load_existing _ _ _ Hread), (Unmarshal_Config c Hvalid).
  apply first_missing_None in Hcomplete. now rewrite Hcomplete.
Qed.

(** The round trip of the example configuration. *)
Lemma Load_round_trip_witness :
  Load (mock_os.with_file "paypal.json" (config_text mock.config)) "paypal.json"
  = (mock_os.with_file "paypal.json" (config_text mock.config), (Some mock.config, None)).
Proof.
  apply (Load_round_trip _ _ (config_text mock.config) mock.config).
  - unfold complete. cbn. repeat split; discriminate.
  - unfold valid_utf8. cbn. repeat split; reflexivity.
  - apply Marshal_Config.
  - reflexivity.
Defined.

(** The placeholder that [Create] writes decodes to the configuration with
    four empty fields. *)
Lemma placeholder_is_empty :
  Config.Marshal Config.zero = inl (config_text Config.zero)
  /\ json.Unmarshal Config.decode (config_text Config.zero) Config.zero
     = (Config.zero, None).
Proof.
  split; [apply Marshal_Config |].
  apply Unmarshal_Config. unfold valid_utf8. cbn. tauto.
Qed.

Lemma Load_missing (fs : os.FS) (jsonPath : string) :
  os.files fs !! jsonPath = None ->
  Load fs jsonPath =
    match os.create_fault fs jsonPath with
    | Some errno => (fs, (None, Some (PathError "open" jsonPath errno)))
    | None =>
      (os.mkFS (<[jsonPath := os.mkFile (config_text Config.zero) (os.octal 6 0 0)]>
                  (os.files fs))
               (os.create_fault fs),
       (None, Some (errorString ("created empty config file: " ++ jsonPath))))
    end.
Proof.
  intros Hnone. unfold Load, os.ReadFile. rewrite Hnone. cbn [os.IsNotExist].
  unfold Create. rewrite Marshal_Config. unfold os.WriteFile. rewrite Hnone.
  now destruct (os.create_fault fs jsonPath).
Qed.

(** The claim C4 as it stands fails: where no file can be created, [Load]
    of a path that does not exist writes nothing and returns the error of
    the write. *)
Lemma Load_missing_unwritable :
  os.files mock_os.unwritable !! "conf/paypal.json" = None
  /\ Load mock_os.unwritable "conf/paypal.json"
     = (mock_os.unwritable, (None, Some (PathError "open" "conf/paypal.json" ENOENT)))
  /\ os.files (fst (Load mock_os.unwritable "conf/paypal.json")) !! "conf/paypal.json" = None.
Proof.
  assert (Hnone : os.files mock_os.unwritable !! "conf/paypal.json" = None)
    by apply lookup_empty.
  split; [exact Hnone |].
  rewrite (Load_missing _ _ Hnone). cbn [os.create_fault mock_os.unwritable fst].
  split; [reflexivity | exact Hnone].
Qed.

(** C4, amended. For every path that does not exist and at which a file can
    be created, [Load] writes a file that holds the configuration with four
    empty fields, with mode 0600, and returns an error that names the path;
    the next [Load] of that path returns the error of the missing
    [oauth-api] field and writes nothing.  When the file cannot be created,
    [Load] writes nothing and returns the error of the write. *)
Theorem Load_creates_placeholder (fs : os.FS) (jsonPath : string) :
  os.files fs !! jsonPath = None ->
  (os.create_fault fs jsonPath = None ->
     exists placeholder,
       os.files (fst (Load fs jsonPath))
       = <[jsonPath := os.mkFile placeholder (os.octal 6 0 0)]> (os.files fs)
       /\ json.Unmarshal Config.decode placeholder Config.zero = (Config.zero, None)
       /\ (exists msg, snd (Load fs jsonPath) = (None, Some (errorString msg))
                       /\ occurs_in jsonPath msg)
       /\ Load (fst (Load fs jsonPath)) jsonPath
          = (fst (Load fs jsonPath),
             (None, Some (errorString "missing oauth-api in paypal config file"))))
  /\ (forall errno, os.create_fault fs jsonPath = Some errno ->
        Load fs jsonPath = (fs, (None, Some (PathError "open" jsonPath errno)))).
Proof.
  intros Hnone. rewrite (Load_missing _ _ Hnone).
  split.
  - intros Hok. rewrite Hok. cbn [fst snd os.files].
    exists (config_text Config.zero).
    split; [reflexivity |].
    split; [apply placeholder_is_empty |].
    split.
    + eexists. split; [reflexivity | apply occurs_in_end].
    + rewrite (Load_existing _ _ (config_text Config.zero)).
      * now rewrite (proj2 placeholder_is_empty).
      * unfold os.ReadFile. cbn [os.files]. now rewrite lookup_insert_eq.
  - intros errno Hfault. now rewrite Hfault.
Qed.

(** The placeholder in an empty directory, and the second [Load]. *)
Lemma Load_creates_placeholder_witness :
  Load (fst (Load mock_os.empty "paypal.json")) "paypal.json"
  = (fst (Load mock_os.empty "paypal.json"),
     (None, Some (errorString "missing oauth-api in paypal config file"))).
Proof.
  destruct (Load_creates_placeholder mock_os.empty "paypal.json" (lookup_empty _))
    as [Hcreate _].
  destruct (Hcreate eq_refl) as (placeholder & _ & _ & _ & Hsecond).
  exact Hsecond.
Defined.

(** The mode of the placeholder allows the owner to read and write, and
    nothing else. *)
Example placeholder_mode :
  map (Z.testbit (os.octal 6 0 0)) [8; 7; 6; 5; 4; 3; 2; 1; 0]
  = [true; true; false; false; false; false; false; false; false].
Proof. reflexivity. Qed.

(** ** [float64]: conversion and division *)

Lemma digits2_pos_log2 (p : positive) :
  Zpos (digits2_pos p) = Z.log2 (Zpos p) + 1.
Proof.
  induction p as [p IH | p IH |]; cbn [digits2_pos].
  - rewrite Pos2Z.inj_succ, IH. cbn [Z.log2]. destruct p; cbn; lia.
  - rewrite Pos2Z.inj_succ, IH. cbn [Z.log2]. destruct p; cbn; lia.
  - reflexivity.
Qed.

Lemma Zdigits2_bounds (q d : Z) :
  0 < d -> 2 ^ (d - 1) <= q < 2 ^ d -> Zdigits2 q = d.
Proof.
  intros Hd Hq.
  assert (Hpos : 0 < q) by (pose proof (Z.pow_pos_nonneg 2 (d - 1)); lia).
  destruct q as [|p|p]; try lia.
  cbn [Zdigits2]. rewrite digits2_pos_log2.
  rewrite (Z.log2_unique (Zpos p) (d - 1)); [lia | lia |].
  replace (Z.succ (d - 1)) with d by lia. exact Hq.
Qed.

Lemma iter_xO (p : positive) (k : positive) :
  Zpos (Pos.iter xO p k) = Zpos p * 2 ^ Zpos k.
Proof.
  revert p. induction k as [| k IH] using Pos.peano_ind; intros p.
  - cbn. lia.
  - rewrite Pos.iter_succ, Pos2Z.inj_xO, IH, Pos2Z.inj_succ, Z.pow_succ_r by lia. lia.
Qed.

Lemma shr_fexp_keep (m e : Z) (l : location) :
  Zdigits2 m = 53 -> -1074 <= e ->
  shr_fexp float64.prec float64.emax m e l = (shr_record_of_loc m l, e).
Proof.
  intros Hd He. unfold shr_fexp, fexp, emin, float64.prec, float64.emax. rewrite Hd.
  replace (Z.max (53 + e - 53) (3 - 1024 - 53) - e) with 0 by lia.
  reflexivity.
Qed.

Lemma shr_fexp_once (m e : Z) (l : location) :
  Zdigits2 m = 54 -> -1074 <= e ->
  shr_fexp float64.prec float64.emax m e l = (shr_1 (shr_record_of_loc m l), e + 1).
Proof.
  intros Hd He. unfold shr_fexp, fexp, emin, float64.prec, float64.emax. rewrite Hd.
  replace (Z.max (54 + e - 53) (3 - 1024 - 53) - e) with 1 by lia.
  reflexivity.
Qed.

Lemma shr_m_of_loc (m : Z) (l : location) : shr_m (shr_record_of_loc m l) = m.
Proof. now destruct l as [|[]]. Qed.

Lemma loc_of_record_of_loc (m : Z) (l : location) :
  loc_of_shr_record (shr_record_of_loc m l) = l.
Proof. now destruct l as [|[]]. Qed.

(** The location of the remainder of a division by an even number. *)
Lemma new_location_located (den r : Z) :
  Z.even den = true -> 0 <= r < den -> located r den (new_location den r).
Proof.
  intros Heven Hr. unfold new_location, new_location_even. rewrite Heven.
  destruct (Z.eqb_spec r 0) as [-> | Hnz]; [reflexivity |].
  destruct (Z.compare_spec (2 * r) den); cbn [located]; lia.
Qed.

(** One shift to the right: the mantissa is halved, and the bit shifted
    out joins the remainder, over twice the denominator. *)
Lemma shr_1_located (q num den : Z) (l : location) :
  2 <= q -> 0 <= num < den -> located num den l ->
  exists b,
    (b = 0 \/ b = 1)
    /\ q = 2 * shr_m (shr_1 (shr_record_of_loc q l)) + b
    /\ located (b * den + num) (2 * den)
         (loc_of_shr_record (shr_1 (shr_record_of_loc q l))).
Proof.
  intros Hq Hnum Hl.
  destruct q as [|[p|p|]|p]; try lia.
  - exists 1. split; [now right |].
    destruct l as [|[]]; cbn in *; (split; [lia |]); lia.
  - exists 0. split; [now left |].
    destruct l as [|[]]; cbn in *; (split; [lia |]); lia.
Qed.

(** Rounding to nearest, ties to even: the result is within one half of the
    mantissa plus its remainder. *)
Lemma round_nearest_even_located (m num den : Z) (l : location) :
  0 <= num < den -> located num den l ->
  m <= round_nearest_even m l <= m + 1
  /\ 2 * Z.abs (round_nearest_even m l * den - (m * den + num)) <= den.
Proof.
  intros Hnum Hl.
  destruct l as [|[]]; cbn [located round_nearest_even] in *;
    try destruct (Z.even m); split; nia.
Qed.

(** The last step of [binary_round_aux] on a mantissa of 53 bits, or on
    [2^53] after a carry. *)
Lemma round_finish (q e : Z) :
  2 ^ 52 <= q <= 2 ^ 53 -> -1074 <= e <= 970 ->
  exists M E,
    (let '(mrs, e'') := shr_fexp float64.prec float64.emax q e loc_Exact in
     match shr_m mrs with
     | Z0 => S754_zero false
     | Zpos m =>
       if Z.leb e'' (float64.emax - float64.prec) then S754_finite false m e''
       else S754_infinity false
     | Zneg _ => S754_nan
     end) = S754_finite false M E
    /\ e <= E <= e + 1
    /\ 2 ^ 52 <= Zpos M < 2 ^ 53
    /\ Zpos M * 2 ^ (E - e) = q.
Proof.
  intros Hq He.
  destruct (Z.ltb_spec q (2 ^ 53)) as [Hlt | Hge].
  - rewrite shr_fexp_keep by (try apply Zdigits2_bounds; lia).
    cbn [shr_record_of_loc shr_m].
    destruct q as [|p|p]; try lia.
    exists p, e. unfold float64.emax, float64.prec.
    replace (e <=? 1024 - 53) with true by lia.
    replace (e - e) with 0 by lia. split; [reflexivity | lia].
  - assert (q = 2 ^ 53) as -> by lia.
    rewrite shr_fexp_once by (try apply Zdigits2_bounds; lia).
    exists (Z.to_pos (2 ^ 52)), (e + 1). unfold float64.emax, float64.prec.
    cbn [shr_record_of_loc shr_1 shr_m Z.pow Z.pow_pos Pos.iter Z.mul Pos.mul].
    replace (e + 1 <=? 1024 - 53) with true by lia.
    replace (e + 1 - e) with 1 by lia.
    split; [reflexivity | split; [lia | split; [cbn; lia | reflexivity]]].
Qed.

(** [binary_round_aux] on a quotient [q] of 53 or 54 bits with remainder
    [r / den]: the result is a normal float [M * 2^E] within half a unit in
    its last place of [(q + r / den) * 2^e]. *)
Lemma round_aux_nearest (q e r den : Z) (l : location) :
  2 ^ 52 <= q < 2 ^ 54 -> -1074 <= e <= 960 ->
  0 <= r < den -> located r den l ->
  exists M E,
    binary_round_aux float64.prec float64.emax false q e l = S754_finite false M E
    /\ e <= E <= e + 2
    /\ 2 ^ 52 <= Zpos M < 2 ^ 53
    /\ 2 * Z.abs (Zpos M * 2 ^ (E - e) * den - (q * den + r)) <= 2 ^ (E - e) * den.
Proof.
  intros Hq He Hr Hl. unfold binary_round_aux.
  destruct (Z.ltb_spec q (2 ^ 53)) as [Hlt | Hge].
  - rewrite shr_fexp_keep by (try apply Zdigits2_bounds; lia).
    rewrite shr_m_of_loc, loc_of_record_of_loc.
    destruct (round_nearest_even_located q r den l Hr Hl) as [Hrange Hnear].
    destruct (round_finish (round_nearest_even q l) e) as (M & E & -> & HE & HN & HM);
      [lia | lia |].
    exists M, E. split; [reflexivity |]. split; [lia |]. split; [exact HN |].
    rewrite HM.
    assert (1 <= 2 ^ (E - e)) by (pose proof (Z.pow_pos_nonneg 2 (E - e)); lia).
    nia.
  - rewrite shr_fexp_once by (try apply Zdigits2_bounds; lia).
    destruct (shr_1_located q r den l ltac:(lia) Hr Hl) as (b & Hb & Hhalf & Hloc).
    set (mrs := shr_1 (shr_record_of_loc q l)) in *.
    destruct (round_nearest_even_located (shr_m mrs) (b * den + r) (2 * den)
                (loc_of_shr_record mrs)) as [Hrange Hnear]; [nia | exact Hloc |].
    destruct (round_finish (round_nearest_even (shr_m mrs) (loc_of_shr_record mrs)) (e + 1))
      as (M & E & -> & HE & HN & HM); [lia | lia |].
    exists M, E. split; [reflexivity |]. split; [lia |]. split; [exact HN |].
    replace (E - e) with (E - (e + 1) + 1) by lia.
    rewrite Z.pow_add_r by lia.
    assert (1 <= 2 ^ (E - (e + 1)))
      by (pose proof (Z.pow_pos_nonneg 2 (E - (e + 1))); lia).
    set (P := 2 ^ (E - (e + 1))) in *.
    set (R := round_nearest_even (shr_m mrs) (loc_of_shr_record mrs)) in *.
    change (2 ^ 1) with 2.
    replace (Zpos M * (P * 2) * den) with (R * (2 * den)) by (rewrite <- HM; ring).
    replace (q * den + r) with (shr_m mrs * (2 * den) + (b * den + r))
      by (rewrite Hhalf at 1; ring).
    nia.
Qed.

Lemma binary_round_aux_exact (m : positive) (e : Z) :
  Zdigits2 (Zpos m) = 53 -> -1074 <= e <= 971 ->
  binary_round_aux float64.prec float64.emax false (Zpos m) e loc_Exact
  = S754_finite false m e.
Proof.
  intros Hd He. unfold binary_round_aux.
  rewrite shr_fexp_keep by (assumption || lia).
  cbn [shr_record_of_loc shr_m loc_of_shr_record round_nearest_even].
  rewrite shr_fexp_keep by (assumption || lia).
  cbn [shr_record_of_loc shr_m].
  unfold float64.emax, float64.prec. now replace (e <=? 1024 - 53) with true by lia.
Qed.

(** The conversion of a positive integer below [2^53] is exact: the integer
    shifted to a mantissa of 53 bits. *)
Lemma of_int_exact (c d : Z) :
  0 < d <= 53 -> 2 ^ (d - 1) <= c < 2 ^ d ->
  exists m,
    float64.of_int c = S754_finite false m (d - 53)
    /\ Zpos m = c * 2 ^ (53 - d).
Proof.
  intros Hd Hc.
  assert (Hscaled : 2 ^ 52 <= c * 2 ^ (53 - d) < 2 ^ 53).
  { assert (P1 : 2 ^ 52 = 2 ^ (d - 1) * 2 ^ (53 - d))
      by (rewrite <- Z.pow_add_r by lia; f_equal; lia).
    assert (P2 : 2 ^ 53 = 2 ^ d * 2 ^ (53 - d))
      by (rewrite <- Z.pow_add_r by lia; f_equal; lia).
    rewrite P1, P2.
    pose proof (Z.pow_pos_nonneg 2 (53 - d) ltac:(lia) ltac:(lia)). nia. }
  pose proof (Zdigits2_bounds c d ltac:(lia) Hc) as Hdig.
  destruct c as [|p|p]; try (pose proof (Z.pow_pos_nonneg 2 (d - 1)); lia).
  cbn [Zdigits2] in Hdig.
  unfold float64.of_int, binary_normalize, binary_round.
  rewrite Hdig. unfold fexp at 1, emin, float64.prec at 1 2, float64.emax at 1.
  replace (Z.max (d + 0 - 53) (3 - 1024 - 53)) with (d - 53) by lia.
  unfold shl_align.
  destruct (d - 53 - 0) as [|k|k] eqn:Hk; try lia.
  - exists p. assert (d = 53) as -> by lia.
    rewrite binary_round_aux_exact; [split; [reflexivity | lia] | | lia].
    apply Zdigits2_bounds; lia.
  - exists (Pos.iter xO p k).
    assert (Hm : Zpos (Pos.iter xO p k) = Zpos p * 2 ^ (53 - d)).
    { rewrite iter_xO. f_equal. f_equal. lia. }
    rewrite binary_round_aux_exact; [split; [reflexivity | exact Hm] | | lia].
    apply Zdigits2_bounds; [lia |]. rewrite Hm. exact Hscaled.
Qed.

Lemma of_int_100 : float64.of_int 100 = S754_finite false 7036874417766400 (-46).
Proof. reflexivity. Qed.

(** The division of a normal float by [100.0] is correctly rounded: the
    result is a normal float [M * 2^E] within half a unit in its last place
    of the quotient [m1 * 2^53 / (100 * 2^46)] on the scale [2^(e1 - 7)]. *)
Lemma div_100_nearest (m1 : positive) (e1 : Z) :
  2 ^ 52 <= Zpos m1 < 2 ^ 53 -> -100 <= e1 <= 100 ->
  exists M E,
    float64.div (S754_finite false m1 e1) (float64.of_int 100) = S754_finite false M E
    /\ e1 - 7 <= E <= e1 - 5
    /\ 2 ^ 52 <= Zpos M < 2 ^ 53
    /\ 2 * Z.abs (Zpos M * 2 ^ (E - (e1 - 7)) * 7036874417766400 - Zpos m1 * 2 ^ 53)
       <= 2 ^ (E - (e1 - 7)) * 7036874417766400.
Proof.
  intros Hm He. rewrite of_int_100.
  unfold float64.div, SFdiv, SFdiv_core_binary.
  rewrite (Zdigits2_bounds (Zpos m1) 53) by lia.
  rewrite (Zdigits2_bounds 7036874417766400 53) by lia.
  unfold fexp, emin, float64.prec, float64.emax.
  replace (Z.min (Z.max (53 + e1 - (53 + -46) - 53) (3 - 1024 - 53)) (e1 - -46))
    with (e1 - 7) by lia.
  replace (e1 - -46 - (e1 - 7)) with 53 by lia.
  rewrite Z.shiftl_mul_pow2 by lia.
  pose proof (Z.div_eucl_eq (Zpos m1 * 2 ^ 53) 7036874417766400 ltac:(lia)) as Heq.
  pose proof (Z.mod_pos_bound (Zpos m1 * 2 ^ 53) 7036874417766400 ltac:(lia)) as Hr.
  unfold Z.modulo in Hr.
  destruct (Z.div_eucl (Zpos m1 * 2 ^ 53) 7036874417766400) as [q r].
  cbn [fst snd] in *.
  change (xorb false false) with false.
  destruct (round_aux_nearest q (e1 - 7) r 7036874417766400
              (new_location 7036874417766400 r))
    as (M & E & HR & HE & HN & HM); [lia | lia | exact Hr | |].
  - now apply new_location_located.
  - exists M, E. split; [exact HR |]. split; [lia |]. split; [exact HN |].
    rewrite Heq. replace (7036874417766400 * q + r) with (q * 7036874417766400 + r) by ring.
    exact HM.
Qed.

(** For every number of cents from 0 to 99 999 999, the amount
    [float64(euroCents) / 100.0] is a float nearest to [euroCents / 100], and
    the number of cents nearest to it is [euroCents]. *)
Lemma amount_value_nearest (euroCents : Z) :
  0 <= euroCents <= 99999999 ->
  nearest_to_cents (amount_value euroCents) euroCents
  /\ cents_of (amount_value euroCents) = Some euroCents.
Proof.
  intros Hrange.
  destruct (Z.eq_dec euroCents 0) as [-> | Hnz]; [split; [split |]; reflexivity |].
  set (d := Z.log2 euroCents + 1).
  assert (Hd : 0 < d <= 27).
  { pose proof (Z.log2_nonneg euroCents).
    assert (Z.log2 euroCents < 27) by (apply Z.log2_lt_pow2; lia). lia. }
  assert (Hc : 2 ^ (d - 1) <= euroCents < 2 ^ d).
  { subst d. replace (Z.log2 euroCents + 1 - 1) with (Z.log2 euroCents) by lia.
    pose proof (Z.log2_spec euroCents ltac:(lia)) as Hspec.
    now rewrite <- Z.add_1_r in Hspec. }
  destruct (of_int_exact euroCents d ltac:(lia) Hc) as (m1 & Hm1 & Hval).
  assert (Hnorm : 2 ^ 52 <= Zpos m1 < 2 ^ 53).
  { rewrite Hval.
    assert (P1 : 2 ^ 52 = 2 ^ (d - 1) * 2 ^ (53 - d))
      by (rewrite <- Z.pow_add_r by lia; f_equal; lia).
    assert (P2 : 2 ^ 53 = 2 ^ d * 2 ^ (53 - d))
      by (rewrite <- Z.pow_add_r by lia; f_equal; lia).
    rewrite P1, P2.
    pose proof (Z.pow_pos_nonneg 2 (53 - d) ltac:(lia) ltac:(lia)). nia. }
  destruct (div_100_nearest m1 (d - 53) Hnorm ltac:(lia))
    as (M & E & Hdiv & HE & HM & Hnear).
  unfold amount_value. rewrite Hm1, Hdiv.
  set (j := E - (d - 53 - 7)) in *.
  set (k := - E).
  assert (Hj : 0 <= j <= 2) by (subst j; lia).
  assert (Hk : 31 <= k) by (subst k; lia).
  assert (HP : 2 ^ 31 <= 2 ^ k) by (apply Z.pow_le_mono_r; lia).
  assert (HJ : 0 < 2 ^ j) by (apply Z.pow_pos_nonneg; lia).
  assert (Hscale : 2 ^ (53 - d) * 2 ^ 53 = 2 ^ k * (2 ^ j * 2 ^ 46)).
  { rewrite <- !Z.pow_add_r by lia. f_equal. subst j k. lia. }
  assert (Hcent : Z.abs (100 * Zpos M - euroCents * 2 ^ k) <= 50).
  { rewrite Hval in Hnear.
    replace (euroCents * 2 ^ (53 - d) * 2 ^ 53)
      with (euroCents * (2 ^ (53 - d) * 2 ^ 53)) in Hnear by ring.
    rewrite Hscale in Hnear.
    replace (Zpos M * 2 ^ j * 7036874417766400 - euroCents * (2 ^ k * (2 ^ j * 2 ^ 46)))
      with ((100 * Zpos M - euroCents * 2 ^ k) * (2 ^ j * 2 ^ 46)) in Hnear
      by (change 7036874417766400 with (100 * 2 ^ 46); ring).
    rewrite Z.abs_mul, (Z.abs_eq (2 ^ j * 2 ^ 46)) in Hnear by lia.
    change 7036874417766400 with (100 * 2 ^ 46) in Hnear.
    set (Y := 2 ^ j * 2 ^ 46) in *.
    assert (0 < Y) by (subst Y; lia).
    replace (2 ^ j * (100 * 2 ^ 46)) with (100 * Y) in Hnear by (subst Y; ring).
    nia. }
  split.
  - cbn [nearest_to_cents]. fold k. repeat split; try lia.
  - cbn [cents_of]. replace (0 <=? E) with false by lia. fold k. f_equal.
    symmetry.
    apply (Z.div_unique_pos _ _ euroCents (200 * Zpos M + 2 ^ k - 2 * 2 ^ k * euroCents));
      lia.
Qed.

(** C1. For every number of cents from 0 to 99 999 999, the value that
    [CreateOrder] puts in the amount of its purchase unit,
    [float64(euroCents) / 100.0], is a float nearest to [euroCents / 100]:
    zero for zero, and otherwise within half a unit in the last place of
    [euroCents / 100].  Read at two decimals it is [euroCents / 100]
    exactly: the nearest number of cents is [euroCents]. *)
Theorem amount_value_is_cents (description customID invoiceID : string)
    (euroCents : Z) (u : PurchaseUnit.t) :
  0 <= euroCents <= 99999999 ->
  In u (OrderRequest.PurchaseUnits
          (orderRequest description customID invoiceID euroCents)) ->
  Amount.Value (PurchaseUnit.Amount u) = amount_value euroCents
  /\ nearest_to_cents (Amount.Value (PurchaseUnit.Amount u)) euroCents
  /\ cents_of (Amount.Value (PurchaseUnit.Amount u)) = Some euroCents.
Proof.
  intros Hrange [<- | []]. cbn [PurchaseUnit.Amount Amount.Value].
  split; [reflexivity |]. now apply amount_value_nearest.
Qed.

(** One cent, the least amount that is not zero. *)
Lemma amount_value_is_cents_witness :
  cents_of (Amount.Value (PurchaseUnit.Amount
              (PurchaseUnit.mk (Amount.mk "EUR" (amount_value 1)) "d" "c" "i")))
  = Some 1.
Proof.
  refine (proj2 (proj2 (amount_value_is_cents "d" "c" "i" 1
                          (PurchaseUnit.mk (Amount.mk "EUR" (amount_value 1)) "d" "c" "i")
                          _ _))).
  - lia.
  - left. reflexivity.
Defined.

(** The conversion is one to one on the range: the cents are recovered
    from the amount. *)
Corollary amount_value_injective (c1 c2 : Z) :
  0 <= c1 <= 99999999 -> 0 <= c2 <= 99999999 ->
  amount_value c1 = amount_value c2 -> c1 = c2.
Proof.
  intros H1 H2 Heq.
  destruct (amount_value_nearest c1 H1) as [_ E1].
  destruct (amount_value_nearest c2 H2) as [_ E2].
  congruence.
Qed.

(** The examples of the specification: 1050 cents are the float 10.5 and
    100 cents the float 1, both exactly. *)
Example amount_value_1050 :
  amount_value 1050 = S754_finite false 5910974510923776 (-49)
  /\ exactly_cents (amount_value 1050) 1050.
Proof. split; reflexivity. Qed.

Example amount_value_100 :
  amount_value 100 = S754_finite false 4503599627370496 (-52)
  /\ exactly_cents (amount_value 100) 100.
Proof. split; reflexivity. Qed.

(** One cent is not a binary fraction: the amount is the float nearest to
    0.01, and reads as 0.01 at two decimals. *)
Example amount_value_1 :
  amount_value 1 = S754_finite false 5764607523034235 (-59)
  /\ ~ exactly_cents (amount_value 1) 1.
Proof. split; [reflexivity | discriminate]. Qed.

(** * Further properties of the package *)

(** ** [Load] and [Create] on the file system *)

Lemma ReadFile_cases (fs : os.FS) (name : string) :
  (os.files fs !! name = None
   /\ os.ReadFile fs name = (EmptyString, Some (PathError "open" name ENOENT)))
  \/ (exists f, os.files fs !! name = Some f /\ os.readable f = true
                /\ os.ReadFile fs name = (os.data f, None))
  \/ (exists f, os.files fs !! name = Some f /\ os.readable f = false
                /\ os.ReadFile fs name = (EmptyString, Some (PathError "open" name EACCES))).
Proof.
  unfold os.ReadFile. destruct (os.files fs !! name) as [f|]; [| now left].
  right. destruct (os.readable f) eqn:Hr; [left | right]; now exists f.
Qed.

Lemma Load_unreadable (fs : os.FS) (jsonPath : string) (f : os.File) :
  os.files fs !! jsonPath = Some f -> os.readable f = false ->
  Load fs jsonPath = (fs, (None, Some (PathError "open" jsonPath EACCES))).
Proof.
  intros Hf Hr. unfold Load, os.ReadFile. now rewrite Hf, Hr.
Qed.

(** X1. [Load] returns a configuration or an error, never both and never
    neither.  A configuration it returns is what the decoder made of a
    readable file at the path, its four fields are not empty, and the file
    system is as it was. *)
Theorem Load_config_or_error (fs : os.FS) (jsonPath : string) :
  match snd (Load fs jsonPath) with
  | (Some config, err) =>
      err = None /\ complete config /\ fst (Load fs jsonPath) = fs
      /\ exists f, os.files fs !! jsonPath = Some f /\ os.readable f = true
                   /\ json.Unmarshal Config.decode (os.data f) Config.zero = (config, None)
  | (None, err) => err <> None
  end.
Proof.
  destruct (ReadFile_cases fs jsonPath)
    as [[Hnone _] | [(f & Hf & Hr & Hread) | (f & Hf & Hr & _)]].
  - rewrite (Load_missing _ _ Hnone).
    now destruct (os.create_fault fs jsonPath).
  - rewrite (Load_existing _ _ _ Hread).
    destruct (json.Unmarshal Config.decode (os.data f) Config.zero) as [config [e|]] eqn:Hdec;
      [discriminate |].
    destruct (first_missing config) eqn:Hmiss; [discriminate |].
    cbn [fst snd]. apply first_missing_None in Hmiss.
    split; [reflexivity |]. split; [exact Hmiss |]. split; [reflexivity |].
    now exists f.
  - now rewrite (Load_unreadable _ _ _ Hf Hr).
Qed.

(** X2. [Load] writes at a path that does not exist, and nowhere else: a file
    at the path is left as it is whatever it holds and whoever may read it,
    and so is every file at another path. *)
Theorem Load_writes_only_at_missing_path (fs : os.FS) (jsonPath : string) :
  (os.files fs !! jsonPath <> None -> fst (Load fs jsonPath) = fs)
  /\ (forall other, other <> jsonPath ->
        os.files (fst (Load fs jsonPath)) !! other = os.files fs !! other)
  /\ os.create_fault (fst (Load fs jsonPath)) = os.create_fault fs.
Proof.
  destruct (ReadFile_cases fs jsonPath)
    as [[Hnone _] | [(f & Hf & Hr & Hread) | (f & Hf & Hr & _)]].
  - rewrite (Load_missing _ _ Hnone).
    destruct (os.create_fault fs jsonPath); cbn [fst os.files os.create_fault].
    + repeat split; congruence.
    + split; [congruence |]. split; [| reflexivity].
      intros other Hother. now rewrite lookup_insert_ne.
  - rewrite (Load_existing _ _ _ Hread).
    destruct (json.Unmarshal Config.decode (os.data f) Config.zero) as [config [e|]];
      [now repeat split |].
    destruct (first_missing config); now repeat split.
  - rewrite (Load_unreadable _ _ _ Hf Hr). now repeat split.
Qed.


(** A configuration file that [Create] is called on is overwritten. *)
Example Create_overwrites_configuration :
  snd (Load (mock_os.with_file "paypal.json" (config_text mock.config)) "paypal.json")
  = (Some mock.config, None)
  /\ snd (Load (fst (Create (mock_os.with_file "paypal.json" (config_text mock.config))
                            "paypal.json"))
               "paypal.json")
     = (None, Some (errorString "missing oauth-api in paypal config file")).
Proof. split; vm_compute; reflexivity. Qed.

(** ** The three calls: results, errors and requests *)

(** All the ways through the body of a call. *)
Ltac call_cases :=
  repeat match goal with
         | |- context [match ?o with Some _ => _ | None => _ end] =>
             is_var o; destruct o
         | _ => call_step
         end.

(** X4. No call returns a nil result together with a nil error: when the error
    is nil, the result is there. *)
Theorem calls_never_return_nil_nil `{Env} (config : Config.t) :
  snd (Auth config) <> (None, None)
  /\ (forall auth description customID invoiceID euroCents,
        snd (CreateOrder config auth description customID invoiceID euroCents)
        <> Returned (None, None))
  /\ (forall auth orderID, snd (Capture config auth orderID) <> Returned (None, None)).
Proof.
  split; [| split]; intros; unfold Auth, CreateOrder, Capture, NewRequest;
    call_cases; cbn; congruence.
Qed.

(** X5. A call returns a result only when the client has answered its one
    request with the expected status (200 for [Auth], 201 for [CreateOrder]
    and [Capture]) and the body has been read to its end; the result and
    the error are then what the decoder makes of the body. *)
Theorem results_come_from_expected_status `{Env} (config : Config.t) :
  (forall r err, snd (Auth config) = (Some r, err) ->
     exists req resp body,
       fst (Auth config) = [req] /\ client_Do client req = inl resp
       /\ http.StatusCode resp = http.StatusOK /\ http.Body resp = (body, None)
       /\ json.Unmarshal AuthResult.decode body AuthResult.zero = (r, err))
  /\ (forall auth description customID invoiceID euroCents r err,
       snd (CreateOrder config auth description customID invoiceID euroCents)
       = Returned (Some r, err) ->
       exists req resp body,
         fst (CreateOrder config auth description customID invoiceID euroCents) = [req]
         /\ client_Do client req = inl resp
         /\ http.StatusCode resp = http.StatusCreated /\ http.Body resp = (body, None)
         /\ json.Unmarshal GenerateOrderResponse.decode body GenerateOrderResponse.zero
            = (r, err))
  /\ (forall auth orderID r err,
       snd (Capture config auth orderID) = Returned (Some r, err) ->
       exists req resp body,
         fst (Capture config auth orderID) = [req]
         /\ client_Do client req = inl resp
         /\ http.StatusCode resp = http.StatusCreated /\ http.Body resp = (body, None)
         /\ json.Unmarshal CaptureResponse.decode body CaptureResponse.zero = (r, err)).
Proof.
  split; [| split]; intros until err; unfold Auth, CreateOrder, Capture, NewRequest;
    call_cases; cbn [fst snd]; try discriminate;
    intros [= <- <-]; do 3 eexists; repeat split; eassumption.
Qed.

(** X6. A failure of the transport and a failure while the body is read are
    returned as they are, with a nil result. *)
Theorem transport_errors_are_returned `{Env} (config : Config.t) :
  (forall req, fst (Auth config) = [req] ->
     (forall e, client_Do client req = inr e -> snd (Auth config) = (None, Some e))
     /\ (forall resp read e, client_Do client req = inl resp ->
           http.Body resp = (read, Some e) -> snd (Auth config) = (None, Some e)))
  /\ (forall auth description customID invoiceID euroCents req,
       fst (CreateOrder config auth description customID invoiceID euroCents) = [req] ->
       (forall e, client_Do client req = inr e ->
          snd (CreateOrder config auth description customID invoiceID euroCents)
          = Returned (None, Some e))
       /\ (forall resp read e, client_Do client req = inl resp ->
             http.Body resp = (read, Some e) ->
             snd (CreateOrder config auth description customID invoiceID euroCents)
             = Returned (None, Some e)))
  /\ (forall auth orderID req,
       fst (Capture config auth orderID) = [req] ->
       (forall e, client_Do client req = inr e ->
          snd (Capture config auth orderID) = Returned (None, Some e))
       /\ (forall resp read e, client_Do client req = inl resp ->
             http.Body resp = (read, Some e) ->
             snd (Capture config auth orderID) = Returned (None, Some e))).
Proof.
  split; [| split].
  - intros req Htrace. apply Auth_sent in Htrace as [Hurl ->].
    split; [intros e Hdo | intros resp read e Hdo Hbody];
      unfold Auth, NewRequest; rewrite Hurl; fold (Auth_request config);
      rewrite Hdo; [| rewrite Hbody]; reflexivity.
  - intros auth description customID invoiceID euroCents req Htrace.
    apply CreateOrder_sent in Htrace as (a & orJson & -> & Hjson & Hurl & ->).
    split; [intros e Hdo | intros resp read e Hdo Hbody];
      unfold CreateOrder, NewRequest; rewrite Hjson, Hurl;
      fold (bearer (Config.OrderAPI config) (Some orJson) a);
      fold (CreateOrder_request config a orJson);
      rewrite Hdo; [| rewrite Hbody]; reflexivity.
  - intros auth orderID req Htrace.
    apply Capture_sent in Htrace as (a & -> & Hurl & ->).
    split; [intros e Hdo | intros resp read e Hdo Hbody];
      unfold Capture, NewRequest; rewrite Hurl;
      fold (bearer (capture_url config orderID) None a);
      fold (Capture_request config a orderID);
      rewrite Hdo; [| rewrite Hbody]; reflexivity.
Qed.

(** A connection that is refused: [Auth] returns the error of the client. *)
Lemma transport_errors_are_returned_witness :
  snd (Auth (H := mock.env (inr (urlError "Post" "https://api.example.com/v1/oauth2/token" "connection refused"))) mock.config)
  = (None, Some (urlError "Post" "https://api.example.com/v1/oauth2/token" "connection refused")).
Proof.
  pose (E := mock.env (inr (urlError "Post" "https://api.example.com/v1/oauth2/token" "connection refused"))).
  destruct (transport_errors_are_returned (H := E) mock.config) as (Hauth & _ & _).
  destruct (Hauth (Auth_request mock.config) eq_refl) as [Hdo _].
  exact (Hdo _ eq_refl).
Defined.

Lemma Accept_bearer `{Env} (url : string) (body : option string) (a : AuthResult.t) :
  http.Header (bearer url body a) !! "Accept" = Some ["application/json"].
Proof.
  unfold bearer, http.AddHeader, http.Header_Add. cbn [http.Header].
  rewrite !lookup_insert_ne by discriminate.
  rewrite lookup_insert_eq. now rewrite lookup_empty.
Qed.

(** X7. No call tries twice: a call hands the client one request at most, a
    [POST] that accepts JSON. *)
Theorem calls_send_one_POST_at_most `{Env} (config : Config.t) :
  single_POST (fst (Auth config))
  /\ (forall auth description customID invoiceID euroCents,
        single_POST (fst (CreateOrder config auth description customID invoiceID euroCents)))
  /\ (forall auth orderID, single_POST (fst (Capture config auth orderID))).
Proof.
  assert (Hnil : single_POST []) by (split; [cbn; lia | intros ? []]).
  assert (Hone : forall req,
            http.Method req = http.MethodPost ->
            http.Header req !! "Accept" = Some ["application/json"] ->
            single_POST [req]).
  { intros req Hm Ha. split; [cbn; lia |]. now intros ? [<- | []]. }
  split; [| split].
  - destruct (url_Parse (Config.OAuthAPI config)) eqn:Hurl.
    + unfold Auth, NewRequest. now rewrite Hurl.
    + rewrite (Auth_sends _ Hurl). apply Hone; [reflexivity |].
      unfold Auth_request, http.SetBasicAuth, http.Header_Set, http.AddHeader,
        http.Header_Add. cbn [http.Header].
      rewrite lookup_insert_ne by discriminate.
      rewrite lookup_insert_eq. now rewrite lookup_empty.
  - intros auth description customID invoiceID euroCents.
    destruct (OrderRequest.Marshal (orderRequest description customID invoiceID euroCents))
      as [orJson|e] eqn:Hjson;
      [| unfold CreateOrder; now rewrite Hjson].
    destruct (url_Parse (Config.OrderAPI config)) eqn:Hurl;
      [unfold CreateOrder, NewRequest; now rewrite Hjson, Hurl |].
    destruct auth as [a|];
      [| unfold CreateOrder, NewRequest; now rewrite Hjson, Hurl].
    rewrite (CreateOrder_sends _ _ _ _ _ _ _ Hjson Hurl).
    apply Hone; [reflexivity | apply Accept_bearer].
  - intros auth orderID.
    destruct (url_Parse (capture_url config orderID)) eqn:Hurl;
      [unfold Capture, NewRequest; now rewrite Hurl |].
    destruct auth as [a|]; [| unfold Capture, NewRequest; now rewrite Hurl].
    rewrite (Capture_sends _ _ _ Hurl).
    apply Hone; [reflexivity | apply Accept_bearer].
Qed.

(** ** JSON documents and the scanner *)

Lemma write_array (j0 : doc) (js : list doc) (rest : string) :
  write (DArr (j0 :: js)) rest = String "[" (write j0 (write_elems js rest)).
Proof.
  cbn [write]. do 2 f_equal.
  induction js as [|j js IH]; [reflexivity |]. cbn [write_elems]. now rewrite IH.
Qed.

Lemma write_object (k0 : string) (j0 : doc) (ms : list (string * doc)) (rest : string) :
  write (DObj ((k0, j0) :: ms)) rest
  = String "{" (write_member k0 j0 (write_members ms rest)).
Proof.
  cbn [write]. unfold write_member. do 6 f_equal.
  induction ms as [|[k j] ms IH]; [reflexivity |].
  cbn [write_members fst snd]. unfold write_member. now rewrite IH.
Qed.

(** The first byte of a text is not white space and closes nothing. *)
Lemma write_head (j : doc) (rest : string) :
  numbers_ok j ->
  exists c t, write j rest = String c t
              /\ json.is_space c = false
              /\ byte.val c <> 0x5D /\ byte.val c <> 0x7D.
Proof.
  destruct j as [|[|]|lit|s|[|j0 js]|[|[k0 j0] ms]]; intros Hok;
    try (cbn [write String.append]; do 2 eexists; split; [reflexivity |];
         repeat split; try reflexivity; intros E; vm_compute in E; discriminate).
  - cbn [numbers_ok] in Hok. destruct Hok as [(c & t & -> & Hc) _].
    cbn [write String.append].
    exists c, (t ++ rest). split; [reflexivity |].
    unfold json.is_space, json.is_digit, byte.in_range in *. lia.
Qed.

Lemma scan_number_value (f : nat) (d : Z) (lit rest : string) :
  number_literal lit -> delimited rest ->
  json.scan_value (S f) d (lit ++ rest) = Some (json.Number lit, rest).
Proof.
  intros [(c & t & -> & Hc) Hscan] Hrest.
  specialize (Hscan rest Hrest). cbn [String.append] in *.
  cbn [json.scan_value json.skip_space].
  replace (json.is_space c) with false
    by (unfold json.is_space, json.is_digit, byte.in_range in *; lia).
  unfold json.is_digit, byte.in_range in Hc.
  repeat match goal with
         | |- context [if byte.val c =? ?k then _ else _] =>
             replace (byte.val c =? k) with false by lia
         end.
  now rewrite Hscan.
Qed.

Lemma scanned_elems (js : list doc) :
  Forall (fun j => numbers_ok j -> scanned j) js ->
  forall (j0 : doc) (d : Z) (rest : string),
    (numbers_ok j0 -> scanned j0) ->
    numbers_ok (DArr (j0 :: js)) ->
    0 <= d -> d + nesting (DArr (j0 :: js)) <= json.maxNestingDepth + 1 ->
    exists f0, forall f, (f0 <= f)%nat ->
      json.scan_elems f d (write j0 (write_elems js rest))
      = Some (map tree (j0 :: js), rest).
Proof.
  induction 1 as [|j1 js Hj1 Hjs IH]; intros j0 d rest Hj0 Hok Hd Hdepth.
  - cbn [numbers_ok fold_right nesting] in Hok, Hdepth. destruct Hok as [Hok0 _].
    destruct (Hj0 Hok0 d (String "]" rest)) as [f0 Hf0];
      [lia | lia | cbn; tauto |].
    exists (S f0). intros [|f] Hf; [lia |].
    cbn [json.scan_elems write_elems]. rewrite Hf0 by lia.
    reflexivity.
  - cbn [numbers_ok fold_right nesting] in Hok, Hdepth. destruct Hok as [Hok0 Hok1].
    destruct (Hj0 Hok0 d (String "," (write j1 (write_elems js rest)))) as [f0 Hf0];
      [lia | lia | cbn; tauto |].
    destruct (IH j1 d rest Hj1) as [f1 Hf1];
      [exact Hok1 | lia | cbn [nesting fold_right]; lia |].
    exists (S (max f0 f1)). intros [|f] Hf; [lia |].
    cbn [json.scan_elems write_elems]. rewrite Hf0 by lia.
    cbn [mbind option_bind json.skip_space].
    change (json.is_space ",") with false. cbv iota.
    change (byte.val "," =? 0x5D) with false. change (byte.val "," =? 0x2C) with true.
    cbv iota. rewrite Hf1 by lia. reflexivity.
Qed.

Lemma scanned_members (ms : list (string * doc)) :
  Forall (fun m => numbers_ok (snd m) -> scanned (snd m)) ms ->
  forall (k0 : string) (j0 : doc) (d : Z) (rest : string),
    (numbers_ok j0 -> scanned j0) ->
    numbers_ok (DObj ((k0, j0) :: ms)) ->
    0 <= d -> d + nesting (DObj ((k0, j0) :: ms)) <= json.maxNestingDepth + 1 ->
    exists f0, forall f, (f0 <= f)%nat ->
      json.scan_members f d (write_member k0 j0 (write_members ms rest))
      = Some (map (fun m => (escaped (fst m), tree (snd m))) ((k0, j0) :: ms), rest).
Proof.
  induction 1 as [|[k1 j1] ms Hj1 Hms IH]; intros k0 j0 d rest Hj0 Hok Hd Hdepth.
  - cbn [numbers_ok fold_right nesting snd] in Hok, Hdepth. destruct Hok as [Hok0 _].
    destruct (Hj0 Hok0 d (String "}" rest)) as [f0 Hf0];
      [lia | lia | cbn; tauto |].
    exists (S f0). intros [|f] Hf; [lia |].
    unfold write_member. cbn [json.scan_members json.skip_space write_members].
    change (json.is_space byte.quote) with false. cbv iota.
    change (byte.val byte.quote =? 0x22) with true. cbv iota.
    unfold escaped at 1. rewrite closed_escape. cbn [mbind option_bind json.skip_space].
    change (json.is_space ":") with false. cbv iota.
    change (byte.val ":" =? 0x3A) with true. cbv iota.
    rewrite Hf0 by lia. reflexivity.
  - cbn [numbers_ok fold_right nesting snd] in Hok, Hdepth. destruct Hok as [Hok0 Hok1].
    cbn [snd] in Hj1.
    destruct (Hj0 Hok0 d (String "," (write_member k1 j1 (write_members ms rest))))
      as [f0 Hf0]; [lia | lia | cbn; tauto |].
    destruct (IH k1 j1 d rest Hj1) as [f1 Hf1];
      [exact Hok1 | lia | cbn [nesting fold_right snd]; lia |].
    exists (S (max f0 f1)). intros [|f] Hf; [lia |].
    cbn [write_members fst snd]. unfold write_member at 1.
    cbn [json.scan_members json.skip_space].
    change (json.is_space byte.quote) with false. cbv iota.
    change (byte.val byte.quote =? 0x22) with true. cbv iota.
    unfold escaped at 1. rewrite closed_escape. cbn [mbind option_bind json.skip_space].
    change (json.is_space ":") with false. cbv iota.
    change (byte.val ":" =? 0x3A) with true. cbv iota.
    rewrite Hf0 by lia.
    cbn [mbind option_bind json.skip_space].
    change (json.is_space ",") with false. cbv iota.
    change (byte.val "," =? 0x7D) with false. change (byte.val "," =? 0x2C) with true.
    cbv iota. rewrite Hf1 by lia. reflexivity.
Qed.

(** The scanner reads the text of every document whose numbers are number
    literals as the value of the document. *)
Lemma scan_write (j : doc) : numbers_ok j -> scanned j.
Proof.
  induction j as [|b|lit|s|js IH|ms IH] using doc_ind; intros Hok d rest Hd Hdepth Hrest.
  - exists 1%nat. intros [|f] Hf; [lia | reflexivity].
  - exists 1%nat. intros [|f] Hf; [lia |]. now destruct b.
  - exists 1%nat. intros [|f] Hf; [lia |]. now apply scan_number_value.
  - exists 1%nat. intros [|f] Hf; [lia |]. apply scan_string_value, closed_escape.
  - destruct js as [|j0 js].
    + exists 1%nat. intros [|f] Hf; [lia |].
      cbn [write String.append json.scan_value json.skip_space].
      change (json.is_space "[") with false. cbv iota.
      change (byte.val "[" =? 0x7B) with false. change (byte.val "[" =? 0x5B) with true.
      cbv iota. cbn [nesting fold_right] in Hdepth.
      replace (json.maxNestingDepth <? d + 1) with false by lia.
      reflexivity.
    + apply Forall_cons in IH as [Hj0 Hjs].
      destruct (scanned_elems js Hjs j0 (d + 1) rest Hj0 Hok) as [f0 Hf0]; [lia | lia |].
      destruct (write_head j0 (write_elems js rest)) as (c & t & Hw & Hsp & Hc1 & Hc2);
        [cbn [numbers_ok fold_right] in Hok; tauto |].
      exists (S f0). intros [|f] Hf; [lia |].
      rewrite write_array. cbn [json.scan_value json.skip_space].
      change (json.is_space "[") with false. cbv iota.
      change (byte.val "[" =? 0x7B) with false. change (byte.val "[" =? 0x5B) with true.
      cbv iota. cbn [nesting] in Hdepth.
      assert (0 <= fold_right (fun j n => Z.max (nesting j) n) 0 (j0 :: js)).
      { clear. induction (j0 :: js); cbn [fold_right]; lia. }
      replace (json.maxNestingDepth <? d + 1) with false by lia.
      rewrite Hw. cbn [json.skip_space]. rewrite Hsp.
      replace (byte.val c =? 0x5D) with false by lia.
      rewrite <- Hw. rewrite Hf0 by lia. reflexivity.
  - destruct ms as [|[k0 j0] ms].
    + exists 1%nat. intros [|f] Hf; [lia |].
      cbn [write String.append json.scan_value json.skip_space].
      change (json.is_space "{") with false. cbv iota.
      change (byte.val "{" =? 0x7B) with true.
      cbv iota. cbn [nesting fold_right] in Hdepth.
      replace (json.maxNestingDepth <? d + 1) with false by lia.
      reflexivity.
    + apply Forall_cons in IH as [Hj0 Hms]. cbn [snd] in Hj0.
      destruct (scanned_members ms Hms k0 j0 (d + 1) rest Hj0 Hok) as [f0 Hf0];
        [lia | lia |].
      exists (S f0). intros [|f] Hf; [lia |].
      rewrite write_object. cbn [json.scan_value json.skip_space].
      change (json.is_space "{") with false. cbv iota.
      change (byte.val "{" =? 0x7B) with true.
      cbv iota. cbn [nesting] in Hdepth.
      assert (0 <= fold_right (fun m n => Z.max (nesting (snd m)) n) 0 ((k0, j0) :: ms)).
      { clear. induction ((k0, j0) :: ms); cbn [fold_right]; lia. }
      replace (json.maxNestingDepth <? d + 1) with false by lia.
      unfold write_member at 1. cbn [json.skip_space].
      change (json.is_space byte.quote) with false. cbv iota.
      change (byte.val byte.quote =? 0x7D) with false. cbv iota.
      fold (write_member k0 j0 (write_members ms rest)).
      rewrite Hf0 by lia. reflexivity.
Qed.

(** [checkValid] accepts the text of a document, and gives its value. *)
Lemma checkValid_text (j : doc) :
  numbers_ok j -> nesting j <= json.maxNestingDepth ->
  json.checkValid (text j) = Some (tree j).
Proof.
  intros Hok Hdepth.
  destruct (scan_write j Hok 0 EmptyString) as [f0 Hf0]; [lia | lia | exact I |].
  apply (checkValid_complete f0 _ EmptyString); [| reflexivity].
  now apply Hf0.
Qed.

(** ** Integers in decimal *)

Lemma digit_char (n : Z) :
  0 <= n ->
  json.is_digit (byte.of_Z (0x30 + n mod 10)) = true
  /\ byte.val (byte.of_Z (0x30 + n mod 10)) = 0x30 + n mod 10.
Proof.
  intros Hn. pose proof (Z.mod_pos_bound n 10 ltac:(lia)) as Hm.
  assert (Hv : byte.val (byte.of_Z (0x30 + n mod 10)) = 0x30 + n mod 10)
    by (apply byte_val_of; lia).
  split; [| exact Hv]. unfold json.is_digit, byte.in_range. rewrite Hv. lia.
Qed.

Lemma digits_acc (f : nat) : forall (n : Z) (acc : string),
  digits f n acc = digits f n EmptyString ++ acc.
Proof.
  induction f as [|f IH]; intros n acc; [reflexivity |].
  cbn [digits]. destruct (n <? 10); [reflexivity |].
  rewrite (IH _ (String _ acc)), (IH _ (String _ EmptyString)).
  now rewrite append_assoc.
Qed.

Lemma span_digits_digits (f : nat) : forall (n : Z) (acc : string),
  0 <= n ->
  json.span_digits (digits f n acc)
  = (digits f n (json.span_digits acc).1, (json.span_digits acc).2).
Proof.
  induction f as [|f IH]; intros n acc Hn.
  - cbn [digits]. now destruct (json.span_digits acc).
  - cbn [digits]. destruct (digit_char n Hn) as [Hd _].
    assert (Hstep : json.span_digits (String (byte.of_Z (0x30 + n mod 10)) acc)
                    = (String (byte.of_Z (0x30 + n mod 10)) (json.span_digits acc).1,
                       (json.span_digits acc).2)).
    { cbn [json.span_digits]. rewrite Hd. now destruct (json.span_digits acc). }
    destruct (n <? 10); [exact Hstep |].
    rewrite IH by (apply Z.div_pos; lia). now rewrite Hstep.
Qed.

Lemma digits_head (f : nat) : forall (n : Z) (acc : string),
  0 < n < 2 ^ Z.of_nat f ->
  exists c t, digits f n acc = String c t
              /\ json.is_digit c = true /\ byte.val c <> 0x30.
Proof.
  induction f as [|f IH]; intros n acc Hn; [cbn in Hn; lia |].
  cbn [digits]. destruct (Z.ltb_spec n 10) as [Hlt | Hge].
  - destruct (digit_char n ltac:(lia)) as [Hd Hv].
    do 2 eexists. split; [reflexivity |]. split; [exact Hd |].
    rewrite Hv, Z.mod_small by lia. lia.
  - apply IH. rewrite Nat2Z.inj_succ, Z.pow_succ_r in Hn by lia.
    split; [apply Z.div_str_pos; lia |].
    apply Z.div_lt_upper_bound; lia.
Qed.

Lemma digits_value_app (s t : string) : forall a : Z,
  json.digits_value a (s ++ t)
  = match json.digits_value a s with
    | Some v => json.digits_value v t
    | None => None
    end.
Proof.
  induction s as [|c s IH]; intros a; [reflexivity |].
  cbn [String.append json.digits_value]. destruct (json.is_digit c); [apply IH | reflexivity].
Qed.

Lemma digits_value_digits (f : nat) : forall n : Z,
  0 <= n < 2 ^ Z.of_nat f -> (0 < f)%nat ->
  json.digits_value 0 (digits f n EmptyString) = Some n.
Proof.
  induction f as [|f IH]; intros n Hn Hf; [lia |].
  cbn [digits]. destruct (digit_char n ltac:(lia)) as [Hd Hv].
  destruct (Z.ltb_spec n 10) as [Hlt | Hge].
  - cbn [json.digits_value]. rewrite Hd, Hv, Z.mod_small by lia. f_equal. lia.
  - rewrite digits_acc, digits_value_app.
    rewrite Nat2Z.inj_succ, Z.pow_succ_r in Hn by lia.
    assert (Hq : 0 < n / 10 < 2 ^ Z.of_nat f).
    { split; [apply Z.div_str_pos; lia | apply Z.div_lt_upper_bound; lia]. }
    destruct f as [|f]; [cbn in Hq; lia |].
    rewrite IH by lia.
    cbn [json.digits_value]. rewrite Hd, Hv. f_equal.
    pose proof (Z.div_mod n 10 ltac:(lia)). lia.
Qed.

Lemma log2_fuel (n : Z) : 0 <= n -> n < 2 ^ Z.of_nat (S (Z.to_nat (Z.log2 n))).
Proof.
  intros Hn. rewrite Nat2Z.inj_succ, Z2Nat.id by apply Z.log2_nonneg.
  destruct (Z.eq_dec n 0) as [-> | Hnz]; [reflexivity |].
  apply Z.log2_spec. lia.
Qed.

Lemma span_digits_delimited (rest : string) :
  delimited rest -> json.span_digits rest = (EmptyString, rest).
Proof.
  destruct rest as [|c t]; [reflexivity |]. cbn [delimited json.span_digits].
  intros Hc. replace (json.is_digit c) with false; [reflexivity |].
  unfold json.is_digit, byte.in_range. lia.
Qed.

(** The literal of an integer is a number literal. *)
Lemma number_literal_itoa (n : Z) : number_literal (itoa n).
Proof.
  assert (Hnat : forall m rest, 0 <= m -> delimited rest ->
            exists c t,
              digits (S (Z.to_nat (Z.log2 m))) m EmptyString = String c t
              /\ json.is_digit c = true
              /\ json.scan_int (String c t ++ rest) = Some (String c t, rest)).
  { intros m rest Hm Hrest.
    pose proof (span_digits_digits (S (Z.to_nat (Z.log2 m))) m rest Hm) as Hspan.
    rewrite (span_digits_delimited rest Hrest) in Hspan. cbn [fst snd] in Hspan.
    rewrite digits_acc in Hspan.
    destruct (Z.eq_dec m 0) as [-> | Hnz].
    - exists "0"%char, EmptyString. repeat split.
    - destruct (digits_head (S (Z.to_nat (Z.log2 m))) m EmptyString) as (c & t & Hw & Hd & Hz).
      { split; [lia | now apply log2_fuel]. }
      exists c, t. split; [exact Hw |]. split; [exact Hd |].
      rewrite Hw in Hspan. cbn [String.append json.span_digits] in Hspan.
      rewrite Hd in Hspan. cbn [String.append json.scan_int].
      replace (byte.val c =? 0x30) with false by lia. rewrite Hd.
      destruct (json.span_digits (t ++ rest)) as [ds r].
      injection Hspan as -> ->. reflexivity. }
  assert (Htail : forall rest, delimited rest ->
            json.scan_frac rest = Some (EmptyString, rest)
            /\ json.scan_exp rest = Some (EmptyString, rest)).
  { intros [|c t] Hrest; [now split |]. cbn [delimited] in Hrest.
    cbn [json.scan_frac json.scan_exp].
    replace (byte.val c =? 0x2E) with false by lia.
    replace ((byte.val c =? 0x65) || (byte.val c =? 0x45)) with false by lia.
    now split. }
  unfold itoa. destruct (Z.ltb_spec n 0) as [Hneg | Hpos].
  - split; [do 2 eexists; split; [reflexivity | now left] |].
    intros rest Hrest.
    destruct (Hnat (- n) rest ltac:(lia) Hrest) as (c & t & Hw & Hd & Hint).
    destruct (Htail rest Hrest) as [Hfrac Hexp].
    rewrite Hw. unfold json.scan_number. cbn [String.append].
    change (byte.val "-" =? 0x2D) with true. cbv iota.
    cbn [String.append] in Hint. rewrite Hint. cbn [mbind option_bind].
    rewrite Hfrac. cbn [mbind option_bind]. rewrite Hexp. cbn [mbind option_bind].
    cbn [String.append]. now rewrite !append_nil_r.
  - destruct (Hnat n EmptyString Hpos I) as (c & t & Hw & Hd & _).
    split; [exists c, t; split; [exact Hw | now right] |].
    intros rest Hrest.
    destruct (Hnat n rest Hpos Hrest) as (c' & t' & Hw' & Hd' & Hint).
    destruct (Htail rest Hrest) as [Hfrac Hexp].
    rewrite Hw'. unfold json.scan_number. cbn [String.append].
    replace (byte.val c' =? 0x2D) with false
      by (unfold json.is_digit, byte.in_range in Hd'; lia).
    cbn [String.append] in Hint. rewrite Hint. cbn [mbind option_bind].
    rewrite Hfrac. cbn [mbind option_bind]. rewrite Hexp. cbn [mbind option_bind].
    cbn [String.append]. now rewrite !append_nil_r.
Qed.

(** [ParseInt] reads the literal of a 64-bit integer back. *)
Lemma ParseInt_itoa (n : Z) :
  - 2 ^ 63 <= n < 2 ^ 63 -> json.ParseInt (itoa n) = Some n.
Proof.
  intros Hrange. unfold itoa. destruct (Z.ltb_spec n 0) as [Hneg | Hpos].
  - unfold json.ParseInt. change (byte.val "-" =? 0x2D) with true. cbv iota.
    pose proof (digits_value_digits (S (Z.to_nat (Z.log2 (- n)))) (- n)) as Hval.
    destruct (digits_head (S (Z.to_nat (Z.log2 (- n)))) (- n) EmptyString)
      as (c & t & Hw & _); [split; [lia | apply log2_fuel; lia] |].
    rewrite Hw in *. rewrite Hval by (try split; try lia; apply log2_fuel; lia).
    cbn [mbind option_bind]. replace (- - n) with n by lia.
    now replace ((- 2 ^ 63 <=? n) && (n <? 2 ^ 63)) with true by lia.
  - pose proof (digits_value_digits (S (Z.to_nat (Z.log2 n))) n) as Hval.
    destruct (number_literal_itoa n) as [(c & t & Hw & Hc) _].
    unfold itoa in Hw. replace (n <? 0) with false in Hw by lia.
    rewrite Hw in *. unfold json.ParseInt.
    assert (Hd : json.is_digit c = true).
    { destruct Hc as [Hc | Hc]; [| exact Hc]. exfalso.
      destruct (Z.eq_dec n 0) as [-> | Hnz];
        [vm_compute in Hw; injection Hw as <- <-; vm_compute in Hc; discriminate |].
      destruct (digits_head (S (Z.to_nat (Z.log2 n))) n EmptyString)
        as (c' & t' & Hw' & Hd' & _); [split; [lia | apply log2_fuel; lia] |].
      rewrite Hw in Hw'. injection Hw' as -> ->.
      unfold json.is_digit, byte.in_range in Hd'. lia. }
    replace (byte.val c =? 0x2D) with false
      by (unfold json.is_digit, byte.in_range in Hd; lia).
    rewrite Hval by (try split; try lia; apply log2_fuel; lia).
    cbn [mbind option_bind].
    now replace ((- 2 ^ 63 <=? n) && (n <? 2 ^ 63)) with true by lia.
Qed.

(** ** Decoding the value of a document *)

Lemma unquoteBytes_escaped (s : string) :
  utf8.ValidString s = true -> json.unquoteBytes (escaped s) = Some s.
Proof. apply unquoteBytes_escape. Qed.

Lemma decode_string_doc (s old : string) (saved : option error) :
  strings_ok (DStr s) ->
  json.decode_string (tree (DStr s)) old saved = json.mkdres s saved None.
Proof.
  intros Hs. cbn [tree json.decode_string]. now rewrite unquoteBytes_escaped.
Qed.

Lemma decode_int_doc (n old : Z) (saved : option error) :
  - 2 ^ 63 <= n < 2 ^ 63 ->
  json.decode_int (tree (DInt n)) old saved = json.mkdres n saved None.
Proof.
  intros Hn. cbn [tree DInt json.decode_int]. now rewrite ParseInt_itoa.
Qed.

Lemma decode_bool_doc (b old : bool) (saved : option error) :
  json.decode_bool (tree (DBool b)) old saved = json.mkdres b saved None.
Proof. reflexivity. Qed.

(** A slice: every element is decoded, whatever the slice held. *)
Lemma decode_slice_docs {T : Type} (type : string) (dec : json.decoder T) (zero : T)
    (to_doc : T -> doc) (xs : list T) :
  Forall (fun x => forall old saved,
            dec (tree (to_doc x)) old saved = json.mkdres x saved None) xs ->
  forall old saved,
    json.decode_slice type dec zero (tree (DArr (map to_doc xs))) old saved
    = json.mkdres xs saved None.
Proof.
  intros Hxs old saved. cbn [tree json.decode_slice].
  revert old. induction Hxs as [|x xs Hx Hxs IH]; intros old; [reflexivity |].
  cbn [map json.decode_elems]. rewrite Hx. cbn [json.stop json.cur json.savedError].
  now rewrite IH.
Qed.

(** A member whose key names a field, and whose value the field takes. *)
Lemma decode_member {S T : Type} (fields : list (json.field S)) (key k nm : string)
    (get : S -> T) (set : T -> S -> S) (dec : json.decoder T)
    (v : json.value) (x : T) (ms : list (string * json.value)) (s : S)
    (saved : option error) :
  json.unquoteBytes key = Some k ->
  json.find_field fields k = Some (json.field_of nm get set dec) ->
  dec v (get s) saved = json.mkdres x saved None ->
  json.decode_members fields ((key, v) :: ms) s saved
  = json.decode_members fields ms (set x s) saved.
Proof.
  intros Hkey Hfield Hdec. cbn [json.decode_members].
  rewrite Hkey. cbn [from_option id]. rewrite Hfield.
  unfold json.field_of. cbn [json.store]. rewrite Hdec. reflexivity.
Qed.

(** The fields of the value decoded so far. *)
Ltac stored :=
  cbn [AuthResult.Scope AuthResult.AccessToken AuthResult.TokenType AuthResult.AppID
       AuthResult.ExpiresIn AuthResult.Nonce
       Link.Href Link.Rel Link.Method
       GenerateOrderResponse.ID GenerateOrderResponse.Status GenerateOrderResponse.Links
       Money.CurrencyCode Money.Value
       SellerProtection.Status SellerProtection.DisputeCategories
       SellerReceivableBreakdown.GrossAmount SellerReceivableBreakdown.PaypalFee
       SellerReceivableBreakdown.NetAmount
       CaptureDetail.ID CaptureDetail.Status CaptureDetail.Amount
       CaptureDetail.FinalCapture CaptureDetail.SellerProtection
       CaptureDetail.SellerReceivableBreakdown CaptureDetail.Links
       CaptureDetail.CreateTime CaptureDetail.UpdateTime
       Address.AddressLine1 Address.AdminArea2 Address.AdminArea1 Address.PostalCode
       Address.CountryCode
       Shipping.Name Shipping.Address
       CapturedUnit.ReferenceID CapturedUnit.Shipping CapturedUnit.Payments
       Payer.Name Payer.EmailAddress Payer.PayerID Payer.Address
       CaptureResponse.ID CaptureResponse.Status CaptureResponse.PurchaseUnits
       CaptureResponse.Payer CaptureResponse.Links].

(** One member of an object after the other. *)
Ltac decode_member_with tac :=
  erewrite decode_member; [stored | vm_compute; reflexivity | reflexivity | tac].

Lemma decode_AuthResult (a old : AuthResult.t) (saved : option error) :
  strings_ok (AuthResult_doc a) ->
  - 2 ^ 63 <= AuthResult.ExpiresIn a < 2 ^ 63 ->
  AuthResult.decode (tree (AuthResult_doc a)) old saved = json.mkdres a saved None.
Proof.
  intros (_ & Hscope & _ & Htoken & _ & Htype & _ & Happ & _ & _ & _ & Hnonce & _) Hint.
  unfold AuthResult.decode, json.decode_struct, AuthResult_doc.
  cbn [tree map fst snd].
  decode_member_with ltac:(now apply decode_string_doc).
  decode_member_with ltac:(now apply decode_string_doc).
  decode_member_with ltac:(now apply decode_string_doc).
  decode_member_with ltac:(now apply decode_string_doc).
  decode_member_with ltac:(now apply decode_int_doc).
  decode_member_with ltac:(now apply decode_string_doc).
  cbn. now destruct a.
Qed.

Lemma decode_Link (l old : Link.t) (saved : option error) :
  strings_ok (Link_doc l) ->
  Link.decode (tree (Link_doc l)) old saved = json.mkdres l saved None.
Proof.
  intros (_ & Hhref & _ & Hrel & _ & Hmethod & _).
  unfold Link.decode, json.decode_struct, Link_doc.
  cbn [tree map fst snd].
  decode_member_with ltac:(now apply decode_string_doc).
  decode_member_with ltac:(now apply decode_string_doc).
  decode_member_with ltac:(now apply decode_string_doc).
  cbn. now destruct l.
Qed.

Lemma strings_ok_elems {T : Type} (to_doc : T -> doc) (xs : list T) :
  strings_ok (DArr (map to_doc xs)) <-> Forall (fun x => strings_ok (to_doc x)) xs.
Proof.
  cbn [strings_ok]. induction xs as [|x xs IH]; cbn [map fold_right].
  - split; [constructor | trivial].
  - rewrite Forall_cons. tauto.
Qed.

Lemma decode_Links (ls old : list Link.t) (saved : option error) :
  strings_ok (DArr (map Link_doc ls)) ->
  Link.decode_slice (tree (DArr (map Link_doc ls))) old saved = json.mkdres ls saved None.
Proof.
  intros Hok. apply decode_slice_docs.
  apply strings_ok_elems in Hok. eapply Forall_impl; [exact Hok |].
  intros l Hl old' saved'. now apply decode_Link.
Qed.

Lemma decode_GenerateOrderResponse (r old : GenerateOrderResponse.t)
    (saved : option error) :
  strings_ok (GenerateOrderResponse_doc r) ->
  GenerateOrderResponse.decode (tree (GenerateOrderResponse_doc r)) old saved
  = json.mkdres r saved None.
Proof.
  intros (_ & Hid & _ & Hstatus & _ & Hlinks & _).
  unfold GenerateOrderResponse.decode, json.decode_struct, GenerateOrderResponse_doc.
  cbn [tree map fst snd].
  decode_member_with ltac:(now apply decode_string_doc).
  decode_member_with ltac:(now apply decode_string_doc).
  decode_member_with ltac:(now apply decode_Links).
  cbn. now destruct r.
Qed.

(** [Unmarshal] of the text of a document that decodes. *)
Lemma Unmarshal_text {T : Type} (dec : json.decoder T) (j : doc) (v x : T) :
  numbers_ok j -> nesting j <= json.maxNestingDepth ->
  dec (tree j) v None = json.mkdres x None None ->
  json.Unmarshal dec (text j) v = (x, None).
Proof.
  intros Hnum Hdepth Hdec. unfold json.Unmarshal.
  rewrite checkValid_text by assumption. now rewrite Hdec.
Qed.

Lemma numbers_ok_elems {T : Type} (to_doc : T -> doc) (xs : list T) :
  numbers_ok (DArr (map to_doc xs)) <-> Forall (fun x => numbers_ok (to_doc x)) xs.
Proof.
  cbn [numbers_ok]. induction xs as [|x xs IH]; cbn [map fold_right].
  - split; [constructor | trivial].
  - rewrite Forall_cons. tauto.
Qed.

Lemma nesting_elems {T : Type} (to_doc : T -> doc) (n : Z) (xs : list T) :
  0 <= n -> (forall x, nesting (to_doc x) <= n) ->
  nesting (DArr (map to_doc xs)) <= 1 + n.
Proof.
  intros Hn Hx. cbn [nesting].
  induction xs as [|x xs IH]; cbn [map fold_right]; [lia |].
  specialize (Hx x). lia.
Qed.


(** *** Documents that the scanner accepts *)

Lemma fits_mono (n n' : Z) (j : doc) : fits n j -> n <= n' -> fits n' j.
Proof. intros [Hnum Hdepth] Hle. split; [exact Hnum | lia]. Qed.

Lemma fits_DStr (s : string) : fits 0 (DStr s).
Proof. split; [exact I | reflexivity]. Qed.

Lemma fits_DBool (b : bool) : fits 0 (DBool b).
Proof. split; [exact I | reflexivity]. Qed.

Lemma fits_DInt (n : Z) : fits 0 (DInt n).
Proof. split; [apply number_literal_itoa | reflexivity]. Qed.

Lemma fits_DObj (n : Z) (ms : list (string * doc)) :
  0 <= n -> Forall (fun m => fits n (snd m)) ms -> fits (n + 1) (DObj ms).
Proof.
  intros Hn Hms. unfold fits. cbn [numbers_ok nesting].
  induction Hms as [|m ms [Hnum Hdepth] Hms IH]; cbn [fold_right]; [split; [exact I | lia] |].
  destruct IH as [IHnum IHdepth]. split; [tauto | lia].
Qed.

Lemma fits_DArr (n : Z) (js : list doc) :
  0 <= n -> Forall (fits n) js -> fits (n + 1) (DArr js).
Proof.
  intros Hn Hjs. unfold fits. cbn [numbers_ok nesting].
  induction Hjs as [|j js [Hnum Hdepth] Hjs IH]; cbn [fold_right]; [split; [exact I | lia] |].
  destruct IH as [IHnum IHdepth]. split; [tauto | lia].
Qed.

Lemma fits_elems {T : Type} (to_doc : T -> doc) (n : Z) (xs : list T) :
  0 <= n -> (forall x, fits n (to_doc x)) -> fits (n + 1) (DArr (map to_doc xs)).
Proof.
  intros Hn Hx. apply fits_DArr; [exact Hn |].
  apply Forall_map, Forall_forall. intros x _. apply Hx.
Qed.

(** The members of an object, one after the other. *)
Ltac fits_members :=
  repeat match goal with
         | |- Forall _ [] => constructor
         | |- Forall _ (_ :: _) => constructor; [cbn [snd] |]
         end.

Lemma fits_Link (l : Link.t) : fits 1 (Link_doc l).
Proof.
  apply (fits_DObj 0); [lia |]. fits_members; apply fits_DStr.
Qed.

Lemma fits_AuthResult (a : AuthResult.t) : fits 1 (AuthResult_doc a).
Proof.
  apply (fits_DObj 0); [lia |]. fits_members; apply fits_DStr || apply fits_DInt.
Qed.

Lemma fits_GenerateOrderResponse (r : GenerateOrderResponse.t) :
  fits 3 (GenerateOrderResponse_doc r).
Proof.
  apply (fits_DObj 2); [lia |]. fits_members.
  - apply (fits_mono 0); [apply fits_DStr | lia].
  - apply (fits_mono 0); [apply fits_DStr | lia].
  - apply (fits_elems _ 1); [lia | apply fits_Link].
Qed.

Lemma fits_Money (m : Money.t) : fits 1 (Money_doc m).
Proof.
  apply (fits_DObj 0); [lia |]. fits_members; apply fits_DStr.
Qed.

Lemma fits_SellerProtection (p : SellerProtection.t) : fits 2 (SellerProtection_doc p).
Proof.
  apply (fits_DObj 1); [lia |]. fits_members.
  - apply (fits_mono 0); [apply fits_DStr | lia].
  - apply (fits_elems _ 0); [lia | apply fits_DStr].
Qed.

Lemma fits_SellerReceivableBreakdown (b : SellerReceivableBreakdown.t) :
  fits 2 (SellerReceivableBreakdown_doc b).
Proof.
  apply (fits_DObj 1); [lia |]. fits_members; apply fits_Money.
Qed.

Lemma fits_Address (a : Address.t) : fits 1 (Address_doc a).
Proof.
  apply (fits_DObj 0); [lia |]. fits_members; apply fits_DStr.
Qed.

Lemma fits_Shipping (s : Shipping.t) : fits 2 (Shipping_doc s).
Proof.
  apply (fits_DObj 1); [lia |]. fits_members.
  - apply (fits_DObj 0); [lia |]. fits_members. apply fits_DStr.
  - apply fits_Address.
Qed.

Lemma fits_Payer (p : Payer.t) : fits 2 (Payer_doc p).
Proof.
  apply (fits_DObj 1); [lia |]. fits_members.
  - apply (fits_DObj 0); [lia |]. fits_members; apply fits_DStr.
  - apply (fits_mono 0); [apply fits_DStr | lia].
  - apply (fits_mono 0); [apply fits_DStr | lia].
  - apply (fits_DObj 0); [lia |]. fits_members. apply fits_DStr.
Qed.

Section CaptureAnswerFits.
Context `{Env}.
Variable time_text : Time -> string.

Lemma fits_CaptureDetail (c : CaptureDetail.t) : fits 3 (CaptureDetail_doc time_text c).
Proof.
  apply (fits_DObj 2); [lia |]. fits_members;
    try (apply (fits_mono 0); [apply fits_DStr || apply fits_DBool | lia]).
  - apply (fits_mono 1); [apply fits_Money | lia].
  - apply fits_SellerProtection.
  - apply fits_SellerReceivableBreakdown.
  - apply (fits_elems _ 1); [lia | apply fits_Link].
Qed.

Lemma fits_CapturedUnit (u : CapturedUnit.t) : fits 6 (CapturedUnit_doc time_text u).
Proof.
  apply (fits_DObj 5); [lia |]. fits_members.
  - apply (fits_mono 0); [apply fits_DStr | lia].
  - apply (fits_mono 2); [apply fits_Shipping | lia].
  - apply (fits_DObj 4); [lia |]. fits_members.
    apply (fits_elems _ 3); [lia | apply fits_CaptureDetail].
Qed.

Lemma fits_CaptureResponse (r : CaptureResponse.t) :
  fits 8 (CaptureResponse_doc time_text r).
Proof.
  apply (fits_DObj 7); [lia |]. fits_members.
  - apply (fits_mono 0); [apply fits_DStr | lia].
  - apply (fits_mono 0); [apply fits_DStr | lia].
  - apply (fits_elems _ 6); [lia | apply fits_CapturedUnit].
  - apply (fits_mono 2); [apply fits_Payer | lia].
  - apply (fits_mono 2); [apply (fits_elems _ 1); [lia | apply fits_Link] | lia].
Qed.

End CaptureAnswerFits.

Lemma Unmarshal_fits {T : Type} (dec : json.decoder T) (n : Z) (j : doc) (v x : T) :
  fits n j -> n <= json.maxNestingDepth ->
  dec (tree j) v None = json.mkdres x None None ->
  json.Unmarshal dec (text j) v = (x, None).
Proof.
  intros [Hnum Hdepth] Hn. apply Unmarshal_text; [exact Hnum | lia].
Qed.

(** *** The decoders of the answers *)

Lemma decode_Money (m old : Money.t) (saved : option error) :
  strings_ok (Money_doc m) ->
  Money.decode (tree (Money_doc m)) old saved = json.mkdres m saved None.
Proof.
  intros (_ & Hcode & _ & Hvalue & _).
  unfold Money.decode, json.decode_struct, Money_doc. cbn [tree map fst snd].
  decode_member_with ltac:(now apply decode_string_doc).
  decode_member_with ltac:(now apply decode_string_doc).
  cbn. now destruct m.
Qed.

Lemma decode_strings (ss old : list string) (saved : option error) :
  strings_ok (DArr (map DStr ss)) ->
  json.decode_slice "[]string" json.decode_string EmptyString
    (tree (DArr (map DStr ss))) old saved
  = json.mkdres ss saved None.
Proof.
  intros Hok. apply decode_slice_docs.
  apply strings_ok_elems in Hok. eapply Forall_impl; [exact Hok |].
  intros s Hs old' saved'. now apply decode_string_doc.
Qed.

Lemma decode_SellerProtection (p old : SellerProtection.t) (saved : option error) :
  strings_ok (SellerProtection_doc p) ->
  SellerProtection.decode (tree (SellerProtection_doc p)) old saved
  = json.mkdres p saved None.
Proof.
  intros (_ & Hstatus & _ & Hcats & _).
  unfold SellerProtection.decode, json.decode_struct, SellerProtection_doc.
  cbn [tree map fst snd].
  decode_member_with ltac:(now apply decode_string_doc).
  decode_member_with ltac:(now apply decode_strings).
  cbn. now destruct p.
Qed.

Lemma decode_SellerReceivableBreakdown (b old : SellerReceivableBreakdown.t)
    (saved : option error) :
  strings_ok (SellerReceivableBreakdown_doc b) ->
  SellerReceivableBreakdown.decode (tree (SellerReceivableBreakdown_doc b)) old saved
  = json.mkdres b saved None.
Proof.
  intros (_ & Hgross & _ & Hfee & _ & Hnet & _).
  unfold SellerReceivableBreakdown.decode, json.decode_struct,
    SellerReceivableBreakdown_doc.
  cbn [tree map fst snd].
  decode_member_with ltac:(now apply decode_Money).
  decode_member_with ltac:(now apply decode_Money).
  decode_member_with ltac:(now apply decode_Money).
  cbn. now destruct b.
Qed.

Lemma decode_Address (a old : Address.t) (saved : option error) :
  strings_ok (Address_doc a) ->
  Address.decode (tree (Address_doc a)) old saved = json.mkdres a saved None.
Proof.
  intros (_ & H1 & _ & H2 & _ & H3 & _ & H4 & _ & H5 & _).
  unfold Address.decode, json.decode_struct, Address_doc. cbn [tree map fst snd].
  do 5 decode_member_with ltac:(now apply decode_string_doc).
  cbn. now destruct a.
Qed.

Lemma decode_Shipping_name (n old : Shipping.name) (saved : option error) :
  strings_ok (DObj [("full_name", DStr (Shipping.FullName n))]) ->
  Shipping.decode_name (tree (DObj [("full_name", DStr (Shipping.FullName n))])) old saved
  = json.mkdres n saved None.
Proof.
  intros (_ & H1 & _).
  unfold Shipping.decode_name, json.decode_struct. cbn [tree map fst snd].
  decode_member_with ltac:(now apply decode_string_doc).
  cbn. now destruct n.
Qed.

Lemma decode_Shipping (s old : Shipping.t) (saved : option error) :
  strings_ok (Shipping_doc s) ->
  Shipping.decode (tree (Shipping_doc s)) old saved = json.mkdres s saved None.
Proof.
  intros (_ & Hname & _ & Haddress & _).
  unfold Shipping.decode, json.decode_struct, Shipping_doc.
  cbn [tree map fst snd].
  decode_member_with ltac:(now apply decode_Shipping_name).
  decode_member_with ltac:(now apply decode_Address).
  cbn. now destruct s.
Qed.

Lemma decode_Payer_name (n old : Payer.name) (saved : option error) :
  strings_ok (DObj [("given_name", DStr (Payer.GivenName n));
                    ("surname", DStr (Payer.Surname n))]) ->
  Payer.decode_name (tree (DObj [("given_name", DStr (Payer.GivenName n));
                                 ("surname", DStr (Payer.Surname n))])) old saved
  = json.mkdres n saved None.
Proof.
  intros (_ & H1 & _ & H2 & _).
  unfold Payer.decode_name, json.decode_struct. cbn [tree map fst snd].
  do 2 decode_member_with ltac:(now apply decode_string_doc).
  cbn. now destruct n.
Qed.

Lemma decode_Payer_address (a old : Payer.address) (saved : option error) :
  strings_ok (DObj [("country_code", DStr (Payer.CountryCode a))]) ->
  Payer.decode_address (tree (DObj [("country_code", DStr (Payer.CountryCode a))]))
    old saved
  = json.mkdres a saved None.
Proof.
  intros (_ & H1 & _).
  unfold Payer.decode_address, json.decode_struct. cbn [tree map fst snd].
  decode_member_with ltac:(now apply decode_string_doc).
  cbn. now destruct a.
Qed.

Lemma decode_Payer (p old : Payer.t) (saved : option error) :
  strings_ok (Payer_doc p) ->
  Payer.decode (tree (Payer_doc p)) old saved = json.mkdres p saved None.
Proof.
  intros (_ & Hname & _ & Hmail & _ & Hid & _ & Haddress & _).
  unfold Payer.decode, json.decode_struct, Payer_doc. cbn [tree map fst snd].
  decode_member_with ltac:(now apply decode_Payer_name).
  decode_member_with ltac:(now apply decode_string_doc).
  decode_member_with ltac:(now apply decode_string_doc).
  decode_member_with ltac:(now apply decode_Payer_address).
  cbn. now destruct p.
Qed.

Section CaptureAnswerDecoders.
Context `{Env}.
Variable time_text : Time -> string.

Lemma decode_time_doc (t old : Time) (saved : option error) :
  time_parses time_text t ->
  CaptureDetail.decode_time (tree (DStr (time_text t))) old saved
  = json.mkdres t saved None.
Proof.
  intros Ht. cbn [tree CaptureDetail.decode_time].
  unfold time_parses in Ht. now rewrite Ht.
Qed.

Lemma decode_CaptureDetail (c old : CaptureDetail.t) (saved : option error) :
  strings_ok (CaptureDetail_doc time_text c) ->
  time_parses time_text (CaptureDetail.CreateTime c) ->
  time_parses time_text (CaptureDetail.UpdateTime c) ->
  CaptureDetail.decode (tree (CaptureDetail_doc time_text c)) old saved
  = json.mkdres c saved None.
Proof.
  intros (_ & Hid & _ & Hstatus & _ & Hamount & _ & _ & _ & Hprot & _ & Hbreak
          & _ & Hlinks & _) Hcreate Hupdate.
  unfold CaptureDetail.decode, json.decode_struct, CaptureDetail_doc.
  cbn [tree map fst snd].
  decode_member_with ltac:(now apply decode_string_doc).
  decode_member_with ltac:(now apply decode_string_doc).
  decode_member_with ltac:(now apply decode_Money).
  decode_member_with ltac:(now apply decode_bool_doc).
  decode_member_with ltac:(now apply decode_SellerProtection).
  decode_member_with ltac:(now apply decode_SellerReceivableBreakdown).
  decode_member_with ltac:(now apply decode_Links).
  decode_member_with ltac:(now apply decode_time_doc).
  decode_member_with ltac:(now apply decode_time_doc).
  cbn [json.decode_members]. now destruct c.
Qed.

Lemma decode_CaptureDetails (cs old : list CaptureDetail.t) (saved : option error) :
  strings_ok (DArr (map (CaptureDetail_doc time_text) cs)) ->
  Forall (fun c => time_parses time_text (CaptureDetail.CreateTime c)
                   /\ time_parses time_text (CaptureDetail.UpdateTime c)) cs ->
  json.decode_slice "[]struct" CaptureDetail.decode CaptureDetail.zero
    (tree (DArr (map (CaptureDetail_doc time_text) cs))) old saved
  = json.mkdres cs saved None.
Proof.
  intros Hok Htimes. apply decode_slice_docs.
  apply strings_ok_elems in Hok.
  apply Forall_forall. intros c Hc old' saved'.
  rewrite Forall_forall in Hok, Htimes.
  destruct (Htimes c Hc). apply decode_CaptureDetail; auto.
Qed.

Lemma decode_payments (p old : CapturedUnit.payments) (saved : option error) :
  strings_ok (DArr (map (CaptureDetail_doc time_text) (CapturedUnit.Captures p))) ->
  Forall (fun c => time_parses time_text (CaptureDetail.CreateTime c)
                   /\ time_parses time_text (CaptureDetail.UpdateTime c))
         (CapturedUnit.Captures p) ->
  CapturedUnit.decode_payments
    (tree (DObj [("captures",
                  DArr (map (CaptureDetail_doc time_text) (CapturedUnit.Captures p)))]))
    old saved
  = json.mkdres p saved None.
Proof.
  intros Hok Htimes.
  unfold CapturedUnit.decode_payments, json.decode_struct. cbn [tree map fst snd].
  decode_member_with ltac:(now apply decode_CaptureDetails).
  cbn [json.decode_members]. now destruct p.
Qed.

Lemma decode_CapturedUnit (u old : CapturedUnit.t) (saved : option error) :
  strings_ok (CapturedUnit_doc time_text u) ->
  Forall (fun c => time_parses time_text (CaptureDetail.CreateTime c)
                   /\ time_parses time_text (CaptureDetail.UpdateTime c))
         (CapturedUnit.Captures (CapturedUnit.Payments u)) ->
  CapturedUnit.decode (tree (CapturedUnit_doc time_text u)) old saved
  = json.mkdres u saved None.
Proof.
  intros (_ & Href & _ & Hship & _ & (_ & Hcaptures & _) & _) Htimes.
  unfold CapturedUnit.decode, json.decode_struct, CapturedUnit_doc.
  cbn [tree map fst snd].
  decode_member_with ltac:(now apply decode_string_doc).
  decode_member_with ltac:(now apply decode_Shipping).
  decode_member_with ltac:(now apply decode_payments).
  cbn [json.decode_members]. now destruct u.
Qed.

Lemma decode_CapturedUnits (us old : list CapturedUnit.t) (saved : option error) :
  strings_ok (DArr (map (CapturedUnit_doc time_text) us)) ->
  Forall (fun u =>
            Forall (fun c => time_parses time_text (CaptureDetail.CreateTime c)
                             /\ time_parses time_text (CaptureDetail.UpdateTime c))
                   (CapturedUnit.Captures (CapturedUnit.Payments u))) us ->
  json.decode_slice "[]struct" CapturedUnit.decode CapturedUnit.zero
    (tree (DArr (map (CapturedUnit_doc time_text) us))) old saved
  = json.mkdres us saved None.
Proof.
  intros Hok Htimes. apply decode_slice_docs.
  apply strings_ok_elems in Hok.
  apply Forall_forall. intros u Hu old' saved'.
  rewrite Forall_forall in Hok, Htimes.
  apply decode_CapturedUnit; auto.
Qed.

Lemma decode_CaptureResponse (r old : CaptureResponse.t) (saved : option error) :
  strings_ok (CaptureResponse_doc time_text r) ->
  times_parse time_text r ->
  CaptureResponse.decode (tree (CaptureResponse_doc time_text r)) old saved
  = json.mkdres r saved None.
Proof.
  intros (_ & Hid & _ & Hstatus & _ & Hunits & _ & Hpayer & _ & Hlinks & _) Htimes.
  unfold CaptureResponse.decode, json.decode_struct, CaptureResponse_doc.
  cbn [tree map fst snd].
  decode_member_with ltac:(now apply decode_string_doc).
  decode_member_with ltac:(now apply decode_string_doc).
  decode_member_with ltac:(now apply decode_CapturedUnits).
  decode_member_with ltac:(now apply decode_Payer).
  decode_member_with ltac:(now apply decode_Links).
  cbn [json.decode_members]. now destruct r.
Qed.

End CaptureAnswerDecoders.

(** ** The answers of the API *)

(** X9. On a 200 answer that holds an [AuthResult] in JSON, [Auth] returns that
    [AuthResult], the access token with it, and no error. *)
Theorem Auth_returns_the_token `{Env} (config : Config.t) (a : AuthResult.t)
    (req : http.Request) (resp : http.Response) :
  fst (Auth config) = [req] ->
  client_Do client req = inl resp ->
  http.StatusCode resp = http.StatusOK ->
  http.Body resp = (text (AuthResult_doc a), None) ->
  strings_ok (AuthResult_doc a) ->
  - 2 ^ 63 <= AuthResult.ExpiresIn a < 2 ^ 63 ->
  snd (Auth config) = (Some a, None).
Proof.
  intros Htrace Hdo Hcode Hbody Hstr Hint.
  apply Auth_sent in Htrace as [Hurl ->].
  rewrite (Auth_returns _ _ _ Hurl Hdo Hbody), Hcode.
  cbn [Z.eqb http.StatusOK Pos.eqb].
  rewrite (Unmarshal_fits _ 1 _ _ a);
    [reflexivity | apply fits_AuthResult | unfold json.maxNestingDepth; lia |].
  now apply decode_AuthResult.
Qed.

(** The token answer of the API documentation. *)
Lemma Auth_returns_the_token_witness :
  snd (Auth (H := mock.env (mock_http.answer "200 OK" 200
                              (text (AuthResult_doc (mock.auth "A21AAFEpH4PsADK7qSS7pSRsgz")))))
            mock.config)
  = (Some (mock.auth "A21AAFEpH4PsADK7qSS7pSRsgz"), None).
Proof.
  pose (body := text (AuthResult_doc (mock.auth "A21AAFEpH4PsADK7qSS7pSRsgz"))).
  apply (Auth_returns_the_token (H := mock.env (mock_http.answer "200 OK" 200 body))
           mock.config (mock.auth "A21AAFEpH4PsADK7qSS7pSRsgz")
           (Auth_request mock.config)
           (http.mkResponse "200 OK" 200 (body, None))).
  - reflexivity.
  - reflexivity.
  - reflexivity.
  - reflexivity.
  - repeat split; vm_compute; reflexivity.
  - unfold mock.auth. cbn [AuthResult.ExpiresIn]. lia.
Defined.

(** X10. On a 201 answer that holds a [GenerateOrderResponse] in JSON, with its
    links, [CreateOrder] returns that response and no error. *)
Theorem CreateOrder_returns_the_order `{Env} (config : Config.t)
    (auth : option AuthResult.t) (description customID invoiceID : string)
    (euroCents : Z) (r : GenerateOrderResponse.t)
    (req : http.Request) (resp : http.Response) :
  fst (CreateOrder config auth description customID invoiceID euroCents) = [req] ->
  client_Do client req = inl resp ->
  http.StatusCode resp = http.StatusCreated ->
  http.Body resp = (text (GenerateOrderResponse_doc r), None) ->
  strings_ok (GenerateOrderResponse_doc r) ->
  snd (CreateOrder config auth description customID invoiceID euroCents)
  = Returned (Some r, None).
Proof.
  intros Htrace Hdo Hcode Hbody Hstr.
  apply CreateOrder_sent in Htrace as (a & orJson & -> & Hjson & Hurl & ->).
  rewrite (CreateOrder_returns _ _ _ _ _ _ _ _ _ Hjson Hurl Hdo Hbody), Hcode.
  cbn [Z.eqb http.StatusCreated Pos.eqb].
  rewrite (Unmarshal_fits _ 3 _ _ r);
    [reflexivity | apply fits_GenerateOrderResponse | unfold json.maxNestingDepth; lia |].
  now apply decode_GenerateOrderResponse.
Qed.

(** X11. On a 201 answer that holds a [CaptureResponse] in JSON, with its
    purchase units, their captures and the payer, [Capture] returns that
    response and no error; the times are those that [time.Time] parses
    from the texts in the answer. *)
Theorem Capture_returns_the_capture `{Env} (time_text : Time -> string)
    (config : Config.t) (auth : option AuthResult.t) (orderID : string)
    (r : CaptureResponse.t) (req : http.Request) (resp : http.Response) :
  fst (Capture config auth orderID) = [req] ->
  client_Do client req = inl resp ->
  http.StatusCode resp = http.StatusCreated ->
  http.Body resp = (text (CaptureResponse_doc time_text r), None) ->
  strings_ok (CaptureResponse_doc time_text r) ->
  times_parse time_text r ->
  snd (Capture config auth orderID) = Returned (Some r, None).
Proof.
  intros Htrace Hdo Hcode Hbody Hstr Htimes.
  apply Capture_sent in Htrace as (a & -> & Hurl & ->).
  rewrite (Capture_returns _ _ _ _ _ Hurl Hdo Hbody), Hcode.
  cbn [Z.eqb http.StatusCreated Pos.eqb].
  rewrite (Unmarshal_fits _ 8 _ _ r);
    [reflexivity | apply fits_CaptureResponse | unfold json.maxNestingDepth; lia |].
  now apply decode_CaptureResponse.
Qed.

(** An order with its two links. *)
Lemma CreateOrder_returns_the_order_witness :
  snd (CreateOrder
         (H := mock.env (mock_http.answer "201 Created" 201
                           (text (GenerateOrderResponse_doc mock_answers.order))))
         mock.config (Some (mock.auth "token")) "d" "c" "i" 1050)
  = Returned (Some mock_answers.order, None).
Proof.
  pose (body := text (GenerateOrderResponse_doc mock_answers.order)).
  pose (E := mock.env (mock_http.answer "201 Created" 201 body)).
  assert (Hjson : OrderRequest.Marshal (H := E) (orderRequest "d" "c" "i" 1050)
                  = inl (order_json (H := E) "d" "c" "i" 1050)) by reflexivity.
  pose proof (CreateOrder_sends (H := E) mock.config (mock.auth "token")
                "d" "c" "i" 1050 _ Hjson eq_refl) as Hsent.
  apply (CreateOrder_returns_the_order (H := E) mock.config (Some (mock.auth "token"))
           "d" "c" "i" 1050 mock_answers.order _
           (http.mkResponse "201 Created" 201 (body, None)) Hsent).
  - reflexivity.
  - reflexivity.
  - reflexivity.
  - repeat split; vm_compute; reflexivity.
Defined.

(** A completed capture: one purchase unit with one capture. *)
Lemma Capture_returns_the_capture_witness :
  snd (Capture (H := mock.env mock_answers.capture_endpoint)
               mock.config (Some (mock.auth "token")) mock.orderID)
  = Returned (Some (mock_answers.capture mock_answers.capture_endpoint), None).
Proof.
  pose (E := mock.env mock_answers.capture_endpoint).
  apply (Capture_returns_the_capture (H := E) (fun t => t) mock.config
           (Some (mock.auth "token")) mock.orderID
           (mock_answers.capture mock_answers.capture_endpoint)
           (Capture_request mock.config (mock.auth "token") mock.orderID)
           (http.mkResponse "201 Created" 201
              (mock_answers.capture_text (inr SyntaxError), None))).
  - reflexivity.
  - reflexivity.
  - reflexivity.
  - vm_compute. reflexivity.
  - repeat split; vm_compute; reflexivity.
  - repeat constructor.
Defined.

(** ** The body of the order request *)

Lemma order_json_text `{Env} (description customID invoiceID : string) (euroCents : Z) :
  order_json description customID invoiceID euroCents
  = text (order_doc description customID invoiceID euroCents).
Proof.
  unfold order_json, text, order_doc, amount_value.
  repeat first [rewrite write_object | rewrite write_array
               | progress cbn [write_members write_elems fst snd]
               | progress unfold write_member].
  cbn [write].
  change (escaped "intent") with "intent".
  change (escaped "CAPTURE") with "CAPTURE".
  change (escaped "purchase_units") with "purchase_units".
  change (escaped "amount") with "amount".
  change (escaped "currency_code") with "currency_code".
  change (escaped "EUR") with "EUR".
  change (escaped "value") with "value".
  change (escaped "description") with "description".
  change (escaped "custom_id") with "custom_id".
  change (escaped "invoice_id") with "invoice_id".
  change (escaped "application_context") with "application_context".
  change (escaped "shipping_preference") with "shipping_preference".
  change (escaped "NO_SHIPPING") with "NO_SHIPPING".
  unfold tag, quoted, json.appendString, escaped.
  repeat first [rewrite append_assoc | progress cbn [String.append]].
  reflexivity.
Qed.

Lemma fits_order_doc `{Env} (description customID invoiceID : string) (euroCents : Z) :
  number_literal (formatFloat (amount_value euroCents)) ->
  fits 4 (order_doc description customID invoiceID euroCents).
Proof.
  intros Hlit. apply (fits_DObj 3); [lia |]. fits_members.
  - apply (fits_mono 0); [apply fits_DStr | lia].
  - apply (fits_DArr 2); [lia |]. fits_members.
    apply (fits_DObj 1); [lia |]. fits_members;
      try (apply (fits_mono 0); [apply fits_DStr | lia]).
    apply (fits_DObj 0); [lia |]. fits_members; [apply fits_DStr |].
    split; [exact Hlit | reflexivity].
  - apply (fits_mono 1); [| lia].
    apply (fits_DObj 0); [lia |]. fits_members. apply fits_DStr.
Qed.

(** X14. Whatever the description, the custom id and the invoice id are, the
    body that [CreateOrder] sends is valid JSON of one shape: the three
    texts stand in it as string literals, escaped, and add no member and
    change none.  Read back, a text of well-formed UTF-8 is the text that
    was given.  (The amount is taken to be rendered as a JSON number, as
    [strconv] renders a finite float.) *)
Theorem CreateOrder_body_is_JSON `{Env} (config : Config.t) (auth : option AuthResult.t)
    (description customID invoiceID : string) (euroCents : Z) (req : http.Request) :
  number_literal (formatFloat (amount_value euroCents)) ->
  In req (fst (CreateOrder config auth description customID invoiceID euroCents)) ->
  exists body,
    http.RequestBody req = Some body
    /\ json.checkValid body
       = Some (json.Object
           [("intent", json.Str "CAPTURE");
            ("purchase_units",
             json.Array
               [json.Object
                  [("amount",
                    json.Object
                      [("currency_code", json.Str "EUR");
                       ("value", json.Number (formatFloat (amount_value euroCents)))]);
                   ("description", json.Str (escaped description));
                   ("custom_id", json.Str (escaped customID));
                   ("invoice_id", json.Str (escaped invoiceID))]]);
            ("application_context",
             json.Object [("shipping_preference", json.Str "NO_SHIPPING")])])
    /\ (utf8.ValidString description = true ->
        json.unquoteBytes (escaped description) = Some description)
    /\ (utf8.ValidString customID = true ->
        json.unquoteBytes (escaped customID) = Some customID)
    /\ (utf8.ValidString invoiceID = true ->
        json.unquoteBytes (escaped invoiceID) = Some invoiceID).
Proof.
  intros Hlit Hin.
  assert (Hbody : http.RequestBody req
                  = Some (order_json description customID invoiceID euroCents)).
  { revert Hin. unfold CreateOrder, NewRequest.
    destruct (OrderRequest.Marshal (orderRequest description customID invoiceID euroCents))
      as [orJson|e] eqn:Hjson; [| intros []].
    apply Marshal_orderRequest in Hjson as ->.
    destruct auth as [a|]; repeat call_step; cbn [fst In]; try tauto.
    all: intros [<- | []]; reflexivity. }
  exists (order_json description customID invoiceID euroCents).
  split; [exact Hbody |]. split.
  - rewrite order_json_text.
    destruct (fits_order_doc description customID invoiceID euroCents Hlit) as [Hnum Hdepth].
    rewrite checkValid_text; [reflexivity | exact Hnum | unfold json.maxNestingDepth; lia].
  - repeat split; apply unquoteBytes_escaped.
Qed.

Lemma number_literal_10_5 : number_literal "10.5".
Proof.
  split; [exists "1"%char, "0.5"; split; [reflexivity | now right] |].
  intros [|c t] Hrest; [reflexivity |]. cbn [delimited] in Hrest.
  unfold json.scan_number. cbn [String.append].
  change (byte.val "1" =? 0x2D) with false. cbv iota.
  cbn [json.scan_int]. change (byte.val "1" =? 0x30) with false.
  change (json.is_digit "1") with true. cbv iota.
  cbn [json.span_digits]. change (json.is_digit "0") with true.
  change (json.is_digit ".") with false. cbv iota.
  cbn [mbind option_bind json.scan_frac].
  change (byte.val "." =? 0x2E) with true. cbv iota.
  cbn [json.span_digits]. change (json.is_digit "5") with true. cbv iota.
  replace (json.is_digit c) with false
    by (unfold json.is_digit, byte.in_range; lia).
  cbn [mbind option_bind json.scan_exp].
  replace ((byte.val c =? 0x65) || (byte.val c =? 0x45)) with false by lia.
  reflexivity.
Qed.

(** A description with a quote, brackets and a member of its own. *)
Lemma CreateOrder_body_is_JSON_witness :
  exists body,
    http.RequestBody
      (CreateOrder_request mock.config (mock.auth "token")
         (order_json (H := mock.env (mock_http.answer "201 Created" 201 mock_http.created))
            mock_answers.hostile "c" "i" 1050))
    = Some body
    /\ json.checkValid body
       = Some (json.Object
           [("intent", json.Str "CAPTURE");
            ("purchase_units",
             json.Array
               [json.Object
                  [("amount",
                    json.Object
                      [("currency_code", json.Str "EUR");
                       ("value", json.Number "10.5")]);
                   ("description", json.Str (escaped mock_answers.hostile));
                   ("custom_id", json.Str (escaped "c"));
                   ("invoice_id", json.Str (escaped "i"))]]);
            ("application_context",
             json.Object [("shipping_preference", json.Str "NO_SHIPPING")])])
    /\ (utf8.ValidString mock_answers.hostile = true ->
        json.unquoteBytes (escaped mock_answers.hostile) = Some mock_answers.hostile)
    /\ (utf8.ValidString "c" = true -> json.unquoteBytes (escaped "c") = Some "c")
    /\ (utf8.ValidString "i" = true -> json.unquoteBytes (escaped "i") = Some "i").
Proof.
  pose (E := mock.env (mock_http.answer "201 Created" 201 mock_http.created)).
  assert (Hjson : OrderRequest.Marshal (H := E) (orderRequest mock_answers.hostile "c" "i" 1050)
                  = inl (order_json (H := E) mock_answers.hostile "c" "i" 1050))
    by reflexivity.
  pose proof (CreateOrder_sends (H := E) mock.config (mock.auth "token")
                mock_answers.hostile "c" "i" 1050 _ Hjson eq_refl) as Hsent.
  apply (CreateOrder_body_is_JSON (H := E) mock.config (Some (mock.auth "token"))
           mock_answers.hostile "c" "i" 1050).
  - exact number_literal_10_5.
  - rewrite Hsent. now left.
Defined.

(** ** Strings that are not UTF-8 *)

Lemma append_inv_head (p a b : string) : p ++ a = p ++ b -> a = b.
Proof.
  induction p as [|c p IH]; cbn [String.append]; [trivial |].
  intros [= E]. now apply IH.
Qed.

(** Unquoting the escaped text of a string gives the string coerced to
    UTF-8. *)
Lemma unquote_escape_any (n : nat) : forall (s : string) (m : nat),
  (String.length (json.escape n s) <= m)%nat ->
  json.unquote m (json.escape n s) = Some (replace_invalid n s).
Proof.
  induction n as [|n IH]; intros s m Hm.
  - destruct s; now destruct m.
  - destruct s as [|c t]; [now destruct m |].
    cbn [json.escape replace_invalid] in *. unfold utf8.RuneSelf in *.
    destruct (byte.val c <? 0x80) eqn:Hascii.
    + rewrite decode_ascii by lia.
      replace ((byte.val c =? utf8.RuneError) && (1 =? 1)%nat) with false
        by (unfold utf8.RuneError; lia).
      cbn [substring strings.drop String.append].
      replace (substring 0 0 t) with EmptyString by now destruct t.
      cbn [String.append].
      destruct (json.htmlSafe (byte.val c)) eqn:Hsafe.
      * apply htmlSafe_plain in Hsafe as (? & ? & ?).
        cbn [String.length] in Hm. destruct m as [|m]; [lia |].
        apply unquote_plain; try lia. apply IH. lia.
      * rewrite length_append in Hm. pose proof (length_escape_byte c).
        destruct m as [|m]; [lia |].
        apply unquote_escape_byte; [lia |]. apply IH. lia.
    + destruct (utf8.DecodeRuneInString (String c t)) as [r size] eqn:Hdec.
      destruct ((r =? utf8.RuneError) && (size =? 1)%nat) eqn:Herr.
      * cbn [String.append String.length] in Hm |- *.
        destruct m as [|m]; [lia |].
        apply (unquote_u_escape m "f" "f" "f" "d"); try reflexivity;
          [unfold utf8.RuneError; lia |].
        apply IH. lia.
      * destruct (decode_multibyte c t r size)
          as (pre & rest0 & Hs & Hlen & Hsize & Hhigh & Henc & Hr & Hany);
          [lia | exact Hdec | exact Herr |].
        destruct (length_decoded c t r size pre rest0 Hs Hlen) as [Hdrop Hsub].
        rewrite Hdrop in *. rewrite Hsub in *.
        destruct pre as [|c' pre]; [cbn in Hlen; lia |].
        cbn [String.append] in Hs. injection Hs as <- ->.
        destruct ((r =? 0x2028) || (r =? 0x2029)) eqn:Hsep.
        -- assert (Hm' : exists m', m = S m'
                           /\ (String.length (json.escape n rest0) <= m')%nat).
           { cbn [String.append String.length] in Hm. destruct m as [|m]; [lia |].
             exists m. split; [reflexivity | lia]. }
           destruct Hm' as (m' & -> & Hm').
           pose proof (IH rest0 m' Hm') as Hrec.
           assert (Hcase : r = 0x2028 \/ r = 0x2029) by lia.
           rewrite <- Henc.
           destruct Hcase as [-> | ->].
           ++ change (json.hex (Z.land 0x2028 0xF)) with "8"%char. cbn [String.append].
              now apply unquote_u_escape.
           ++ change (json.hex (Z.land 0x2029 0xF)) with "9"%char. cbn [String.append].
              now apply unquote_u_escape.
        -- rewrite length_append in Hm. cbn [String.length] in Hm.
           destruct m as [|m]; [lia |].
           apply (unquote_multibyte m c pre _ _ r size); try assumption; try lia.
           apply IH. lia.
Qed.

Lemma unquoteBytes_escaped_any (s : string) :
  json.unquoteBytes (escaped s) = Some (coerce s).
Proof. unfold json.unquoteBytes, escaped, coerce. now apply unquote_escape_any. Qed.

Lemma replace_invalid_valid (n : nat) : forall s : string,
  utf8.valid_from n s = true -> replace_invalid n s = s.
Proof.
  induction n as [|n IH]; intros s Hv; [destruct s; [reflexivity | discriminate] |].
  destruct s as [|c t]; [reflexivity |].
  cbn [utf8.valid_from replace_invalid] in *.
  destruct (utf8.DecodeRuneInString (String c t)) as [r size] eqn:Hdec.
  destruct ((r =? utf8.RuneError) && (size =? 1)%nat); [discriminate |].
  rewrite IH by exact Hv. apply substring_drop.
  pose proof (decode_size c t) as Hsize. rewrite Hdec in Hsize. cbn [snd] in Hsize. lia.
Qed.

Lemma valid_replace_invalid (n : nat) : forall s : string,
  (String.length s <= n)%nat ->
  replace_invalid n s = s -> utf8.valid_from n s = true.
Proof.
  induction n as [|n IH]; intros s Hn Hs; [destruct s; [reflexivity | cbn in Hn; lia] |].
  destruct s as [|c t]; [reflexivity |].
  cbn [utf8.valid_from replace_invalid] in *.
  destruct (utf8.DecodeRuneInString (String c t)) as [r size] eqn:Hdec.
  pose proof (decode_size c t) as Hsize. rewrite Hdec in Hsize. cbn [snd] in Hsize.
  destruct ((r =? utf8.RuneError) && (size =? 1)%nat) eqn:Herr.
  - exfalso. cbn in Hs. injection Hs as Hc Ht.
    rewrite <- Hc, <- Ht in Hdec. cbn in Hdec. injection Hdec as <- <-.
    discriminate Herr.
  - apply IH.
    + rewrite length_drop. cbn [String.length] in Hn |- *. lia.
    + apply (append_inv_head (substring 0 size (String c t))).
      rewrite Hs. symmetry. apply substring_drop. lia.
Qed.

(** Coercing leaves exactly the strings of well-formed UTF-8 as they
    are. *)
Lemma coerce_fixes_valid (s : string) : coerce s = s <-> utf8.ValidString s = true.
Proof.
  unfold coerce, utf8.ValidString. split.
  - now apply valid_replace_invalid.
  - apply replace_invalid_valid.
Qed.

Lemma coerce_not_empty (s : string) : s <> EmptyString -> coerce s <> EmptyString.
Proof.
  destruct s as [|c t]; [congruence |]. intros _.
  unfold coerce. cbn [String.length replace_invalid].
  destruct (utf8.DecodeRuneInString (String c t)) as [r size] eqn:Hdec.
  pose proof (decode_size c t) as Hsize. rewrite Hdec in Hsize. cbn [snd] in Hsize.
  destruct ((r =? utf8.RuneError) && (size =? 1)%nat); [discriminate |].
  destruct size as [|size]; [lia |]. discriminate.
Qed.

Lemma Unmarshal_Config_any (c : Config.t) :
  json.Unmarshal Config.decode (config_text c) Config.zero = (coerced c, None).
Proof.
  unfold json.Unmarshal. rewrite checkValid_Config.
  unfold Config.decode, json.decode_struct.
  do 4 (erewrite decode_members_string;
        [| reflexivity | reflexivity | apply unquoteBytes_escaped_any]).
  reflexivity.
Qed.

(** ** [Load] of a serialized configuration *)

(** X15. [Load] of the serialization of a configuration whose four fields are
    not empty never fails: it returns the configuration with its fields
    coerced to UTF-8, which is the configuration itself exactly when the
    fields are well-formed UTF-8. *)
Theorem Load_serialized (fs : os.FS) (jsonPath data : string) (c : Config.t) :
  complete c ->
  Config.Marshal c = inl data ->
  os.ReadFile fs jsonPath = (data, None) ->
  Load fs jsonPath = (fs, (Some (coerced c), None))
  /\ (coerced c = c <-> valid_utf8 c).
Proof.
  intros (Ha & Hb & Hc & Hd) Hdata Hread.
  rewrite Marshal_Config in Hdata. injection Hdata as <-.
  split.
  - rewrite (Load_existing _ _ _ Hread), Unmarshal_Config_any.
    assert (Hcomplete : complete (coerced c))
      by (repeat split; now apply coerce_not_empty).
    apply first_missing_None in Hcomplete. now rewrite Hcomplete.
  - unfold valid_utf8, coerced. rewrite <- !coerce_fixes_valid.
    destruct c as [a b i s]. cbn [Config.OAuthAPI Config.OrderAPI Config.ClientID Config.Secret].
    split; [intros [= -> -> -> ->]; repeat split; assumption || reflexivity |].
    intros (-> & -> & -> & ->). reflexivity.
Qed.

(** The configuration with a secret in Latin-1. *)
Lemma Load_serialized_witness :
  Load (mock_os.with_file "paypal.json" (config_text mock_os.latin1)) "paypal.json"
  = (mock_os.with_file "paypal.json" (config_text mock_os.latin1),
     (Some (coerced mock_os.latin1), None))
  /\ (coerced mock_os.latin1 = mock_os.latin1 <-> valid_utf8 mock_os.latin1).
Proof.
  apply (Load_serialized _ _ (config_text mock_os.latin1)).
  - unfold complete. cbn. repeat split; discriminate.
  - apply Marshal_Config.
  - reflexivity.
Defined.

(** ** Answers of another shape *)

Lemma find_field_unknown {S : Type} (fields : list (json.field S)) (names : list string)
    (k : string) :
  Forall (fun f => In (json.name f) names) fields ->
  ~ In (json.fold k) (map json.fold names) ->
  json.find_field fields k = None.
Proof.
  intros Hfields Hk. unfold json.find_field.
  assert (Hfold : List.find (fun f => String.eqb (json.fold (json.name f)) (json.fold k)) fields
                  = None).
  { induction Hfields as [|f fields Hf Hfields IH]; [reflexivity |].
    cbn [List.find].
    destruct (String.eqb_spec (json.fold (json.name f)) (json.fold k)) as [E | _];
      [| exact IH].
    exfalso. apply Hk. rewrite <- E. now apply in_map. }
  assert (Hexact : List.find (fun f => String.eqb (json.name f) k) fields = None).
  { induction Hfields as [|f fields Hf Hfields IH]; [reflexivity |].
    cbn [List.find] in Hfold |- *.
    destruct (String.eqb_spec (json.name f) k) as [E | _].
    - rewrite E, String.eqb_refl in Hfold. discriminate.
    - apply IH. now destruct (String.eqb _ _) in Hfold. }
  now rewrite Hexact, Hfold.
Qed.

(** A struct takes nothing from [null] and from members it does not know,
    and reports every other value that is no object. *)
Lemma decode_struct_shape {S : Type} (type : string) (fields : list (json.field S))
    (names : list string) (v : json.value) (s : S) :
  Forall (fun f => In (json.name f) names) fields ->
  (holds_nothing names v ->
     json.decode_struct type fields v s None = json.mkdres s None None)
  /\ (no_object v ->
      json.decode_struct type fields v s None
      = json.mkdres s (Some (UnmarshalTypeError (json.describe v) type)) None).
Proof.
  intros Hfields. split.
  - destruct v as [| | | | |ms]; cbn [holds_nothing]; try tauto;
      try (intros _; reflexivity).
    intros Hms. cbn [json.decode_struct].
    induction Hms as [|[key v] ms Hm Hms IH]; [reflexivity |].
    cbn [json.decode_members fst] in *.
    now rewrite (find_field_unknown fields names _ Hfields Hm).
  - destruct v; cbn [no_object]; try tauto; reflexivity.
Qed.

Lemma Unmarshal_shape {S : Type} (type : string) (fields : list (json.field S))
    (names : list string) (body : string) (v : json.value) (s : S) :
  Forall (fun f => In (json.name f) names) fields ->
  json.checkValid body = Some v ->
  (holds_nothing names v ->
     json.Unmarshal (json.decode_struct type fields) body s = (s, None))
  /\ (no_object v ->
      json.Unmarshal (json.decode_struct type fields) body s
      = (s, Some (UnmarshalTypeError (json.describe v) type))).
Proof.
  intros Hfields Hvalid. unfold json.Unmarshal. rewrite Hvalid.
  destruct (decode_struct_shape type fields names v s Hfields) as [Hnothing Hother].
  split; intros Hv; [rewrite (Hnothing Hv) | rewrite (Hother Hv)]; reflexivity.
Qed.

(** The names of a list of fields. *)
Ltac field_names :=
  repeat match goal with
         | |- Forall _ [] => constructor
         | |- Forall _ (_ :: _) => constructor; [cbn; tauto |]
         end.

(** X12. An answer with the expected status that is valid JSON of another
    shape.  From [null], and from an object none of whose keys names a
    field of the result, a call returns the empty result and no error: a nil
    error does not mean that the token or the id is there.  From a string, a
    number, a boolean or an array it returns the empty result and the
    decoder's type error. *)
Theorem answers_of_another_shape `{Env} (config : Config.t) :
  (forall req resp body v,
     fst (Auth config) = [req] ->
     client_Do client req = inl resp ->
     http.StatusCode resp = http.StatusOK ->
     http.Body resp = (body, None) ->
     json.checkValid body = Some v ->
     (holds_nothing ["scope"; "access_token"; "token_type"; "app_id"; "expires_in"; "nonce"] v ->
        snd (Auth config) = (Some AuthResult.zero, None))
     /\ (no_object v ->
         snd (Auth config)
         = (Some AuthResult.zero,
            Some (UnmarshalTypeError (json.describe v) "paypal.AuthResult"))))
  /\ (forall auth description customID invoiceID euroCents req resp body v,
     fst (CreateOrder config auth description customID invoiceID euroCents) = [req] ->
     client_Do client req = inl resp ->
     http.StatusCode resp = http.StatusCreated ->
     http.Body resp = (body, None) ->
     json.checkValid body = Some v ->
     (holds_nothing ["id"; "status"; "links"] v ->
        snd (CreateOrder config auth description customID invoiceID euroCents)
        = Returned (Some GenerateOrderResponse.zero, None))
     /\ (no_object v ->
         snd (CreateOrder config auth description customID invoiceID euroCents)
         = Returned (Some GenerateOrderResponse.zero,
                     Some (UnmarshalTypeError (json.describe v)
                             "paypal.GenerateOrderResponse"))))
  /\ (forall auth orderID req resp body v,
     fst (Capture config auth orderID) = [req] ->
     client_Do client req = inl resp ->
     http.StatusCode resp = http.StatusCreated ->
     http.Body resp = (body, None) ->
     json.checkValid body = Some v ->
     (holds_nothing ["id"; "status"; "purchase_units"; "payer"; "links"] v ->
        snd (Capture config auth orderID) = Returned (Some CaptureResponse.zero, None))
     /\ (no_object v ->
         snd (Capture config auth orderID)
         = Returned (Some CaptureResponse.zero,
                     Some (UnmarshalTypeError (json.describe v) "paypal.CaptureResponse")))).
Proof.
  split; [| split].
  - intros req resp body v Htrace Hdo Hcode Hbody Hvalid.
    apply Auth_sent in Htrace as [Hurl ->].
    rewrite (Auth_returns _ _ _ Hurl Hdo Hbody), Hcode.
    cbn [Z.eqb http.StatusOK Pos.eqb].
    destruct (Unmarshal_shape "paypal.AuthResult" AuthResult.fields
                ["scope"; "access_token"; "token_type"; "app_id"; "expires_in"; "nonce"]
                body v AuthResult.zero) as [Hnothing Hother];
      [unfold AuthResult.fields; field_names | exact Hvalid |].
    fold AuthResult.decode in Hnothing, Hother.
    split; intros Hv; [rewrite (Hnothing Hv) | rewrite (Hother Hv)]; reflexivity.
  - intros auth description customID invoiceID euroCents req resp body v
      Htrace Hdo Hcode Hbody Hvalid.
    apply CreateOrder_sent in Htrace as (a & orJson & -> & Hjson & Hurl & ->).
    rewrite (CreateOrder_returns _ _ _ _ _ _ _ _ _ Hjson Hurl Hdo Hbody), Hcode.
    cbn [Z.eqb http.StatusCreated Pos.eqb].
    destruct (Unmarshal_shape "paypal.GenerateOrderResponse" GenerateOrderResponse.fields
                ["id"; "status"; "links"] body v GenerateOrderResponse.zero)
      as [Hnothing Hother];
      [unfold GenerateOrderResponse.fields; field_names | exact Hvalid |].
    fold GenerateOrderResponse.decode in Hnothing, Hother.
    split; intros Hv; [rewrite (Hnothing Hv) | rewrite (Hother Hv)]; reflexivity.
  - intros auth orderID req resp body v Htrace Hdo Hcode Hbody Hvalid.
    apply Capture_sent in Htrace as (a & -> & Hurl & ->).
    rewrite (Capture_returns _ _ _ _ _ Hurl Hdo Hbody), Hcode.
    cbn [Z.eqb http.StatusCreated Pos.eqb].
    unfold CaptureResponse.decode.
    match goal with
    | |- context [json.Unmarshal (json.decode_struct ?type ?fields) body ?zero] =>
        destruct (Unmarshal_shape type fields
                    ["id"; "status"; "purchase_units"; "payer"; "links"] body v zero)
          as [Hnothing Hother]; [field_names | exact Hvalid |]
    end.
    split; intros Hv; [rewrite (Hnothing Hv) | rewrite (Hother Hv)]; reflexivity.
Qed.

(** An answer [{"error":"invalid_client"}] with status 200: no token, and
    no error. *)
Lemma answers_of_another_shape_witness :
  snd (Auth (H := mock.env (mock_http.answer "200 OK" 200
                              (text (DObj [("error", DStr "invalid_client")]))))
            mock.config)
  = (Some AuthResult.zero, None).
Proof.
  pose (body := text (DObj [("error", DStr "invalid_client")])).
  pose (E := mock.env (mock_http.answer "200 OK" 200 body)).
  destruct (answers_of_another_shape (H := E) mock.config) as (Hauth & _ & _).
  destruct (Hauth (Auth_request mock.config) (http.mkResponse "200 OK" 200 (body, None))
              body (tree (DObj [("error", DStr "invalid_client")]))
              eq_refl eq_refl eq_refl eq_refl) as [Hnothing _].
  - reflexivity.
  - apply Hnothing. repeat constructor. vm_compute. intuition discriminate.
Defined.

(** ** Amounts beyond the range of the specification *)

(** The conversion is right for every amount below [2^51] cents: the float
    is nearest to [euroCents / 100], and the number of cents nearest to it
    is [euroCents]. *)
Lemma amount_value_nearest_wide (euroCents : Z) :
  0 <= euroCents < 2 ^ 51 ->
  nearest_to_cents (amount_value euroCents) euroCents
  /\ cents_of (amount_value euroCents) = Some euroCents.
Proof.
  intros Hrange.
  destruct (Z.eq_dec euroCents 0) as [-> | Hnz]; [split; [split |]; reflexivity |].
  set (d := Z.log2 euroCents + 1).
  assert (Hd : 0 < d <= 51).
  { pose proof (Z.log2_nonneg euroCents).
    assert (Z.log2 euroCents < 51) by (apply Z.log2_lt_pow2; lia). lia. }
  assert (Hc : 2 ^ (d - 1) <= euroCents < 2 ^ d).
  { subst d. replace (Z.log2 euroCents + 1 - 1) with (Z.log2 euroCents) by lia.
    pose proof (Z.log2_spec euroCents ltac:(lia)) as Hspec.
    now rewrite <- Z.add_1_r in Hspec. }
  destruct (of_int_exact euroCents d ltac:(lia) Hc) as (m1 & Hm1 & Hval).
  assert (Hnorm : 2 ^ 52 <= Zpos m1 < 2 ^ 53).
  { rewrite Hval.
    assert (P1 : 2 ^ 52 = 2 ^ (d - 1) * 2 ^ (53 - d))
      by (rewrite <- Z.pow_add_r by lia; f_equal; lia).
    assert (P2 : 2 ^ 53 = 2 ^ d * 2 ^ (53 - d))
      by (rewrite <- Z.pow_add_r by lia; f_equal; lia).
    rewrite P1, P2.
    pose proof (Z.pow_pos_nonneg 2 (53 - d) ltac:(lia) ltac:(lia)). nia. }
  destruct (div_100_nearest m1 (d - 53) Hnorm ltac:(lia))
    as (M & E & Hdiv & HE & HM & Hnear).
  unfold amount_value. rewrite Hm1, Hdiv.
  set (j := E - (d - 53 - 7)) in *.
  set (k := - E).
  assert (Hj : 0 <= j <= 2) by (subst j; lia).
  assert (Hk : 7 <= k) by (subst k; lia).
  assert (HP : 2 ^ 7 <= 2 ^ k) by (apply Z.pow_le_mono_r; lia).
  assert (HJ : 0 < 2 ^ j) by (apply Z.pow_pos_nonneg; lia).
  assert (Hscale : 2 ^ (53 - d) * 2 ^ 53 = 2 ^ k * (2 ^ j * 2 ^ 46)).
  { rewrite <- !Z.pow_add_r by lia. f_equal. subst j k. lia. }
  assert (Hcent : Z.abs (100 * Zpos M - euroCents * 2 ^ k) <= 50).
  { rewrite Hval in Hnear.
    replace (euroCents * 2 ^ (53 - d) * 2 ^ 53)
      with (euroCents * (2 ^ (53 - d) * 2 ^ 53)) in Hnear by ring.
    rewrite Hscale in Hnear.
    replace (Zpos M * 2 ^ j * 7036874417766400 - euroCents * (2 ^ k * (2 ^ j * 2 ^ 46)))
      with ((100 * Zpos M - euroCents * 2 ^ k) * (2 ^ j * 2 ^ 46)) in Hnear
      by (change 7036874417766400 with (100 * 2 ^ 46); ring).
    rewrite Z.abs_mul, (Z.abs_eq (2 ^ j * 2 ^ 46)) in Hnear by lia.
    change 7036874417766400 with (100 * 2 ^ 46) in Hnear.
    set (Y := 2 ^ j * 2 ^ 46) in *.
    assert (0 < Y) by (subst Y; lia).
    replace (2 ^ j * (100 * 2 ^ 46)) with (100 * Y) in Hnear by (subst Y; ring).
    nia. }
  split.
  - cbn [nearest_to_cents]. fold k. repeat split; try lia.
  - cbn [cents_of]. replace (0 <=? E) with false by lia. fold k. f_equal.
    symmetry.
    apply (Z.div_unique_pos _ _ euroCents (200 * Zpos M + 2 ^ k - 2 * 2 ^ k * euroCents));
      lia.
Qed.

(** X16. For every amount from 0 to [2^51 - 1] cents, far beyond the range of
    the specification, the value in the purchase unit of the order request
    is a float nearest to [euroCents / 100], and the number of cents nearest
    to it is [euroCents]: the conversion loses no cent. *)
Theorem amount_keeps_cents_below_2_51 (description customID invoiceID : string)
    (euroCents : Z) (u : PurchaseUnit.t) :
  0 <= euroCents < 2 ^ 51 ->
  In u (OrderRequest.PurchaseUnits
          (orderRequest description customID invoiceID euroCents)) ->
  nearest_to_cents (Amount.Value (PurchaseUnit.Amount u)) euroCents
  /\ cents_of (Amount.Value (PurchaseUnit.Amount u)) = Some euroCents.
Proof.
  intros Hrange [<- | []]. cbn [PurchaseUnit.Amount Amount.Value].
  now apply amount_value_nearest_wide.
Qed.

(** A million million cents. *)
Lemma amount_keeps_cents_below_2_51_witness :
  cents_of (Amount.Value (PurchaseUnit.Amount
              (PurchaseUnit.mk (Amount.mk "EUR" (amount_value 1000000000001)) "d" "c" "i")))
  = Some 1000000000001.
Proof.
  refine (proj2 (amount_keeps_cents_below_2_51 "d" "c" "i" 1000000000001
                   (PurchaseUnit.mk (Amount.mk "EUR" (amount_value 1000000000001))
                                    "d" "c" "i") _ _)).
  - lia.
  - left. reflexivity.
Defined.

(** Beyond [2^53] cents the conversion to [float64] rounds, and two
    amounts become one. *)
Example amounts_collide_beyond_2_53 :
  amount_value (2 ^ 53 + 1) = amount_value (2 ^ 53).
Proof. vm_compute. reflexivity. Qed.

(** For these amounts the order request is marshalled: the amount is a
    finite float. *)
Lemma Marshal_amount `{Env} (description customID invoiceID : string) (euroCents : Z) :
  0 <= euroCents < 2 ^ 51 ->
  OrderRequest.Marshal (orderRequest description customID invoiceID euroCents)
  = inl (order_json description customID invoiceID euroCents).
Proof.
  intros Hrange.
  assert (Hsome : exists orJson,
            OrderRequest.Marshal (orderRequest description customID invoiceID euroCents)
            = inl orJson).
  { destruct (amount_value_nearest_wide euroCents Hrange) as [Hnear _].
    unfold OrderRequest.Marshal, orderRequest.
    cbn [OrderRequest.PurchaseUnits OrderRequest.marshal_units].
    unfold OrderRequest.marshal_unit, OrderRequest.marshal_float.
    cbn [PurchaseUnit.Amount Amount.Value].
    fold (amount_value euroCents).
    destruct (amount_value euroCents); cbn [nearest_to_cents] in Hnear; try tauto;
      cbn [float64.is_finite]; eexists; reflexivity. }
  destruct Hsome as [orJson Hsome].
  now rewrite (Marshal_orderRequest _ _ _ _ _ Hsome) in Hsome.
Qed.

(** X17. For these amounts the order request is always marshalled: the amount is
    a finite float.  With a token and a URL that [http.NewRequest] accepts,
    [CreateOrder] hands the client its request, whatever the texts are. *)
Theorem CreateOrder_sends_every_amount `{Env} (config : Config.t) (a : AuthResult.t)
    (description customID invoiceID : string) (euroCents : Z) :
  0 <= euroCents < 2 ^ 51 ->
  url_Parse (Config.OrderAPI config) = None ->
  OrderRequest.Marshal (orderRequest description customID invoiceID euroCents)
  = inl (order_json description customID invoiceID euroCents)
  /\ fst (CreateOrder config (Some a) description customID invoiceID euroCents)
     = [CreateOrder_request config a
          (order_json description customID invoiceID euroCents)].
Proof.
  intros Hrange Hurl.
  pose proof (Marshal_amount description customID invoiceID euroCents Hrange) as Hjson.
  split; [exact Hjson | now apply CreateOrder_sends].
Qed.

(** An order of 22 million million cents. *)
Lemma CreateOrder_sends_every_amount_witness :
  fst (CreateOrder (H := mock.env (mock_http.answer "201 Created" 201 mock_http.created))
         mock.config (Some (mock.auth "token")) "d" "c" "i" 2200000000000000)
  = [CreateOrder_request mock.config (mock.auth "token")
       (order_json (H := mock.env (mock_http.answer "201 Created" 201 mock_http.created))
          "d" "c" "i" 2200000000000000)].
Proof.
  refine (proj2 (CreateOrder_sends_every_amount
                   (H := mock.env (mock_http.answer "201 Created" 201 mock_http.created))
                   mock.config (mock.auth "token") "d" "c" "i" 2200000000000000 _ _)).
  - lia.
  - reflexivity.
Defined.

(** ** Members that the decoder does not know *)

Lemma known_false (names : list string) (k : string) :
  known names k = false -> ~ In (json.fold k) (map json.fold names).
Proof.
  unfold known. intros Hk Hin.
  assert (existsb (String.eqb (json.fold k)) (map json.fold names) = true).
  { apply existsb_exists. exists (json.fold k). split; [exact Hin | apply String.eqb_refl]. }
  congruence.
Qed.

Lemma known_members_cons (names : list string) (m : string * doc)
    (ms : list (string * doc)) :
  known_members names (m :: ms)
  = if known names (fst m) then m :: known_members names ms else known_members names ms.
Proof. reflexivity. Qed.

Lemma decode_members_known {S : Type} (fields : list (json.field S)) (names : list string)
    (ms : list (string * doc)) :
  Forall (fun f => In (json.name f) names) fields ->
  strings_ok (DObj ms) ->
  forall (s : S) (saved : option error),
    json.decode_members fields (map (fun m => (escaped (fst m), tree (snd m))) ms) s saved
    = json.decode_members fields
        (map (fun m => (escaped (fst m), tree (snd m))) (known_members names ms)) s saved.
Proof.
  intros Hfields. induction ms as [|[k j] ms IH]; intros Hok s saved; [reflexivity |].
  cbn [strings_ok fold_right fst snd] in Hok. destruct Hok as (Hk & _ & Hok).
  rewrite known_members_cons. cbn [fst].
  destruct (known names k) eqn:Hknown.
  - cbn [map json.decode_members fst snd].
    destruct (json.find_field fields _) as [f|]; [| now apply IH].
    destruct (json.stop _); [reflexivity | now apply IH].
  - cbn [map json.decode_members fst snd].
    rewrite unquoteBytes_escaped by exact Hk. cbn [from_option id].
    rewrite (find_field_unknown fields names k Hfields) by now apply known_false.
    now apply IH.
Qed.

Lemma fits_known_members (names : list string) (n : Z) (ms : list (string * doc)) :
  fits n (DObj ms) -> fits n (DObj (known_members names ms)).
Proof.
  unfold fits. cbn [numbers_ok nesting].
  induction ms as [|m ms IH]; [trivial |].
  rewrite known_members_cons. cbn [fold_right].
  intros [[Hm Hms] Hdepth].
  assert (Hrest : 0 <= fold_right (fun m n => Z.max (nesting (snd m)) n) 0 ms).
  { clear. induction ms; cbn [fold_right]; lia. }
  destruct IH as [IHnum IHdepth]; [split; [exact Hms | lia] |].
  destruct (known names (fst m)); cbn [fold_right]; split; try tauto; lia.
Qed.

(** [Unmarshal] into a struct makes of an object what it makes of the
    object without the members it does not know. *)
Lemma Unmarshal_known {S : Type} (type : string) (fields : list (json.field S))
    (names : list string) (n : Z) (ms : list (string * doc)) (s : S) :
  Forall (fun f => In (json.name f) names) fields ->
  fits n (DObj ms) -> n <= json.maxNestingDepth -> strings_ok (DObj ms) ->
  json.Unmarshal (json.decode_struct type fields) (text (DObj ms)) s
  = json.Unmarshal (json.decode_struct type fields)
      (text (DObj (known_members names ms))) s.
Proof.
  intros Hfields Hfits Hn Hok. unfold json.Unmarshal.
  destruct (fits_known_members names n ms Hfits) as [Hnum' Hdepth'].
  destruct Hfits as [Hnum Hdepth].
  rewrite !checkValid_text by (assumption || lia).
  cbn [tree json.decode_struct].
  now rewrite (decode_members_known fields names ms Hfields Hok).
Qed.

(** X13. A member whose key names no field changes nothing, wherever it stands
    in the object: [Load] makes of a configuration file, and each call of
    the answer to its request, what it makes of the same object without
    these members. *)
Theorem unknown_members_are_ignored `{Env} (n : Z) (ms : list (string * doc)) :
  fits n (DObj ms) -> n <= json.maxNestingDepth -> strings_ok (DObj ms) ->
  (forall fs fs' jsonPath,
     os.ReadFile fs jsonPath = (text (DObj ms), None) ->
     os.ReadFile fs' jsonPath = (text (DObj (known_members Config_names ms)), None) ->
     snd (Load fs jsonPath) = snd (Load fs' jsonPath))
  /\ (forall config req resp,
     fst (Auth config) = [req] ->
     client_Do client req = inl resp ->
     http.StatusCode resp = http.StatusOK ->
     http.Body resp = (text (DObj ms), None) ->
     snd (Auth config)
     = (Some (fst (json.Unmarshal AuthResult.decode
                     (text (DObj (known_members AuthResult_names ms))) AuthResult.zero)),
        snd (json.Unmarshal AuthResult.decode
               (text (DObj (known_members AuthResult_names ms))) AuthResult.zero)))
  /\ (forall config auth description customID invoiceID euroCents req resp,
     fst (CreateOrder config auth description customID invoiceID euroCents) = [req] ->
     client_Do client req = inl resp ->
     http.StatusCode resp = http.StatusCreated ->
     http.Body resp = (text (DObj ms), None) ->
     snd (CreateOrder config auth description customID invoiceID euroCents)
     = Returned
         (Some (fst (json.Unmarshal GenerateOrderResponse.decode
                       (text (DObj (known_members GenerateOrderResponse_names ms)))
                       GenerateOrderResponse.zero)),
          snd (json.Unmarshal GenerateOrderResponse.decode
                 (text (DObj (known_members GenerateOrderResponse_names ms)))
                 GenerateOrderResponse.zero)))
  /\ (forall config auth orderID req resp,
     fst (Capture config auth orderID) = [req] ->
     client_Do client req = inl resp ->
     http.StatusCode resp = http.StatusCreated ->
     http.Body resp = (text (DObj ms), None) ->
     snd (Capture config auth orderID)
     = Returned
         (Some (fst (json.Unmarshal CaptureResponse.decode
                       (text (DObj (known_members CaptureResponse_names ms)))
                       CaptureResponse.zero)),
          snd (json.Unmarshal CaptureResponse.decode
                 (text (DObj (known_members CaptureResponse_names ms)))
                 CaptureResponse.zero))).
Proof.
  intros Hfits Hn Hok. split; [| split; [| split]].
  - intros fs fs' jsonPath Hread Hread'.
    rewrite (Load_existing _ _ _ Hread), (Load_existing _ _ _ Hread').
    unfold Config.decode.
    rewrite (Unmarshal_known _ _ Config_names n ms _) by
      (assumption || (unfold Config.fields, Config_names; field_names)).
    destruct (json.Unmarshal _ _ _) as [c [e|]]; [reflexivity |].
    now destruct (first_missing c).
  - intros config req resp Htrace Hdo Hcode Hbody.
    apply Auth_sent in Htrace as [Hurl ->].
    rewrite (Auth_returns _ _ _ Hurl Hdo Hbody), Hcode.
    cbn [Z.eqb http.StatusOK Pos.eqb]. unfold AuthResult.decode.
    now rewrite (Unmarshal_known _ _ AuthResult_names n ms _) by
      (assumption || (unfold AuthResult.fields, AuthResult_names; field_names)).
  - intros config auth description customID invoiceID euroCents req resp
      Htrace Hdo Hcode Hbody.
    apply CreateOrder_sent in Htrace as (a & orJson & -> & Hjson & Hurl & ->).
    rewrite (CreateOrder_returns _ _ _ _ _ _ _ _ _ Hjson Hurl Hdo Hbody), Hcode.
    cbn [Z.eqb http.StatusCreated Pos.eqb]. unfold GenerateOrderResponse.decode.
    now rewrite (Unmarshal_known _ _ GenerateOrderResponse_names n ms _) by
      (assumption
       || (unfold GenerateOrderResponse.fields, GenerateOrderResponse_names; field_names)).
  - intros config auth orderID req resp Htrace Hdo Hcode Hbody.
    apply Capture_sent in Htrace as (a & -> & Hurl & ->).
    rewrite (Capture_returns _ _ _ _ _ Hurl Hdo Hbody), Hcode.
    cbn [Z.eqb http.StatusCreated Pos.eqb]. unfold CaptureResponse.decode.
    now rewrite (Unmarshal_known _ _ CaptureResponse_names n ms _) by
      (assumption || (unfold CaptureResponse_names; field_names)).
Qed.

(** A token answer with three members that [AuthResult] does not have. *)
Lemma unknown_members_are_ignored_witness :
  snd (Auth (H := mock.env (mock_http.answer "200 OK" 200
                              (text (DObj mock_answers.token_and_more))))
            mock.config)
  = (Some (fst (json.Unmarshal AuthResult.decode
                  (text (DObj (known_members AuthResult_names mock_answers.token_and_more)))
                  AuthResult.zero)),
     snd (json.Unmarshal AuthResult.decode
            (text (DObj (known_members AuthResult_names mock_answers.token_and_more)))
            AuthResult.zero)).
Proof.
  pose (body := text (DObj mock_answers.token_and_more)).
  pose (E := mock.env (mock_http.answer "200 OK" 200 body)).
  destruct (unknown_members_are_ignored (H := E) 2 mock_answers.token_and_more)
    as (_ & Hauth & _).
  - apply (fits_DObj 1); [lia |]. unfold mock_answers.token_and_more. fits_members;
      try (apply (fits_mono 0); [apply fits_DStr || apply fits_DInt | lia]).
    apply (fits_DArr 0); [lia |]. fits_members. apply fits_DStr.
  - unfold json.maxNestingDepth. lia.
  - repeat split; vm_compute; reflexivity.
  - exact (Hauth mock.config (Auth_request mock.config)
             (http.mkResponse "200 OK" 200 (body, None)) eq_refl eq_refl eq_refl eq_refl).
Defined.

(** What is left of that answer: the token, its type and its lifetime. *)
Example token_among_unknown_members :
  json.Unmarshal AuthResult.decode
    (text (DObj (known_members AuthResult_names mock_answers.token_and_more)))
    AuthResult.zero
  = (AuthResult.mk EmptyString "A21AAFEpH4PsADK7qSS7pSRsgz" "Bearer" EmptyString 32400
                   EmptyString, None).
Proof. vm_compute. reflexivity. Qed.

(** ** From the token to the capture *)

(** X18. The three calls in a row.  When the token endpoint answers with a token
    and the order endpoint, asked with that token, answers with an order,
    then [CreateOrder], given what [Auth] returned, returns the order, and
    [Capture], given the same and the id of the order, asks for
    [<order-api>/<id>/capture] with that token. *)
Theorem token_and_id_flow `{Env} (config : Config.t) (a : AuthResult.t)
    (order : GenerateOrderResponse.t) (description customID invoiceID : string)
    (euroCents : Z) (tokenAnswer orderAnswer : http.Response) :
  url_Parse (Config.OAuthAPI config) = None ->
  url_Parse (Config.OrderAPI config) = None ->
  url_Parse (capture_url config (GenerateOrderResponse.ID order)) = None ->
  client_Do client (Auth_request config) = inl tokenAnswer ->
  http.StatusCode tokenAnswer = http.StatusOK ->
  http.Body tokenAnswer = (text (AuthResult_doc a), None) ->
  strings_ok (AuthResult_doc a) ->
  - 2 ^ 63 <= AuthResult.ExpiresIn a < 2 ^ 63 ->
  0 <= euroCents < 2 ^ 51 ->
  client_Do client
    (CreateOrder_request config a (order_json description customID invoiceID euroCents))
  = inl orderAnswer ->
  http.StatusCode orderAnswer = http.StatusCreated ->
  http.Body orderAnswer = (text (GenerateOrderResponse_doc order), None) ->
  strings_ok (GenerateOrderResponse_doc order) ->
  snd (Auth config) = (Some a, None)
  /\ CreateOrder config (fst (snd (Auth config))) description customID invoiceID euroCents
     = ([CreateOrder_request config a
           (order_json description customID invoiceID euroCents)],
        Returned (Some order, None))
  /\ exists req,
       fst (Capture config (fst (snd (Auth config))) (GenerateOrderResponse.ID order)) = [req]
       /\ http.URL req
          = ensureTrailingSlash (Config.OrderAPI config)
            ++ GenerateOrderResponse.ID order ++ "/capture"
       /\ http.Header req !! "Authorization"
          = Some ["Bearer " ++ AuthResult.AccessToken a].
Proof.
  intros HurlA HurlO HurlC HdoA HcodeA HbodyA HstrA Hint Hrange HdoO HcodeO HbodyO HstrO.
  assert (Hauth : snd (Auth config) = (Some a, None)).
  { rewrite (Auth_returns _ _ _ HurlA HdoA HbodyA), HcodeA.
    cbn [Z.eqb http.StatusOK Pos.eqb].
    rewrite (Unmarshal_fits _ 1 _ _ a);
      [reflexivity | apply fits_AuthResult | unfold json.maxNestingDepth; lia |].
    now apply decode_AuthResult. }
  rewrite Hauth. cbn [fst snd].
  split; [reflexivity |]. split.
  - pose proof (Marshal_amount description customID invoiceID euroCents Hrange) as Hjson.
    rewrite (surjective_pairing (CreateOrder _ _ _ _ _ _)).
    rewrite (CreateOrder_sends _ _ _ _ _ _ _ Hjson HurlO).
    rewrite (CreateOrder_returns _ _ _ _ _ _ _ _ _ Hjson HurlO HdoO HbodyO), HcodeO.
    cbn [Z.eqb http.StatusCreated Pos.eqb].
    rewrite (Unmarshal_fits _ 3 _ _ order);
      [reflexivity | apply fits_GenerateOrderResponse | unfold json.maxNestingDepth; lia |].
    now apply decode_GenerateOrderResponse.
  - exists (Capture_request config a (GenerateOrderResponse.ID order)).
    split; [now apply Capture_sends |].
    split; [reflexivity | apply bearer_Authorization].
Qed.

(** The flow against an API that answers with a token and an order. *)
Lemma token_and_id_flow_witness :
  snd (Auth (H := mock_answers.api) mock.config) = (Some mock_answers.token, None)
  /\ CreateOrder (H := mock_answers.api) mock.config
       (fst (snd (Auth (H := mock_answers.api) mock.config))) "d" "c" "i" 1050
     = ([CreateOrder_request mock.config mock_answers.token
           (order_json (H := mock_answers.api) "d" "c" "i" 1050)],
        Returned (Some mock_answers.order, None))
  /\ exists req,
       fst (Capture (H := mock_answers.api) mock.config
              (fst (snd (Auth (H := mock_answers.api) mock.config)))
              (GenerateOrderResponse.ID mock_answers.order)) = [req]
       /\ http.URL req
          = ensureTrailingSlash (Config.OrderAPI mock.config)
            ++ GenerateOrderResponse.ID mock_answers.order ++ "/capture"
       /\ http.Header req !! "Authorization"
          = Some ["Bearer " ++ AuthResult.AccessToken mock_answers.token].
Proof.
  apply (token_and_id_flow (H := mock_answers.api) mock.config mock_answers.token
           mock_answers.order "d" "c" "i" 1050
           (http.mkResponse "200 OK" 200 (text (AuthResult_doc mock_answers.token), None))
           (http.mkResponse "201 Created" 201
              (text (GenerateOrderResponse_doc mock_answers.order), None))).
  - reflexivity.
  - reflexivity.
  - reflexivity.
  - reflexivity.
  - reflexivity.
  - reflexivity.
  - repeat split; vm_compute; reflexivity.
  - unfold mock_answers.token. cbn [AuthResult.ExpiresIn]. lia.
  - lia.
  - reflexivity.
  - reflexivity.
  - reflexivity.
  - repeat split; vm_compute; reflexivity.
Defined.

(** ** The credentials in the request of [Auth] *)

Lemma val_encodeStd (n : Z) :
  0 <= n < 64 ->
  byte.val (base64.encodeStd n)
  = if n <? 26 then 0x41 + n
    else if n <? 52 then 0x61 + (n - 26)
    else if n <? 62 then 0x30 + (n - 52)
    else if n =? 62 then 0x2B else 0x2F.
Proof.
  intros Hn. unfold base64.encodeStd.
  repeat match goal with
         | |- context [if ?b then _ else _] => destruct b eqn:?
         end; apply byte_val_of; lia.
Qed.

Lemma encodeStd_inj (n n' : Z) :
  0 <= n < 64 -> 0 <= n' < 64 ->
  base64.encodeStd n = base64.encodeStd n' -> n = n'.
Proof.
  intros Hn Hn' E. apply (f_equal byte.val) in E.
  rewrite !val_encodeStd in E by assumption.
  repeat match type of E with
         | context [if ?b then _ else _] => destruct b eqn:?
         end; lia.
Qed.

Lemma encodeStd_not_pad (n : Z) : 0 <= n < 64 -> base64.encodeStd n <> "="%char.
Proof.
  intros Hn E. apply (f_equal byte.val) in E.
  rewrite val_encodeStd in E by assumption. change (byte.val "=") with 0x3D in E.
  repeat match type of E with
         | context [if ?b then _ else _] => destruct b eqn:?
         end; lia.
Qed.

Lemma sextet_range (v shift : Z) : 0 <= Z.land (Z.shiftr v shift) 0x3F < 64.
Proof. rewrite land_x3F. apply Z.mod_pos_bound. lia. Qed.

Lemma sextet_inj (v v' shift : Z) :
  base64.sextet v shift = base64.sextet v' shift ->
  Z.shiftr v shift mod 64 = Z.shiftr v' shift mod 64.
Proof.
  unfold base64.sextet. intros E.
  apply encodeStd_inj in E; try apply sextet_range.
  now rewrite !land_x3F in E.
Qed.

Lemma sextet_not_pad (v shift : Z) : base64.sextet v shift <> "="%char.
Proof. apply encodeStd_not_pad, sextet_range. Qed.

(** The three bytes of a group, as one number of 24 bits. *)
Lemma group_value (a b c : ascii) :
  Z.lor (Z.lor (Z.shiftl (byte.val a) 16) (Z.shiftl (byte.val b) 8)) (byte.val c)
  = byte.val a * 65536 + byte.val b * 256 + byte.val c.
Proof.
  pose proof (byte_val_range a). pose proof (byte_val_range b).
  pose proof (byte_val_range c).
  assert (Hb : Z.shiftl (byte.val b) 8 = byte.val b * 256)
    by (now rewrite Z.shiftl_mul_pow2 by lia).
  assert (Hab : Z.lor (Z.shiftl (byte.val a) 16) (Z.shiftl (byte.val b) 8)
                = byte.val a * 65536 + byte.val b * 256).
  { rewrite Hb.
    rewrite (lor_shiftl_small (byte.val a) (byte.val b * 256) 16)
      by (change (2 ^ 16) with 65536; lia).
    reflexivity. }
  rewrite Hab.
  replace (byte.val a * 65536 + byte.val b * 256)
    with (Z.shiftl (byte.val a * 256 + byte.val b) 8)
    by (rewrite Z.shiftl_mul_pow2 by lia; change (2 ^ 8) with 256; lia).
  rewrite (lor_shiftl_small _ (byte.val c) 8) by (change (2 ^ 8) with 256; lia).
  rewrite Z.shiftl_mul_pow2 by lia. reflexivity.
Qed.

Lemma byte_val_inj (a b : ascii) : byte.val a = byte.val b -> a = b.
Proof. intros E. now rewrite <- (byte_of_val a), <- (byte_of_val b), E. Qed.

Lemma group_value2 (a b : ascii) :
  Z.lor (Z.shiftl (byte.val a) 16) (Z.shiftl (byte.val b) 8)
  = byte.val a * 65536 + byte.val b * 256.
Proof.
  pose proof (group_value a b "000"%char) as Hg.
  change (byte.val "000") with 0 in Hg. rewrite Z.lor_0_r in Hg. lia.
Qed.

Lemma shiftr_div (v k : Z) : 0 <= k -> Z.shiftr v k = v / 2 ^ k.
Proof. apply Z.shiftr_div_pow2. Qed.

(** The sextets of a group determine its bytes. *)
Lemma group_inj (x y : Z) :
  0 <= x < 16777216 -> 0 <= y < 16777216 ->
  Z.shiftr x 18 mod 64 = Z.shiftr y 18 mod 64 ->
  Z.shiftr x 12 mod 64 = Z.shiftr y 12 mod 64 ->
  Z.shiftr x 6 mod 64 = Z.shiftr y 6 mod 64 ->
  Z.shiftr x 0 mod 64 = Z.shiftr y 0 mod 64 ->
  x = y.
Proof.
  intros Hx Hy. rewrite !shiftr_div by lia.
  change (2 ^ 18) with 262144. change (2 ^ 12) with 4096.
  change (2 ^ 6) with 64. change (2 ^ 0) with 1.
  intros H18 H12 H6 H0. Z.div_mod_to_equations. lia.
Qed.

(** The encoding is one to one. *)
Lemma EncodeToString_inj (n : nat) : forall s s' : string,
  (String.length s <= n)%nat ->
  base64.EncodeToString s = base64.EncodeToString s' -> s = s'.
Proof.
  induction n as [|n IH]; intros s s' Hn E.
  - destruct s; [| cbn in Hn; lia].
    destruct s' as [|a' [|b' [|c' t']]]; [reflexivity | discriminate..].
  - destruct s as [|a [|b [|c t]]], s' as [|a' [|b' [|c' t']]];
      cbn [base64.EncodeToString String.length] in *;
      try reflexivity; try discriminate.
    + (* one byte, one byte *)
      injection E as E18 E12.
      apply sextet_inj in E18, E12.
      pose proof (byte_val_range a). pose proof (byte_val_range a').
      rewrite !shiftr_div, !Z.shiftl_mul_pow2 in * by lia.
      change (2 ^ 18) with 262144 in *. change (2 ^ 12) with 4096 in *.
      change (2 ^ 16) with 65536 in *.
      f_equal. apply byte_val_inj. Z.div_mod_to_equations. lia.
    + (* one byte, two bytes *)
      injection E as _ _ E6. symmetry in E6. now apply sextet_not_pad in E6.
    + injection E as _ _ E6. symmetry in E6. now apply sextet_not_pad in E6.
    + injection E as _ _ E6. now apply sextet_not_pad in E6.
    + (* two bytes, two bytes *)
      injection E as E18 E12 E6.
      apply sextet_inj in E18, E12, E6.
      rewrite !group_value2 in *.
      pose proof (byte_val_range a). pose proof (byte_val_range a').
      pose proof (byte_val_range b). pose proof (byte_val_range b').
      rewrite !shiftr_div in * by lia.
      change (2 ^ 18) with 262144 in *. change (2 ^ 12) with 4096 in *.
      change (2 ^ 6) with 64 in *.
      assert (byte.val a = byte.val a' /\ byte.val b = byte.val b') as [Ha Hb]
        by (Z.div_mod_to_equations; lia).
      apply byte_val_inj in Ha, Hb. now subst.
    + injection E as _ _ _ E0. symmetry in E0. now apply sextet_not_pad in E0.
    + injection E as _ _ E6. now apply sextet_not_pad in E6.
    + injection E as _ _ _ E0. now apply sextet_not_pad in E0.
    + (* three bytes and more *)
      injection E as E18 E12 E6 E0 Etail.
      apply sextet_inj in E18, E12, E6, E0.
      rewrite !group_value in *.
      pose proof (byte_val_range a). pose proof (byte_val_range a').
      pose proof (byte_val_range b). pose proof (byte_val_range b').
      pose proof (byte_val_range c). pose proof (byte_val_range c').
      assert (Hv : byte.val a * 65536 + byte.val b * 256 + byte.val c
                   = byte.val a' * 65536 + byte.val b' * 256 + byte.val c')
        by (apply group_inj; assumption || lia).
      assert (byte.val a = byte.val a' /\ byte.val b = byte.val b'
              /\ byte.val c = byte.val c') as (Ha & Hb & Hc) by lia.
      apply byte_val_inj in Ha, Hb, Hc. subst.
      f_equal. f_equal. f_equal. apply IH; [lia | exact Etail].
Qed.

(** X8. The request of [Auth]: a [POST] of the form [grant_type=client_credentials]
    to the token endpoint, with [Accept] and [Authorization] and no other
    header (no [Content-Type] is set for the form).  The [Authorization] is
    [Basic] and the base64 text of [ClientID:Secret]; the text is one to one,
    so two configurations send the same header exactly when these strings
    are the same. *)
Theorem Auth_sends_the_credentials `{Env} (config : Config.t) (req : http.Request) :
  fst (Auth config) = [req] ->
  http.Method req = "POST"
  /\ http.URL req = Config.OAuthAPI config
  /\ http.RequestBody req = Some "grant_type=client_credentials"
  /\ http.Header req
     = <["Authorization" :=
           ["Basic " ++ base64.EncodeToString
                          (Config.ClientID config ++ ":" ++ Config.Secret config)]]>
         (<["Accept" := ["application/json"]]> ∅)
  /\ http.Header req !! "Content-Type" = None
  /\ (forall config' req',
        fst (Auth config') = [req'] ->
        (http.Header req' !! "Authorization" = http.Header req !! "Authorization"
         <-> Config.ClientID config' ++ ":" ++ Config.Secret config'
             = Config.ClientID config ++ ":" ++ Config.Secret config)).
Proof.
  intros Htrace. apply Auth_sent in Htrace as [_ ->].
  assert (Hheader : forall c,
            http.Header (Auth_request c) !! "Authorization"
            = Some ["Basic " ++ base64.EncodeToString
                                  (Config.ClientID c ++ ":" ++ Config.Secret c)]).
  { intros c. unfold Auth_request, http.SetBasicAuth, http.Header_Set.
    cbn [http.Header]. apply lookup_insert_eq. }
  split; [reflexivity |]. split; [reflexivity |]. split; [reflexivity |].
  split; [| split].
  - unfold Auth_request, http.SetBasicAuth, http.Header_Set, http.AddHeader,
      http.Header_Add. cbn [http.Header].
    now rewrite lookup_empty.
  - unfold Auth_request, http.SetBasicAuth, http.Header_Set, http.AddHeader,
      http.Header_Add. cbn [http.Header].
    rewrite !lookup_insert_ne by discriminate. apply lookup_empty.
  - intros config' req' Htrace'. apply Auth_sent in Htrace' as [_ ->].
    rewrite !Hheader. split.
    + intros [= E]. now apply (EncodeToString_inj _ _ _ (le_n _)) in E.
    + now intros ->.
Qed.

(** The header of the example configuration. *)
Lemma Auth_sends_the_credentials_witness :
  http.Header (Auth_request mock.config)
  = <["Authorization" := ["Basic " ++ base64.EncodeToString "client:secret"]]>
      (<["Accept" := ["application/json"]]> ∅).
Proof.
  pose (E := mock.env (mock_http.answer "200 OK" 200 "{}")).
  exact (proj1 (proj2 (proj2 (proj2
           (Auth_sends_the_credentials (H := E) mock.config (Auth_request mock.config)
              eq_refl))))).
Defined.

(** A colon in the client id is not told from the colon before the
    secret. *)
Example Basic_colon_is_ambiguous :
  Auth_request (Config.mk "t" "o" "shop:eu" "secret")
  = Auth_request (Config.mk "t" "o" "shop" "eu:secret").
Proof. reflexivity. Qed.

(** ** The keys of the configuration file *)

(** A key that folds to the name of a field of the configuration finds
    that field. *)
Lemma find_Config_field (k nm : string) (f : json.field Config.t) :
  In (nm, f) (map (fun f => (json.name f, f)) Config.fields) ->
  json.fold k = json.fold nm ->
  json.find_field Config.fields k = Some f.
Proof.
  intros Hin Hfold. unfold json.find_field.
  assert (Hexact : forall g, In g Config.fields -> json.name g = k -> g = f).
  { intros g Hg <-. cbn [Config.fields map In] in Hin, Hg.
    repeat destruct Hin as [[= <- <-] | Hin]; try destruct Hin;
      repeat destruct Hg as [<- | Hg]; try destruct Hg;
      try reflexivity; vm_compute in Hfold; discriminate. }
  destruct (List.find (fun g => String.eqb (json.name g) k) Config.fields) as [g|] eqn:Hfind.
  - apply find_some in Hfind as [Hg Hname].
    apply String.eqb_eq in Hname. f_equal. now apply Hexact.
  - cbn [Config.fields List.find json.name json.field_of]. rewrite Hfold.
    cbn [Config.fields map In] in Hin.
    repeat destruct Hin as [[= <- <-] | Hin]; try destruct Hin; reflexivity.
Qed.

(** X19. [Load] reads the keys of the configuration file without regard to the
    case of their letters: a file whose keys are the four names in any
    case holds the same configuration as the file [Create] would be filled
    in to. *)
Theorem Load_folds_the_keys (fs : os.FS) (jsonPath : string)
    (k1 k2 k3 k4 : string) (c : Config.t) :
  json.fold k1 = json.fold "oauth-api" -> json.fold k2 = json.fold "order-api" ->
  json.fold k3 = json.fold "client-id" -> json.fold k4 = json.fold "secret" ->
  strings_ok (Config_doc_with_keys k1 k2 k3 k4 c) ->
  complete c ->
  os.ReadFile fs jsonPath = (text (Config_doc_with_keys k1 k2 k3 k4 c), None) ->
  Load fs jsonPath = (fs, (Some c, None)).
Proof.
  intros H1 H2 H3 H4 (Hk1 & Ha & Hk2 & Hb & Hk3 & Hc & Hk4 & Hd & _) Hcomplete Hread.
  rewrite (Load_existing _ _ _ Hread).
  rewrite (Unmarshal_fits _ 1 _ _ c).
  - apply first_missing_None in Hcomplete. now rewrite Hcomplete.
  - apply (fits_DObj 0); [lia |]. unfold Config_doc_with_keys. fits_members; apply fits_DStr.
  - unfold json.maxNestingDepth. lia.
  - unfold Config.decode, json.decode_struct, Config_doc_with_keys.
    cbn [tree map fst snd].
    erewrite decode_member;
      [| now apply unquoteBytes_escaped
       | apply (find_Config_field k1 "oauth-api"); [cbn; tauto | exact H1]
       | now apply decode_string_doc].
    erewrite decode_member;
      [| now apply unquoteBytes_escaped
       | apply (find_Config_field k2 "order-api"); [cbn; tauto | exact H2]
       | now apply decode_string_doc].
    erewrite decode_member;
      [| now apply unquoteBytes_escaped
       | apply (find_Config_field k3 "client-id"); [cbn; tauto | exact H3]
       | now apply decode_string_doc].
    erewrite decode_member;
      [| now apply unquoteBytes_escaped
       | apply (find_Config_field k4 "secret"); [cbn; tauto | exact H4]
       | now apply decode_string_doc].
    cbn. now destruct c.
Qed.

(** Keys in capitals. *)
Lemma Load_folds_the_keys_witness :
  Load (mock_os.with_file "paypal.json"
          (text (Config_doc_with_keys "OAuth-API" "Order-API" "Client-ID" "SECRET"
                   mock.config)))
       "paypal.json"
  = (mock_os.with_file "paypal.json"
       (text (Config_doc_with_keys "OAuth-API" "Order-API" "Client-ID" "SECRET"
                mock.config)),
     (Some mock.config, None)).
Proof.
  apply (Load_folds_the_keys _ _ "OAuth-API" "Order-API" "Client-ID" "SECRET").
  - vm_compute. reflexivity.
  - vm_compute. reflexivity.
  - vm_compute. reflexivity.
  - vm_compute. reflexivity.
  - repeat split; vm_compute; reflexivity.
  - unfold complete. cbn. repeat split; discriminate.
  - reflexivity.
Defined.

(** ** Panics *)

